(** * Shadertoy editor: the WebGL renderer (renderers/webgl-renderer.ts)

    A shallow embedding of the renderer class: the fragment-shader
    assembler, the diagnostic translator, the compile/link sequence, the
    play/pause/restart timeline with its frame loop, pointer tracking and
    the listener registry; then the two timer and layout routines of the
    page that drive it (main.ts) and the shader store the page saves to
    (shader-manager.ts).

    Conventions of the model.
    - A JavaScript string is a [string]: each [ascii] is one code unit,
      restricted to the Latin-1 range (GLSL info logs are ASCII).
    - A JavaScript number holding a line number, a frame count, a
      millisecond timestamp or a pixel coordinate is a [Z]; quantities
      obtained by division (seconds, frames per second) are exact
      rationals [Q].  Rounding of IEEE doubles is outside the model.
    - Host services (performance.now, Date, the GL driver,
      requestAnimationFrame) are oracles stored in the [World]; every
      call consumes the next answer, so two reads of the clock inside one
      method are two independent readings.
    - Listeners are opaque observers identified by a number; calling one
      is recorded in the world's [delivered] log.  They do not call back
      into the renderer.
    - The object store of the shader store is a finite map from id to
      project; awaiting a request is running it. *)

From Stdlib Require Import ZArith QArith List String Ascii Bool Lia.
From Stdlib Require Import DecimalString DecimalPos DecimalN.
Import ListNotations.

Set Implicit Arguments.

(** ** JavaScript strings *)

Module Js.

Local Open Scope string_scope.

Definition LF : ascii := "010"%char.
Definition CR : ascii := "013"%char.

(** LineTerminator code units below 256: LF and CR. *)
Definition isLineTerminator (c : ascii) : bool :=
  (Ascii.eqb c LF || Ascii.eqb c CR)%bool.

(** WhiteSpace code units below 256: TAB, VT, FF, SP, NBSP. *)
Definition isWhiteSpace (c : ascii) : bool :=
  let n := nat_of_ascii c in
  (Nat.eqb n 9 || Nat.eqb n 11 || Nat.eqb n 12 || Nat.eqb n 32 || Nat.eqb n 160)%bool.

(** The regular-expression class [\s], also what [trim] strips. *)
Definition isSpace (c : ascii) : bool :=
  (isWhiteSpace c || isLineTerminator c)%bool.

(** The class [\d]. *)
Definition isDigit (c : ascii) : bool :=
  let n := nat_of_ascii c in
  (Nat.leb 48 n && Nat.leb n 57)%bool.

(** The class [.] (no [s] flag): anything but a line terminator. *)
Definition isDot (c : ascii) : bool := negb (isLineTerminator c).

(** [s.split('\n')]: the pieces between line feeds; never empty. *)
Fixpoint split_lines (s : string) : list string :=
  match s with
  | EmptyString => [EmptyString]
  | String c s' =>
      if Ascii.eqb c LF then EmptyString :: split_lines s'
      else match split_lines s' with
           | l :: ls => String c l :: ls
           | [] => [String c EmptyString]
           end
  end.

Fixpoint trimStart (s : string) : string :=
  match s with
  | String c s' => if isSpace c then trimStart s' else s
  | EmptyString => EmptyString
  end.

Fixpoint trimEnd (s : string) : string :=
  match s with
  | String c s' =>
      match trimEnd s' with
      | EmptyString => if isSpace c then EmptyString else String c EmptyString
      | t => String c t
      end
  | EmptyString => EmptyString
  end.

(** [s.trim()]. *)
Definition trim (s : string) : string := trimEnd (trimStart s).

Definition digitValue (c : ascii) : Z := Z.of_nat (nat_of_ascii c) - 48.

(** [parseInt(s, 10)] on a string that starts with decimal digits: the
    value of the longest digit prefix.  The only caller passes the
    capture of [(\d+)], a non-empty run of digits (see
    [exec_captures]); on a string without a leading digit JavaScript
    answers NaN, which the accumulator's start value 0 stands for. *)
Fixpoint parseInt_from (acc : Z) (s : string) : Z :=
  match s with
  | String c s' =>
      if isDigit c then parseInt_from (10 * acc + digitValue c) s' else acc
  | EmptyString => acc
  end.

Definition parseInt (s : string) : Z := parseInt_from 0 s.

(** Number of line feeds in a string. *)
Fixpoint count_LF (s : string) : nat :=
  match s with
  | String c s' => (if Ascii.eqb c LF then 1 else 0) + count_LF s'
  | EmptyString => 0
  end.

End Js.

(** ** A backtracking matcher for the diagnostic pattern

    Greedy quantifiers with backtracking, in continuation-passing style:
    each combinator consumes a prefix of the subject and hands the rest
    to its continuation; when the continuation fails, a starred class
    gives back its last character and tries again. *)

Module Regex.

Section Combinators.
Variable A : Type.

Fixpoint lit (p : string) (k : string -> option A) (s : string) : option A :=
  match p with
  | EmptyString => k s
  | String a p' =>
      match s with
      | String b s' => if Ascii.eqb a b then lit p' k s' else None
      | EmptyString => None
      end
  end.

(** [c*] without capture. *)
Fixpoint star (c : ascii -> bool) (k : string -> option A) (s : string)
  : option A :=
  match s with
  | String a s' =>
      if c a then
        match star c k s' with
        | Some r => Some r
        | None => k s
        end
      else k s
  | EmptyString => k s
  end.

(** [c+] without capture. *)
Definition plus (c : ascii -> bool) (k : string -> option A) (s : string)
  : option A :=
  match s with
  | String a s' => if c a then star c k s' else None
  | EmptyString => None
  end.

(** [c*] inside a capture group; [acc] is what the group holds so far. *)
Fixpoint star_cap (c : ascii -> bool) (k : string -> string -> option A)
  (acc : string) (s : string) : option A :=
  match s with
  | String a s' =>
      if c a then
        match star_cap c k (acc ++ String a EmptyString) s' with
        | Some r => Some r
        | None => k acc s
        end
      else k acc s
  | EmptyString => k acc s
  end.

(** [(c+)]. *)
Definition plus_cap (c : ascii -> bool) (k : string -> string -> option A)
  (s : string) : option A :=
  match s with
  | String a s' => if c a then star_cap c k (String a EmptyString) s' else None
  | EmptyString => None
  end.

End Combinators.

(** [/ERROR:\s*\d+:(\d+):\s*(.+)/] anchored at the start of [s]: the two
    captures [(match[1], match[2])]. *)
Definition exec_at (s : string) : option (string * string) :=
  lit "ERROR:"
    (star Js.isSpace
       (plus Js.isDigit
          (lit ":"
             (plus_cap Js.isDigit (fun g1 =>
                lit ":"
                  (star Js.isSpace
                     (plus_cap Js.isDot (fun g2 _ => Some (g1, g2)))))))))
    s.

(** [line.match(regex)] for a pattern without the [g] flag: the leftmost
    start position at which the pattern matches. *)
Fixpoint exec (s : string) : option (string * string) :=
  match exec_at s with
  | Some r => Some r
  | None =>
      match s with
      | String _ s' => exec s'
      | EmptyString => None
      end
  end.

End Regex.

(** ** Types (types.ts) *)

Record CompilationError := mkCompilationError {
  line : Z;
  message : string
}.

Record RendererState := mkRendererState {
  st_isPlaying : bool;
  st_time : Q;
  st_frame : Z;
  st_fps : Q
}.

Inductive RendererEventType := compile_error | compile_success | frame.

Record RendererEvent := mkRendererEvent {
  type : RendererEventType;
  errors : option (list CompilationError);
  state : option RendererState
}.

(** ** Shader program assembler *)

Local Open Scope string_scope.

Definition VERTEX_SHADER : string :=
"#version 300 es
precision highp float;

in vec2 a_position;
out vec2 v_texCoord;

void main() {
    v_texCoord = a_position * 0.5 + 0.5;
    gl_Position = vec4(a_position, 0.0, 1.0);
}
".

(** The template text before [${userCode}]. *)
Definition fragmentPreamble : string :=
"#version 300 es
precision highp float;

// Shadertoy uniforms
uniform vec3 iResolution;
uniform float iTime;
uniform float iTimeDelta;
uniform int iFrame;
uniform float iFrameRate;
uniform vec4 iMouse;
uniform vec4 iDate;
uniform sampler2D iChannel0;
uniform sampler2D iChannel1;
uniform sampler2D iChannel2;
uniform sampler2D iChannel3;
uniform vec3 iChannelResolution[4];
uniform float iChannelTime[4];

in vec2 v_texCoord;
out vec4 outColor;

// User shader code
".

(** The template text after [${userCode}]. *)
Definition fragmentEpilogue : string :=
"

void main() {
    vec2 fragCoord = v_texCoord * iResolution.xy;
    mainImage(outColor, fragCoord);
}
".

Definition createFragmentShader (userCode : string) : string :=
  fragmentPreamble ++ userCode ++ fragmentEpilogue.

(** Lines the assembler puts before the first line of user code: the
    number of line feeds that precede the insertion point. *)
Definition header_len : Z := Z.of_nat (Js.count_LF fragmentPreamble).

(** The 1-based line of the assembled source on which the character at
    offset [i] lies, as a GLSL compiler counts lines. *)
Definition line_of_offset (src : string) (i : nat) : Z :=
  Z.of_nat (Js.count_LF (substring 0 i src)) + 1.

(** ** Diagnostic translator *)

(** The offset literal of [parseErrors]. *)
Definition WRAPPER_OFFSET : Z := 16.

(** The loop body of [parseErrors] for one line of the log. *)
Definition parseErrorLine (l : string) : list CompilationError :=
  match Regex.exec l with
  | Some (g1, g2) =>
      let lineNum := (Js.parseInt g1 - WRAPPER_OFFSET)%Z in
      [ {| line := Z.max 1 lineNum; message := Js.trim g2 |} ]
  | None => []
  end.

Definition parseErrors (errorLog : string) : list CompilationError :=
  flat_map parseErrorLine (Js.split_lines errorLog).

Local Close Scope string_scope.

(** ** The renderer object and its host *)

Definition Listener := nat.
Definition Handle := nat.

Record Mouse := mkMouse { m0 : Z; m1 : Z; m2 : Z; m3 : Z }.

(** The fields of [WebGLRenderer]. [gl] tells whether the context field is
    non-null; [canvasWidth] and [canvasHeight] are the canvas attributes
    the class writes in [resize] and reads in [renderFrame]. *)
Record Renderer := mkRenderer {
  canvasWidth : Z;
  canvasHeight : Z;
  gl : bool;
  program : option Handle;
  vao : option Handle;
  isPlaying : bool;
  startTime : Z;
  pausedTime : Z;
  lastFrameTime : Z;
  frameCount : Z;
  animationId : option nat;
  mouse : Mouse;
  isMouseDown : bool;
  eventListeners : list Listener
}.

Definition set_canvas (w h : Z) (r : Renderer) : Renderer :=
  mkRenderer w h (gl r) (program r) (vao r) (isPlaying r) (startTime r)
    (pausedTime r) (lastFrameTime r) (frameCount r) (animationId r) (mouse r)
    (isMouseDown r) (eventListeners r).
Definition set_program (v : option Handle) (r : Renderer) : Renderer :=
  mkRenderer (canvasWidth r) (canvasHeight r) (gl r) v (vao r) (isPlaying r)
    (startTime r) (pausedTime r) (lastFrameTime r) (frameCount r)
    (animationId r) (mouse r) (isMouseDown r) (eventListeners r).
Definition set_isPlaying (v : bool) (r : Renderer) : Renderer :=
  mkRenderer (canvasWidth r) (canvasHeight r) (gl r) (program r) (vao r) v
    (startTime r) (pausedTime r) (lastFrameTime r) (frameCount r)
    (animationId r) (mouse r) (isMouseDown r) (eventListeners r).
Definition set_startTime (v : Z) (r : Renderer) : Renderer :=
  mkRenderer (canvasWidth r) (canvasHeight r) (gl r) (program r) (vao r)
    (isPlaying r) v (pausedTime r) (lastFrameTime r) (frameCount r)
    (animationId r) (mouse r) (isMouseDown r) (eventListeners r).
Definition set_pausedTime (v : Z) (r : Renderer) : Renderer :=
  mkRenderer (canvasWidth r) (canvasHeight r) (gl r) (program r) (vao r)
    (isPlaying r) (startTime r) v (lastFrameTime r) (frameCount r)
    (animationId r) (mouse r) (isMouseDown r) (eventListeners r).
Definition set_lastFrameTime (v : Z) (r : Renderer) : Renderer :=
  mkRenderer (canvasWidth r) (canvasHeight r) (gl r) (program r) (vao r)
    (isPlaying r) (startTime r) (pausedTime r) v (frameCount r)
    (animationId r) (mouse r) (isMouseDown r) (eventListeners r).
Definition set_frameCount (v : Z) (r : Renderer) : Renderer :=
  mkRenderer (canvasWidth r) (canvasHeight r) (gl r) (program r) (vao r)
    (isPlaying r) (startTime r) (pausedTime r) (lastFrameTime r) v
    (animationId r) (mouse r) (isMouseDown r) (eventListeners r).
Definition set_animationId (v : option nat) (r : Renderer) : Renderer :=
  mkRenderer (canvasWidth r) (canvasHeight r) (gl r) (program r) (vao r)
    (isPlaying r) (startTime r) (pausedTime r) (lastFrameTime r)
    (frameCount r) v (mouse r) (isMouseDown r) (eventListeners r).
Definition set_mouse (v : Mouse) (r : Renderer) : Renderer :=
  mkRenderer (canvasWidth r) (canvasHeight r) (gl r) (program r) (vao r)
    (isPlaying r) (startTime r) (pausedTime r) (lastFrameTime r)
    (frameCount r) (animationId r) v (isMouseDown r) (eventListeners r).
Definition set_isMouseDown (v : bool) (r : Renderer) : Renderer :=
  mkRenderer (canvasWidth r) (canvasHeight r) (gl r) (program r) (vao r)
    (isPlaying r) (startTime r) (pausedTime r) (lastFrameTime r)
    (frameCount r) (animationId r) (mouse r) v (eventListeners r).
Definition set_eventListeners (v : list Listener) (r : Renderer) : Renderer :=
  mkRenderer (canvasWidth r) (canvasHeight r) (gl r) (program r) (vao r)
    (isPlaying r) (startTime r) (pausedTime r) (lastFrameTime r)
    (frameCount r) (animationId r) (mouse r) (isMouseDown r) v.

Inductive ShaderType := VERTEX | FRAGMENT.

(** The GL commands the class issues, as they appear in the command log. *)
Inductive GLCall :=
| ShaderSource (sh : Handle) (src : string)
| CompileShader (sh : Handle)
| DeleteShader (sh : Handle)
| AttachShader (p sh : Handle)
| LinkProgram (p : Handle)
| DeleteProgram (p : Handle)
| UseProgram (p : Handle)
| BindVertexArray (v : option Handle)
| Uniform1f (p : Handle) (name : string) (x : Q)
| Uniform1i (p : Handle) (name : string) (x : Z)
| Uniform3f (p : Handle) (name : string) (x y z : Q)
| Uniform4f (p : Handle) (name : string) (x y z w : Q)
| DrawArrays_TRIANGLE_STRIP (first count : Z)
| Viewport (x y w h : Z).

(** The fields [new Date()] is asked for. *)
Record JsDate := mkJsDate {
  getFullYear : Z; getMonth : Z; getDate : Z;
  getHours : Z; getMinutes : Z; getSeconds : Z; getMilliseconds : Z
}.

Inductive ConsoleEntry :=
| console_error (label : string) (text : option string).

(** The host: oracles for what the renderer asks of its environment
    (first block), and what the renderer did to it (second block). *)
Record Host := mkHost {
  clock : nat -> Z;                     (* k-th answer of performance.now() *)
  dates : nat -> JsDate;                (* k-th answer of new Date() *)
  createOk : Handle -> bool;            (* does creating object h succeed *)
  shaderStatus : Handle -> bool;        (* COMPILE_STATUS of shader h *)
  shaderInfoLog : Handle -> option string;
  programStatus : Handle -> bool;       (* LINK_STATUS of program h *)
  programInfoLog : Handle -> option string;

  clockReads : nat;
  dateReads : nat;
  nextHandle : Handle;
  liveShaders : list Handle;
  livePrograms : list Handle;
  rafNext : nat;
  rafPending : list nat;
  glLog : list GLCall;
  consoleLog : list ConsoleEntry;
  delivered : list (Listener * RendererEvent)
}.

Definition set_clockReads (v : nat) (h : Host) : Host :=
  mkHost (clock h) (dates h) (createOk h) (shaderStatus h) (shaderInfoLog h)
    (programStatus h) (programInfoLog h) v (dateReads h) (nextHandle h)
    (liveShaders h) (livePrograms h) (rafNext h) (rafPending h) (glLog h)
    (consoleLog h) (delivered h).
Definition set_dateReads (v : nat) (h : Host) : Host :=
  mkHost (clock h) (dates h) (createOk h) (shaderStatus h) (shaderInfoLog h)
    (programStatus h) (programInfoLog h) (clockReads h) v (nextHandle h)
    (liveShaders h) (livePrograms h) (rafNext h) (rafPending h) (glLog h)
    (consoleLog h) (delivered h).
Definition set_nextHandle (v : Handle) (h : Host) : Host :=
  mkHost (clock h) (dates h) (createOk h) (shaderStatus h) (shaderInfoLog h)
    (programStatus h) (programInfoLog h) (clockReads h) (dateReads h) v
    (liveShaders h) (livePrograms h) (rafNext h) (rafPending h) (glLog h)
    (consoleLog h) (delivered h).
Definition set_liveShaders (v : list Handle) (h : Host) : Host :=
  mkHost (clock h) (dates h) (createOk h) (shaderStatus h) (shaderInfoLog h)
    (programStatus h) (programInfoLog h) (clockReads h) (dateReads h)
    (nextHandle h) v (livePrograms h) (rafNext h) (rafPending h) (glLog h)
    (consoleLog h) (delivered h).
Definition set_livePrograms (v : list Handle) (h : Host) : Host :=
  mkHost (clock h) (dates h) (createOk h) (shaderStatus h) (shaderInfoLog h)
    (programStatus h) (programInfoLog h) (clockReads h) (dateReads h)
    (nextHandle h) (liveShaders h) v (rafNext h) (rafPending h) (glLog h)
    (consoleLog h) (delivered h).
Definition set_rafNext (v : nat) (h : Host) : Host :=
  mkHost (clock h) (dates h) (createOk h) (shaderStatus h) (shaderInfoLog h)
    (programStatus h) (programInfoLog h) (clockReads h) (dateReads h)
    (nextHandle h) (liveShaders h) (livePrograms h) v (rafPending h) (glLog h)
    (consoleLog h) (delivered h).
Definition set_rafPending (v : list nat) (h : Host) : Host :=
  mkHost (clock h) (dates h) (createOk h) (shaderStatus h) (shaderInfoLog h)
    (programStatus h) (programInfoLog h) (clockReads h) (dateReads h)
    (nextHandle h) (liveShaders h) (livePrograms h) (rafNext h) v (glLog h)
    (consoleLog h) (delivered h).
Definition set_glLog (v : list GLCall) (h : Host) : Host :=
  mkHost (clock h) (dates h) (createOk h) (shaderStatus h) (shaderInfoLog h)
    (programStatus h) (programInfoLog h) (clockReads h) (dateReads h)
    (nextHandle h) (liveShaders h) (livePrograms h) (rafNext h) (rafPending h)
    v (consoleLog h) (delivered h).
Definition set_consoleLog (v : list ConsoleEntry) (h : Host) : Host :=
  mkHost (clock h) (dates h) (createOk h) (shaderStatus h) (shaderInfoLog h)
    (programStatus h) (programInfoLog h) (clockReads h) (dateReads h)
    (nextHandle h) (liveShaders h) (livePrograms h) (rafNext h) (rafPending h)
    (glLog h) v (delivered h).
Definition set_delivered (v : list (Listener * RendererEvent)) (h : Host)
  : Host :=
  mkHost (clock h) (dates h) (createOk h) (shaderStatus h) (shaderInfoLog h)
    (programStatus h) (programInfoLog h) (clockReads h) (dateReads h)
    (nextHandle h) (liveShaders h) (livePrograms h) (rafNext h) (rafPending h)
    (glLog h) (consoleLog h) v.

Record World := mkWorld { this : Renderer; host : Host }.

(** ** The state monad of the methods *)

Definition M (A : Type) : Type := World -> A * World.

Definition ret {A} (a : A) : M A := fun w => (a, w).
Definition bind {A B} (c : M A) (f : A -> M B) : M B :=
  fun w => let (a, w') := c w in f a w'.

Declare Scope method_scope.
Delimit Scope method_scope with method.
Notation "x <- c ;; k" := (bind c (fun x => k))
  (at level 61, c at next level, right associativity) : method_scope.
Notation "c ;; k" := (bind c (fun _ => k))
  (at level 61, right associativity) : method_scope.
Local Open Scope method_scope.

Definition run {A} (c : M A) (w : World) : A * World := c w.
Definition exec {A} (c : M A) (w : World) : World := snd (c w).
Definition eval {A} (c : M A) (w : World) : A := fst (c w).

(** Read a field of [this]; write [this]; act on the host. *)
Definition field {A} (f : Renderer -> A) : M A := fun w => (f (this w), w).
Definition assign (f : Renderer -> Renderer) : M unit :=
  fun w => (tt, mkWorld (f (this w)) (host w)).
Definition ask {A} (f : Host -> A) : M A := fun w => (f (host w), w).
Definition effect (f : Host -> Host) : M unit :=
  fun w => (tt, mkWorld (this w) (f (host w))).

Fixpoint forEach {A} (l : list A) (body : A -> M unit) : M unit :=
  match l with
  | [] => ret tt
  | x :: xs => body x ;; forEach xs body
  end.

(** ** Host services *)

Definition remove_handle (h : nat) (l : list nat) : list nat :=
  filter (fun x => negb (Nat.eqb x h)) l.

Definition performance_now : M Z :=
  k <- ask clockReads ;;
  effect (set_clockReads (S k)) ;;
  ask (fun h => clock h k).

Definition new_Date : M JsDate :=
  k <- ask dateReads ;;
  effect (set_dateReads (S k)) ;;
  ask (fun h => dates h k).

Definition gl_call (c : GLCall) : M unit :=
  effect (fun h => set_glLog (glLog h ++ [c]) h).

(** [gl.createShader] and [gl.createProgram]: a fresh handle, or null. *)
Definition fresh_handle : M (option Handle) :=
  n <- ask nextHandle ;;
  effect (set_nextHandle (S n)) ;;
  ok <- ask (fun h => createOk h n) ;;
  ret (if ok then Some n else None).

Definition createShader (ty : ShaderType) : M (option Handle) :=
  r <- fresh_handle ;;
  match r with
  | Some n => effect (fun h => set_liveShaders (n :: liveShaders h) h) ;; ret r
  | None => ret r
  end.

Definition createProgram : M (option Handle) :=
  r <- fresh_handle ;;
  match r with
  | Some n => effect (fun h => set_livePrograms (n :: livePrograms h) h) ;; ret r
  | None => ret r
  end.

Definition deleteShader (sh : Handle) : M unit :=
  gl_call (DeleteShader sh) ;;
  effect (fun h => set_liveShaders (remove_handle sh (liveShaders h)) h).

Definition deleteProgram (p : Handle) : M unit :=
  gl_call (DeleteProgram p) ;;
  effect (fun h => set_livePrograms (remove_handle p (livePrograms h)) h).

Definition console (e : ConsoleEntry) : M unit :=
  effect (fun h => set_consoleLog (consoleLog h ++ [e]) h).

Definition requestAnimationFrame : M nat :=
  id <- ask rafNext ;;
  effect (set_rafNext (S id)) ;;
  effect (fun h => set_rafPending (rafPending h ++ [id]) h) ;;
  ret id.

Definition cancelAnimationFrame (id : nat) : M unit :=
  effect (fun h => set_rafPending (remove_handle id (rafPending h)) h).

(** Calling one listener: the call is recorded, nothing else changes. *)
Definition call_listener (l : Listener) (ev : RendererEvent) : M unit :=
  effect (fun h => set_delivered (delivered h ++ [(l, ev)]) h).

(** ** Event channel *)

Definition on (listener : Listener) : M unit :=
  assign (fun r => set_eventListeners (eventListeners r ++ [listener]) r).

(** [splice(indexOf(listener), 1)]: drop the first occurrence, if any. *)
Fixpoint remove_first (x : Listener) (l : list Listener) : list Listener :=
  match l with
  | [] => []
  | y :: ys => if Nat.eqb y x then ys else y :: remove_first x ys
  end.

Definition off (listener : Listener) : M unit :=
  assign (fun r => set_eventListeners (remove_first listener (eventListeners r)) r).

Definition emit (event : RendererEvent) : M unit :=
  ls <- field eventListeners ;;
  forEach ls (fun listener => call_listener listener event).

(** ** Pointer tracking (setupMouseEvents) *)

Record MouseEvent := mkMouseEvent { clientX : Z; clientY : Z }.

(** What [canvas.getBoundingClientRect()] answers when the event arrives. *)
Record DOMRect := mkDOMRect { left : Z; top : Z; height : Z }.

Definition surfaceX (e : MouseEvent) (rect : DOMRect) : Z :=
  clientX e - left rect.
Definition surfaceY (e : MouseEvent) (rect : DOMRect) : Z :=
  height rect - (clientY e - top rect).

Definition on_mousedown (e : MouseEvent) (rect : DOMRect) : M unit :=
  assign (set_isMouseDown true) ;;
  let x := surfaceX e rect in
  let y := surfaceY e rect in
  assign (set_mouse (mkMouse x y x y)).

Definition on_mousemove (e : MouseEvent) (rect : DOMRect) : M unit :=
  down <- field isMouseDown ;;
  if down then
    let x := surfaceX e rect in
    let y := surfaceY e rect in
    assign (fun r => set_mouse (mkMouse x (m1 (mouse r)) (m2 (mouse r)) (m3 (mouse r))) r) ;;
    assign (fun r => set_mouse (mkMouse (m0 (mouse r)) y (m2 (mouse r)) (m3 (mouse r))) r)
  else ret tt.

Definition on_mouseup : M unit :=
  assign (set_isMouseDown false) ;;
  assign (fun r => set_mouse (mkMouse (m0 (mouse r)) (m1 (mouse r))
                                (- Z.abs (m2 (mouse r))) (m3 (mouse r))) r) ;;
  assign (fun r => set_mouse (mkMouse (m0 (mouse r)) (m1 (mouse r))
                                (m2 (mouse r)) (- Z.abs (m3 (mouse r)))) r).

Definition on_mouseleave : M unit :=
  assign (set_isMouseDown false).

(** ** Compilation *)

Definition orEmpty (s : option string) : string :=
  match s with
  | Some t => t
  | None => EmptyString
  end.

Definition compile (shaderCode : string) : M bool :=
  g <- field gl ;;
  if negb g then ret false else
  vs <- createShader VERTEX ;;
  match vs with
  | None => ret false
  | Some vs =>
    gl_call (ShaderSource vs VERTEX_SHADER) ;;
    gl_call (CompileShader vs) ;;
    vs_ok <- ask (fun h => shaderStatus h vs) ;;
    if negb vs_ok then
      error <- ask (fun h => shaderInfoLog h vs) ;;
      console (console_error "Vertex shader error:" error) ;;
      deleteShader vs ;;
      ret false
    else
    fs <- createShader FRAGMENT ;;
    match fs with
    | None => deleteShader vs ;; ret false
    | Some fs =>
      let fragmentSource := createFragmentShader shaderCode in
      gl_call (ShaderSource fs fragmentSource) ;;
      gl_call (CompileShader fs) ;;
      fs_ok <- ask (fun h => shaderStatus h fs) ;;
      if negb fs_ok then
        error <- ask (fun h => orEmpty (shaderInfoLog h fs)) ;;
        let errors := parseErrors error in
        emit (mkRendererEvent compile_error (Some errors) None) ;;
        deleteShader vs ;;
        deleteShader fs ;;
        ret false
      else
      program' <- createProgram ;;
      match program' with
      | None => deleteShader vs ;; deleteShader fs ;; ret false
      | Some program' =>
        gl_call (AttachShader program' vs) ;;
        gl_call (AttachShader program' fs) ;;
        gl_call (LinkProgram program') ;;
        linked <- ask (fun h => programStatus h program') ;;
        if negb linked then
          error <- ask (fun h => orEmpty (programInfoLog h program')) ;;
          console (console_error "Link error:" (Some error)) ;;
          deleteProgram program' ;;
          deleteShader vs ;;
          deleteShader fs ;;
          ret false
        else
        old <- field program ;;
        match old with
        | Some p => deleteProgram p
        | None => ret tt
        end ;;
        assign (set_program (Some program')) ;;
        deleteShader vs ;;
        deleteShader fs ;;
        emit (mkRendererEvent compile_success None None) ;;
        ret true
      end
    end
  end.

(** ** Sizes

    The arguments of [resize] are numbers, here exact rationals (NaN and
    the infinities are outside the model).  [canvas.width] and
    [canvas.height] are [unsigned long] attributes that reflect a
    content attribute: the number assigned is truncated towards zero
    and reduced modulo 2^32, and a result above 2147483647 is replaced
    by the attribute's default, 300 for the width and 150 for the
    height.  The parameters of [gl.viewport] are [long]: truncated and
    reduced modulo 2^32 into the signed range. *)

Definition truncate (x : Q) : Z := Z.quot (Qnum x) (Zpos (Qden x)).

Definition toUint32 (x : Q) : Z := ((truncate x) mod 4294967296)%Z.

Definition toInt32 (x : Q) : Z :=
  let u := toUint32 x in
  if (u <? 2147483648)%Z then u else (u - 4294967296)%Z.

Definition canvasSize (default : Z) (x : Q) : Z :=
  let u := toUint32 x in
  if (u <=? 2147483647)%Z then u else default.

Arguments truncate : simpl never.
Arguments toUint32 : simpl never.
Arguments toInt32 : simpl never.
Arguments canvasSize : simpl never.

Definition resize (width height : Q) : M unit :=
  assign (set_canvas (canvasSize 300 width) (canvasSize 150 height)) ;;
  g <- field gl ;;
  if g then gl_call (Viewport 0 0 (toInt32 width) (toInt32 height))
  else ret tt.

(** ** Frame clock and uniform feed *)

Local Open Scope Q_scope.

Definition seconds (ms : Z) : Q := inject_Z ms / 1000.

Definition Qpositive (q : Q) : bool := negb (Qle_bool q 0).

Definition renderFrame : M unit :=
  g <- field gl ;;
  prog <- field program ;;
  match g, prog with
  | true, Some p =>
    now <- performance_now ;;
    t0 <- field startTime ;;
    last <- field lastFrameTime ;;
    let time := seconds (now - t0) in
    let timeDelta := seconds (now - last) in
    let fps := if Qpositive timeDelta then 1 / timeDelta else 60 in
    assign (set_lastFrameTime now) ;;
    date <- new_Date ;;
    let dateSeconds :=
      inject_Z (getHours date * 3600 + getMinutes date * 60 + getSeconds date)
      + inject_Z (getMilliseconds date) / 1000 in
    gl_call (UseProgram p) ;;
    v <- field vao ;;
    gl_call (BindVertexArray v) ;;
    w <- field canvasWidth ;;
    h <- field canvasHeight ;;
    n <- field frameCount ;;
    ms <- field mouse ;;
    gl_call (Uniform3f p "iResolution" (inject_Z w) (inject_Z h) 1) ;;
    gl_call (Uniform1f p "iTime" time) ;;
    gl_call (Uniform1f p "iTimeDelta" timeDelta) ;;
    gl_call (Uniform1i p "iFrame" n) ;;
    gl_call (Uniform1f p "iFrameRate" fps) ;;
    gl_call (Uniform4f p "iMouse" (inject_Z (m0 ms)) (inject_Z (m1 ms))
               (inject_Z (m2 ms)) (inject_Z (m3 ms))) ;;
    gl_call (Uniform4f p "iDate" (inject_Z (getFullYear date))
               (inject_Z (getMonth date)) (inject_Z (getDate date)) dateSeconds) ;;
    gl_call (DrawArrays_TRIANGLE_STRIP 0 4) ;;
    assign (fun r => set_frameCount (frameCount r + 1)%Z r) ;;
    playing <- field isPlaying ;;
    n' <- field frameCount ;;
    emit (mkRendererEvent frame None
            (Some (mkRendererState playing time n' fps)))
  | _, _ => ret tt
  end.

Definition render : M unit :=
  playing <- field isPlaying ;;
  if negb playing then ret tt else
  renderFrame ;;
  id <- requestAnimationFrame ;;
  assign (set_animationId (Some id)).

Definition play : M unit :=
  playing <- field isPlaying ;;
  if playing then ret tt else
  assign (set_isPlaying true) ;;
  paused <- field pausedTime ;;
  (if (paused >? 0)%Z then
     now <- performance_now ;;
     assign (fun r => set_startTime (now - pausedTime r)%Z r)
   else
     now <- performance_now ;;
     assign (set_startTime now)) ;;
  now <- performance_now ;;
  assign (set_lastFrameTime now) ;;
  render.

Definition pause : M unit :=
  assign (set_isPlaying false) ;;
  now <- performance_now ;;
  assign (fun r => set_pausedTime (now - startTime r)%Z r) ;;
  id <- field animationId ;;
  match id with
  | Some i => cancelAnimationFrame i ;; assign (set_animationId None)
  | None => ret tt
  end.

Definition restart : M unit :=
  now <- performance_now ;;
  assign (set_startTime now) ;;
  assign (set_pausedTime 0%Z) ;;
  assign (set_frameCount 0%Z) ;;
  now <- performance_now ;;
  assign (set_lastFrameTime now) ;;
  playing <- field isPlaying ;;
  if negb playing then renderFrame else ret tt.

Definition getState : M RendererState :=
  playing <- field isPlaying ;;
  time <- (if playing then
             now <- performance_now ;;
             t0 <- field startTime ;;
             ret (seconds (now - t0))
           else
             paused <- field pausedTime ;;
             ret (seconds paused)) ;;
  n <- field frameCount ;;
  ret (mkRendererState playing time n 0).

Definition dispose : M unit :=
  pause ;;
  g <- field gl ;;
  prog <- field program ;;
  match g, prog with
  | true, Some p => deleteProgram p
  | _, _ => ret tt
  end.

(** The host runs a scheduled animation-frame callback: a pending request
    is consumed and [render] is called; a cancelled or unknown request
    does nothing. *)
Definition animationFrame (id : nat) : M unit :=
  pending <- ask rafPending ;;
  if existsb (Nat.eqb id) pending then
    effect (fun h => set_rafPending (remove_handle id (rafPending h)) h) ;;
    render
  else ret tt.

Local Close Scope Q_scope.

(** ** Sample host and fresh renderer *)

(** The renderer as the constructor leaves it (the context was obtained;
    the constructor throws otherwise). *)
Definition new_WebGLRenderer (width height : Z) (v : option Handle) : Renderer :=
  mkRenderer width height true None v false 0 0 0 0 None (mkMouse 0 0 0 0)
    false [].

(** A host whose driver accepts everything, with the given clock. *)
Definition quiet_host (clk : nat -> Z) : Host :=
  mkHost clk (fun _ => mkJsDate 2026 0 1 12 0 0 0) (fun _ => true)
    (fun _ => true) (fun _ => None) (fun _ => true) (fun _ => None)
    0 0 1 [] [] 1 [] [] [] [].

Definition fresh_world (clk : nat -> Z) : World :=
  mkWorld (new_WebGLRenderer 640 360 (Some 0%nat)) (quiet_host clk).

(** The reading the next call of [performance.now()] returns. *)
Definition next_now (w : World) : Z := clock (host w) (clockReads (host w)).

(** Number of draw calls in a GL command log. *)
Definition is_draw (c : GLCall) : bool :=
  match c with
  | DrawArrays_TRIANGLE_STRIP _ _ => true
  | _ => false
  end.

Definition draws (w : World) : nat := List.length (filter is_draw (glLog (host w))).

(** ** Vocabulary of the statements

    Closed forms of what the methods do, the transition system of the
    timeline, and the shape of well-formed diagnostics. *)

(** The surface position of the last of a series of moves, or of the press
    when the pointer has not moved. *)
Definition last_position (press : MouseEvent * DOMRect)
  (moves : list (MouseEvent * DOMRect)) : Z * Z :=
  let p := last moves press in
  (surfaceX (fst p) (snd p), surfaceY (fst p) (snd p)).

Definition drag (moves : list (MouseEvent * DOMRect)) : M unit :=
  forEach moves (fun m => on_mousemove (fst m) (snd m)).

(** The listeners a stretch of the delivery log was handed to, in order. *)
Definition invoked (log : list (Listener * RendererEvent)) : list Listener :=
  map fst log.

Local Open Scope Q_scope.

(** The frame rate the renderer measures for a frame. *)
Definition frame_fps (w : World) : Q :=
  let timeDelta := seconds (next_now w - lastFrameTime (this w)) in
  if Qpositive timeDelta then 1 / timeDelta else 60.

Definition frame_snapshot (w : World) : RendererState :=
  mkRendererState (isPlaying (this w))
    (seconds (next_now w - startTime (this w)))
    (frameCount (this w) + 1)%Z (frame_fps w).

(** The commands of one frame, for program [p]. *)
Definition frame_commands (w : World) (p : Handle) : list GLCall :=
  let date := dates (host w) (dateReads (host w)) in
  let ms := mouse (this w) in
  [ UseProgram p;
    BindVertexArray (vao (this w));
    Uniform3f p "iResolution" (inject_Z (canvasWidth (this w)))
      (inject_Z (canvasHeight (this w))) 1;
    Uniform1f p "iTime" (seconds (next_now w - startTime (this w)));
    Uniform1f p "iTimeDelta" (seconds (next_now w - lastFrameTime (this w)));
    Uniform1i p "iFrame" (frameCount (this w));
    Uniform1f p "iFrameRate" (frame_fps w);
    Uniform4f p "iMouse" (inject_Z (m0 ms)) (inject_Z (m1 ms))
      (inject_Z (m2 ms)) (inject_Z (m3 ms));
    Uniform4f p "iDate" (inject_Z (getFullYear date)) (inject_Z (getMonth date))
      (inject_Z (getDate date))
      (inject_Z (getHours date * 3600 + getMinutes date * 60 + getSeconds date)
       + inject_Z (getMilliseconds date) / 1000);
    DrawArrays_TRIANGLE_STRIP 0 4 ].

(** What one executed [renderFrame] does to the world. *)
Definition after_frame (w : World) (p : Handle) : World :=
  mkWorld
    (set_frameCount (frameCount (this w) + 1)%Z
       (set_lastFrameTime (next_now w) (this w)))
    (set_delivered
       (delivered (host w)
        ++ map (fun l => (l, mkRendererEvent frame None (Some (frame_snapshot w))))
             (eventListeners (this w)))
       (set_glLog (glLog (host w) ++ frame_commands w p)
          (set_dateReads (S (dateReads (host w)))
             (set_clockReads (S (clockReads (host w))) (host w))))).

Local Close Scope Q_scope.

(** [renderFrame]: a frame when there is a context and a program. *)
Definition rendered (w : World) : World :=
  match gl (this w), program (this w) with
  | true, Some p => after_frame w p
  | _, _ => w
  end.

(** The tail of [render]: request the next animation frame, keep its id. *)
Definition scheduled (w : World) : World :=
  let id := rafNext (host w) in
  mkWorld (set_animationId (Some id) (this w))
          (set_rafPending (rafPending (host w) ++ [id])
             (set_rafNext (S id) (host w))).

(** The assignments of [play] before it calls [render]. *)
Definition play_clock (w : World) : World :=
  let k := clockReads (host w) in
  let now := clock (host w) k in
  let start := if (pausedTime (this w) >? 0)%Z
               then (now - pausedTime (this w))%Z else now in
  mkWorld (set_lastFrameTime (clock (host w) (S k))
             (set_startTime start (set_isPlaying true (this w))))
          (set_clockReads (S (S k)) (host w)).

Definition paused (w : World) : World :=
  let now := next_now w in
  let r := set_pausedTime (now - startTime (this w))
             (set_isPlaying false (this w)) in
  let h := set_clockReads (S (clockReads (host w))) (host w) in
  match animationId (this w) with
  | Some i => mkWorld (set_animationId None r)
                (set_rafPending (remove_handle i (rafPending h)) h)
  | None => mkWorld r h
  end.

(** The assignments of [restart] before its conditional frame. *)
Definition restart_clock (w : World) : World :=
  let k := clockReads (host w) in
  mkWorld (set_lastFrameTime (clock (host w) (S k))
             (set_frameCount 0
                (set_pausedTime 0 (set_startTime (clock (host w) k) (this w)))))
          (set_clockReads (S (S k)) (host w)).

(** A clock given by its first readings (0 afterwards). *)
Definition readings (l : list Z) : nat -> Z := fun k => nth k l 0%Z.

(** The driver's answers along one call of [compile]: the vertex shader
    gets the next handle [n], the fragment shader [n+1], the program
    [n+2]. *)
Definition vertex_ok (w : World) : bool :=
  let n := nextHandle (host w) in
  (gl (this w) && createOk (host w) n && shaderStatus (host w) n)%bool.

Definition fragment_ok (w : World) : bool :=
  let n := nextHandle (host w) in
  (createOk (host w) (S n) && shaderStatus (host w) (S n))%bool.

Definition link_ok (w : World) : bool :=
  let n := nextHandle (host w) in
  (createOk (host w) (S (S n)) && programStatus (host w) (S (S n)))%bool.

(** [wp c Q w]: run in [w], the method [c] ends with an answer and a
    world that satisfy [Q]. *)
Definition wp {A} (c : M A) (Q : A -> World -> Prop) (w : World) : Prop :=
  Q (fst (c w)) (snd (c w)).

(** The live programs after [compile], by outcome. *)
Definition programs_after (w : World) : list Handle :=
  let n := nextHandle (host w) in
  let live := livePrograms (host w) in
  if (vertex_ok w && fragment_ok w)%bool then
    if createOk (host w) (S (S n)) then
      if programStatus (host w) (S (S n)) then
        match program (this w) with
        | Some p => remove_handle p (S (S n) :: live)
        | None => S (S n) :: live
        end
      else remove_handle (S (S n)) (S (S n) :: live)
    else live
  else live.

(** What the listeners have been told after [compile]: the translated
    diagnostics when the fragment shader is rejected, success when the
    program is linked, nothing on the other failures. *)
Definition events_after (w : World) : list (Listener * RendererEvent) :=
  let n := nextHandle (host w) in
  let tell ev := (delivered (host w)
                  ++ map (fun l => (l, ev)) (eventListeners (this w)))%list in
  if (vertex_ok w && createOk (host w) (S n))%bool then
    if shaderStatus (host w) (S n) then
      if link_ok w then tell (mkRendererEvent compile_success None None)
      else delivered (host w)
    else
      tell (mkRendererEvent compile_error
              (Some (parseErrors (orEmpty (shaderInfoLog (host w) (S n)))))
              None)
  else delivered (host w).

Definition compile_post (src : string) (w : World) (a : bool) (w' : World)
  : Prop :=
  a = (vertex_ok w && fragment_ok w && link_ok w)%bool /\
  program (this w') =
    (if a then Some (S (S (nextHandle (host w)))) else program (this w)) /\
  set_program None (this w') = set_program None (this w) /\
  filter is_draw (glLog (host w')) = filter is_draw (glLog (host w)) /\
  livePrograms (host w') = programs_after w /\
  (nextHandle (host w) <= nextHandle (host w'))%nat /\
  delivered (host w') = events_after w.

(** Does [renderFrame] draw in this world. *)
Definition renders (w : World) : bool :=
  match gl (this w), program (this w) with
  | true, Some _ => true
  | _, _ => false
  end.

Inductive Op :=
| OpPlay
| OpPause
| OpRestart
| OpFrame (id : nat)          (* the host runs an animation-frame callback *)
| OpCompile (src : string).

Definition step (op : Op) : M unit :=
  match op with
  | OpPlay => play
  | OpPause => pause
  | OpRestart => restart
  | OpFrame id => animationFrame id
  | OpCompile src => compile src ;; ret tt
  end.

Local Open Scope string_scope.

(** Decimal numeral of a natural number, as a compiler prints it. *)
Definition decimal (n : N) : string :=
  DecimalString.NilEmpty.string_of_uint (N.to_uint n).

(** A diagnostic line as the driver writes it. *)
Definition diagnostic (id n : N) (msg : string) : string :=
  "ERROR: " ++ decimal id ++ ":" ++ decimal n ++ ": " ++ msg.

Fixpoint all_chars (c : ascii -> bool) (s : string) : bool :=
  match s with
  | String a s' => (c a && all_chars c s')%bool
  | EmptyString => true
  end.

(** A message the pattern captures whole: it starts with a visible
    character and has no line terminator. *)
Definition plain_message (msg : string) : bool :=
  match msg with
  | String a _ => (negb (Js.isSpace a) && all_chars Js.isDot msg)%bool
  | EmptyString => false
  end.

(** Horner value of a decimal numeral. *)
Fixpoint uint_value (acc : Z) (d : Decimal.uint) : Z :=
  match d with
  | Decimal.Nil => acc
  | Decimal.D0 l => uint_value (10 * acc + 0) l
  | Decimal.D1 l => uint_value (10 * acc + 1) l
  | Decimal.D2 l => uint_value (10 * acc + 2) l
  | Decimal.D3 l => uint_value (10 * acc + 3) l
  | Decimal.D4 l => uint_value (10 * acc + 4) l
  | Decimal.D5 l => uint_value (10 * acc + 5) l
  | Decimal.D6 l => uint_value (10 * acc + 6) l
  | Decimal.D7 l => uint_value (10 * acc + 7) l
  | Decimal.D8 l => uint_value (10 * acc + 8) l
  | Decimal.D9 l => uint_value (10 * acc + 9) l
  end.

Definition notLF (a : ascii) : bool := negb (Ascii.eqb a Js.LF).

Local Close Scope string_scope.

(** A host that rejects the shader with handle 5 and accepts the rest. *)
Definition picky_host : Host :=
  mkHost (fun _ => 0%Z) (fun _ => mkJsDate 2026 0 1 12 0 0 0) (fun _ => true)
    (fun h => negb (Nat.eqb h 5)) (fun _ => Some "ERROR: 0:23: 'x' : undeclared identifier"%string)
    (fun _ => true) (fun _ => None)
    0 0 1 [] [] 1 [] [] [] [].

(** ** Everything that drives the renderer

    The public methods, the pointer handlers installed on the canvas and
    the animation-frame callback the host runs. *)

Inductive Action :=
| APlay
| APause
| ARestart
| ADispose
| ACompile (src : string)
| AResize (width height : Q)
| AGetState
| AOn (l : Listener)
| AOff (l : Listener)
| AFrame (id : nat)
| AMouseDown (e : MouseEvent) (rect : DOMRect)
| AMouseMove (e : MouseEvent) (rect : DOMRect)
| AMouseUp
| AMouseLeave.

Definition act (a : Action) : M unit :=
  match a with
  | APlay => play
  | APause => pause
  | ARestart => restart
  | ADispose => dispose
  | ACompile src => compile src ;; ret tt
  | AResize width height => resize width height
  | AGetState => getState ;; ret tt
  | AOn l => on l
  | AOff l => off l
  | AFrame id => animationFrame id
  | AMouseDown e rect => on_mousedown e rect
  | AMouseMove e rect => on_mousemove e rect
  | AMouseUp => on_mouseup
  | AMouseLeave => on_mouseleave
  end.

Definition run_actions (l : list Action) : M unit := forEach l act.

Definition is_restart (a : Action) : bool :=
  match a with
  | ARestart => true
  | _ => false
  end.

(** The frame loop is in order: while Playing exactly one animation
    frame is requested and [animationId] names it; while Paused none
    is. *)
Definition loop_ok (w : World) : Prop :=
  if isPlaying (this w)
  then exists id, animationId (this w) = Some id /\ rafPending (host w) = [id]
  else rafPending (host w) = [].

(** GL objects are in order: no shader object is alive, at most one
    program is, and then it is the active one; the active handle was
    handed out by the context. *)
Definition resources_ok (w : World) : Prop :=
  liveShaders (host w) = [] /\
  (livePrograms (host w) = [] \/
   exists p, program (this w) = Some p /\ livePrograms (host w) = [p]) /\
  (forall p, program (this w) = Some p -> (p < nextHandle (host w))%nat).

(** The live shaders after [compile], by outcome. *)
Definition shaders_after (w : World) : list Handle :=
  let n := nextHandle (host w) in
  let live := liveShaders (host w) in
  if (gl (this w) && createOk (host w) n)%bool then
    if (shaderStatus (host w) n && createOk (host w) (S n))%bool then
      remove_handle (S n) (remove_handle n (S n :: n :: live))
    else remove_handle n (n :: live)
  else live.

(** What [compile] writes to the console, by outcome. *)
Definition console_after (w : World) : list ConsoleEntry :=
  let n := nextHandle (host w) in
  if (gl (this w) && createOk (host w) n)%bool then
    if shaderStatus (host w) n then
      if (fragment_ok w && createOk (host w) (S (S n))
          && negb (programStatus (host w) (S (S n))))%bool
      then consoleLog (host w)
           ++ [console_error "Link error:"
                 (Some (orEmpty (programInfoLog (host w) (S (S n)))))]
      else consoleLog (host w)
    else consoleLog (host w)
         ++ [console_error "Vertex shader error:" (shaderInfoLog (host w) n)]
  else consoleLog (host w).

(** What [compile] does to the host besides the program list and the
    deliveries. *)
Definition compile_host_post (w : World) (a : bool) (w' : World) : Prop :=
  liveShaders (host w') = shaders_after w /\
  consoleLog (host w') = console_after w /\
  rafPending (host w') = rafPending (host w) /\
  rafNext (host w') = rafNext (host w) /\
  clockReads (host w') = clockReads (host w) /\
  dateReads (host w') = dateReads (host w) /\
  (a = true -> nextHandle (host w') = S (S (S (nextHandle (host w))))).

(** The part of the world the frame loop lives in, and the part the GL
    objects live in. *)
Definition loop_state (w : World) : bool * option nat * list nat :=
  (isPlaying (this w), animationId (this w), rafPending (host w)).

Definition objects (w : World)
  : list Handle * list Handle * option Handle * Handle :=
  (liveShaders (host w), livePrograms (host w), program (this w),
   nextHandle (host w)).

(** A host whose driver compiles every shader and links no program. *)
Definition unlinkable_host : Host :=
  mkHost (fun _ => 0%Z) (fun _ => mkJsDate 2026 0 1 12 0 0 0) (fun _ => true)
    (fun _ => true) (fun _ => None)
    (fun _ => false) (fun _ => Some "error: too many uniforms"%string)
    0 0 1 [] [] 1 [] [] [] [].

(** The last component of [iDate]: seconds since midnight. *)
Definition dateSeconds (date : JsDate) : Q :=
  (inject_Z (getHours date * 3600 + getMinutes date * 60 + getSeconds date)
   + inject_Z (getMilliseconds date) / 1000)%Q.

(** The ranges of the getters of a JavaScript [Date]. *)
Definition valid_time (date : JsDate) : Prop :=
  (0 <= getHours date < 24 /\ 0 <= getMinutes date < 60 /\
   0 <= getSeconds date < 60 /\ 0 <= getMilliseconds date < 1000)%Z.

(** ** Info logs of several lines *)

Local Open Scope string_scope.

(** A line of a driver's info log: a diagnostic, with or without a
    carriage return before the line feed, or any other text. *)
Inductive LogLine :=
| Diagnostic (id n : N) (msg : string) (cr : bool)
| Other (text : string).

(** Does [p] occur somewhere in [s]. *)
Fixpoint mentions (p s : string) : bool :=
  (String.prefix p s
   || match s with
      | String _ s' => mentions p s'
      | EmptyString => false
      end)%bool.

Definition line_text (l : LogLine) : string :=
  match l with
  | Diagnostic id n msg cr =>
      diagnostic id n msg ++ (if cr then String Js.CR "" else "")
  | Other text => text
  end.

Definition line_ok (l : LogLine) : bool :=
  match l with
  | Diagnostic _ _ msg _ => plain_message msg
  | Other text => (all_chars notLF text && negb (mentions "ERROR:" text))%bool
  end.

(** The records expected for a line. *)
Definition line_records (l : LogLine) : list CompilationError :=
  match l with
  | Diagnostic _ n msg _ =>
      [ {| line := Z.max 1 (Z.of_N n - 16); message := Js.trim msg |} ]
  | Other _ => []
  end.

(** [lines.join('\n')]. *)
Fixpoint join_lines (ls : list string) : string :=
  match ls with
  | [] => ""
  | l :: rest =>
      match rest with
      | [] => l
      | _ :: _ => l ++ String Js.LF (join_lines rest)
      end
  end.

(** A string without white space or line terminator at either end. *)
Definition trimmed (s : string) : Prop := Js.trim s = s.

Local Close Scope string_scope.

(** * The page (main.ts) *)

Module Main.

Local Open Scope Q_scope.

(** ** Canvas fitting *)

Definition aspectRatio : Q := 16 / 9.

Record CanvasSize := mkCanvasSize {
  cssWidth : Q;
  cssHeight : Q;
  pixelWidth : Q;
  pixelHeight : Q
}.

(** [resizeCanvas] for a container of the given size: the CSS size it
    gives the canvas and the size it hands to [renderer.resize]. *)
Definition resizeCanvas (rectWidth rectHeight devicePixelRatio : Q)
  : CanvasSize :=
  let width := rectWidth in
  let height := width / aspectRatio in
  let fitted :=
    if negb (Qle_bool height rectHeight)
    then (rectHeight * aspectRatio, rectHeight)
    else (width, height) in
  mkCanvasSize (fst fitted) (snd fitted)
    (fst fitted * devicePixelRatio) (snd fitted * devicePixelRatio).

Local Close Scope Q_scope.

(** ** Debounced compile

    The timer side of the page: [compileTimeout], the timeouts the
    window holds, and how often [compile] has run.  What [compile] does
    to the editor, the panel and the renderer is left out here. *)

Record Page := mkPage {
  compileTimeout : option nat;
  timerNext : nat;
  timers : list nat;
  compiles : nat
}.

(** Truthiness of a [number | null]. *)
Definition truthy (t : option nat) : bool :=
  match t with
  | Some (S _) => true
  | _ => false
  end.

Definition setTimeout (p : Page) : nat * Page :=
  (timerNext p,
   mkPage (compileTimeout p) (S (timerNext p)) (timers p ++ [timerNext p])
     (compiles p)).

Definition clearTimeout (t : option nat) (p : Page) : Page :=
  match t with
  | Some id =>
      mkPage (compileTimeout p) (timerNext p) (remove_handle id (timers p))
        (compiles p)
  | None => p
  end.

Definition compile (p : Page) : Page :=
  mkPage (compileTimeout p) (timerNext p) (timers p) (S (compiles p)).

Definition scheduleCompile (p : Page) : Page :=
  let p1 := if truthy (compileTimeout p)
            then clearTimeout (compileTimeout p) p else p in
  let (id, p2) := setTimeout p1 in
  mkPage (Some id) (timerNext p2) (timers p2) (compiles p2).

(** The window runs timeout [id], if it is still pending: the callback
    calls [compile]. *)
Definition timeout (id : nat) (p : Page) : Page :=
  if existsb (Nat.eqb id) (timers p)
  then compile (mkPage (compileTimeout p) (timerNext p)
                  (remove_handle id (timers p)) (compiles p))
  else p.

(** [if (compileTimeout) { clearTimeout(compileTimeout); compileTimeout
    = null; }] *)
Definition dropTimeout (p : Page) : Page :=
  if truthy (compileTimeout p)
  then let q := clearTimeout (compileTimeout p) p in
       mkPage None (timerNext q) (timers q) (compiles q)
  else p.

(** [onSelect], seen from the timers.  [hasShader] and [hasEditor] tell
    whether [currentShader] and [editorInstance] are set.  When both
    are, the current project is saved and the pending timeout dropped.
    When there is an editor, the code of the selected project is put
    into it with [setValue]; this runs the change handler [createEditor]
    installed, which calls [scheduleCompile].  Then [compile] is
    called. *)
Definition onSelect (hasShader hasEditor : bool) (p : Page) : Page :=
  let p1 := if (hasShader && hasEditor)%bool then dropTimeout p else p in
  let p2 := if hasEditor then scheduleCompile p1 else p1 in
  compile p2.

Inductive Event :=
| Edit                      (* the editor's onChange *)
| Timeout (id : nat)
| Select (hasShader hasEditor : bool)
| CompileButton.

Definition handle (e : Event) (p : Page) : Page :=
  match e with
  | Edit => scheduleCompile p
  | Timeout id => timeout id p
  | Select hasShader hasEditor => onSelect hasShader hasEditor p
  | CompileButton => compile p
  end.

Definition run_events (es : list Event) (p : Page) : Page :=
  fold_left (fun q e => handle e q) es p.

(** The page as [init] leaves it: no timeout yet, [compile] called
    once. *)
Definition initial : Page := mkPage None 1 [] 1.

End Main.

(** Timeout ids are positive, and the only pending timeout is the one
    [compileTimeout] names. *)
Definition page_ok (p : Main.Page) : Prop :=
  (1 <= Main.timerNext p)%nat /\
  (Main.timers p = [] \/
   exists id, Main.compileTimeout p = Some id /\ Main.timers p = [id] /\
              (1 <= id < Main.timerNext p)%nat).

Definition is_edit (e : Main.Event) : bool :=
  match e with
  | Main.Edit => true
  | _ => false
  end.

(** * The shader store (shader-manager.ts) *)

Local Open Scope string_scope.

Definition DEFAULT_SHADER : string :=
"// Shader Studio - Shadertoy Compatible
// Use iResolution, iTime, iMouse, etc.

void mainImage(out vec4 fragColor, in vec2 fragCoord) {
    // Normalized pixel coordinates (from 0 to 1)
    vec2 uv = fragCoord / iResolution.xy;
    
    // Time varying pixel color
    vec3 col = 0.5 + 0.5 * cos(iTime + uv.xyx + vec3(0, 2, 4));
    
    // Output to screen
    fragColor = vec4(col, 1.0);
}
".

Module ShaderManager.

Record ShaderFile := mkShaderFile { file_name : string; file_code : string }.

(** A stored project.  [code] is the own property of that name which
    the spread of [updates] in [updateShader] leaves on the object. *)
Record ShaderProject := mkShaderProject {
  id : string;
  name : string;
  files : list ShaderFile;
  createdAt : Z;
  updatedAt : Z;
  code : option string
}.

Record Updates := mkUpdates { u_name : option string; u_code : option string }.

(** The object store [shaders] with key path [id], and the readings of
    [Date.now()] and of
    [Math.random().toString(36).substring(2, 9)]. *)
Record Db := mkDb {
  shaders : list ShaderProject;
  now : nat -> Z;
  nowReads : nat;
  random : nat -> string;
  randomReads : nat
}.

Definition set_shaders (l : list ShaderProject) (d : Db) : Db :=
  mkDb l (now d) (nowReads d) (random d) (randomReads d).

Inductive Outcome := resolved | rejected (error : string).

Definition get (i : string) (l : list ShaderProject) : option ShaderProject :=
  find (fun s => String.eqb (id s) i) l.

Definition delete (i : string) (l : list ShaderProject) : list ShaderProject :=
  filter (fun s => negb (String.eqb (id s) i)) l.

Definition put (s : ShaderProject) (l : list ShaderProject)
  : list ShaderProject :=
  delete (id s) l ++ [s].

Definition Date_now (d : Db) : Z * Db :=
  (now d (nowReads d),
   mkDb (shaders d) (now d) (S (nowReads d)) (random d) (randomReads d)).

Definition generateId (d : Db) : string * Db :=
  let (t, d1) := Date_now d in
  ("shader_" ++ decimal (Z.to_N t) ++ "_" ++ random d1 (randomReads d1),
   mkDb (shaders d1) (now d1) (nowReads d1) (random d1) (S (randomReads d1))).

(** [code || DEFAULT_SHADER]. *)
Definition orDefault (c : option string) : string :=
  match c with
  | Some (String a s) => String a s
  | _ => DEFAULT_SHADER
  end.

Definition createShader (name : string) (code : option string) (d : Db)
  : ShaderProject * Db :=
  let (t, d1) := Date_now d in
  let (i, d2) := generateId d1 in
  let shader :=
    mkShaderProject i name [mkShaderFile "main.glsl" (orDefault code)] t t None in
  (shader, set_shaders (put shader (shaders d2)) d2).

Definition getShader (i : string) (d : Db) : option ShaderProject :=
  get i (shaders d).

Definition isMain (f : ShaderFile) : bool := String.eqb (file_name f) "main.glsl".

(** [files.find(f => f.name === 'main.glsl')] followed by the assignment
    to the [code] of the file found. *)
Fixpoint setMainCode (c : string) (fs : list ShaderFile) : list ShaderFile :=
  match fs with
  | [] => []
  | f :: fs' =>
      if isMain f then mkShaderFile (file_name f) c :: fs'
      else f :: setMainCode c fs'
  end.

Definition updateShader (i : string) (updates : Updates) (d : Db)
  : Outcome * Db :=
  match get i (shaders d) with
  | None => (rejected ("Shader with id " ++ i ++ " not found"), d)
  | Some shader =>
      let (t, d1) := Date_now d in
      let updated :=
        mkShaderProject (id shader)
          (match u_name updates with Some n => n | None => name shader end)
          (match u_code updates with
           | Some c => setMainCode c (files shader)
           | None => files shader
           end)
          (createdAt shader) t
          (match u_code updates with Some c => Some c | None => code shader end) in
      (resolved, set_shaders (put updated (shaders d1)) d1)
  end.

Definition deleteShader (i : string) (d : Db) : Db :=
  set_shaders (delete i (shaders d)) d.

Definition getShaderMainCode (shader : ShaderProject) : string :=
  match find isMain (files shader) with
  | Some mainFile => file_code mainFile
  | None => ""
  end.

End ShaderManager.

(** A store that holds nothing yet. *)
Definition empty_db : ShaderManager.Db :=
  ShaderManager.mkDb [] (fun _ => 1767225600000%Z) 0 (fun _ => "k3x9q2a") 0.

Local Close Scope string_scope.

(** * Properties *)

Ltac run_method :=
  unfold exec, eval, run, bind, ret, field, assign, ask, effect; simpl.

(** ** Pointer state *)

Lemma forEach_app {A} (l1 l2 : list A) (body : A -> M unit) (w : World) :
  exec (forEach (l1 ++ l2) body) w = exec (forEach l2 body) (exec (forEach l1 body) w).
Proof.
  revert w. induction l1 as [|x xs IH]; intros w; simpl.
  - reflexivity.
  - unfold exec, bind in *. destruct (body x w) as [u w']. simpl. apply IH.
Qed.

Lemma mousemove_pressed (w : World) (e : MouseEvent) (rect : DOMRect) :
  isMouseDown (this w) = true ->
  exec (on_mousemove e rect) w =
  mkWorld (set_mouse (mkMouse (surfaceX e rect) (surfaceY e rect)
                        (m2 (mouse (this w))) (m3 (mouse (this w)))) (this w))
          (host w).
Proof.
  intros H. unfold on_mousemove. run_method. rewrite H. reflexivity.
Qed.

Lemma mousemove_released (w : World) (e : MouseEvent) (rect : DOMRect) :
  isMouseDown (this w) = false -> exec (on_mousemove e rect) w = w.
Proof.
  intros H. unfold on_mousemove. run_method. rewrite H. destruct w; reflexivity.
Qed.

Lemma last_cons_default {A} (l : list A) (x d d' : A) :
  last (x :: l) d = last (x :: l) d'.
Proof.
  revert x. induction l as [|y ys IH]; intros x.
  - reflexivity.
  - change (last (y :: ys) d = last (y :: ys) d'). apply IH.
Qed.

Lemma drag_pressed (moves : list (MouseEvent * DOMRect)) :
  forall (w : World) (press : MouseEvent * DOMRect),
  isMouseDown (this w) = true ->
  m0 (mouse (this w)) = surfaceX (fst press) (snd press) ->
  m1 (mouse (this w)) = surfaceY (fst press) (snd press) ->
  let w' := exec (drag moves) w in
  isMouseDown (this w') = true /\
  mouse (this w') = mkMouse (fst (last_position press moves))
                      (snd (last_position press moves))
                      (m2 (mouse (this w))) (m3 (mouse (this w))).
Proof.
  induction moves as [|m ms IH]; intros w press Hd Hx Hy.
  - unfold drag, exec, last_position. simpl. split; [exact Hd|].
    rewrite <- Hx, <- Hy. destruct (mouse (this w)); reflexivity.
  - unfold drag in *. change (m :: ms) with ([m] ++ ms).
    rewrite forEach_app.
    assert (E : exec (forEach [m] (fun m => on_mousemove (fst m) (snd m))) w
                = exec (on_mousemove (fst m) (snd m)) w).
    { unfold exec, forEach, bind, ret.
      destruct (on_mousemove (fst m) (snd m) w); reflexivity. }
    rewrite E, (mousemove_pressed _ _ _ Hd). clear E.
    specialize (IH (mkWorld (set_mouse (mkMouse (surfaceX (fst m) (snd m))
                      (surfaceY (fst m) (snd m)) (m2 (mouse (this w)))
                      (m3 (mouse (this w)))) (this w)) (host w)) m).
    simpl in IH. destruct (IH Hd eq_refl eq_refl) as [IH1 IH2].
    split; [exact IH1|]. rewrite IH2. unfold last_position.
    change ([m] ++ ms) with (m :: ms).
    rewrite (last_cons_default ms m press m).
    destruct ms; reflexivity.
Qed.

(** C3. Pointer click encoding.  A press at surface position (x, y), with
    y flipped from screen coordinates, sets current and click position to
    (x, y); the moves that follow while the press is held update only the
    current position; the release replaces each click component by the
    negated absolute value of what it held (same magnitude, non-positive
    sign) and leaves the current position alone. *)
Theorem pointer_click_encoding
  (w : World) (e : MouseEvent) (rect : DOMRect)
  (moves : list (MouseEvent * DOMRect)) :
  let x := (clientX e - left rect)%Z in
  let y := (height rect - (clientY e - top rect))%Z in
  let w1 := exec (on_mousedown e rect) w in
  let w2 := exec (drag moves) w1 in
  let w3 := exec on_mouseup w2 in
  let cur := last_position (e, rect) moves in
  (mouse (this w1) = mkMouse x y x y /\ isMouseDown (this w1) = true) /\
  (mouse (this w2) = mkMouse (fst cur) (snd cur) x y /\
   isMouseDown (this w2) = true) /\
  (mouse (this w3) = mkMouse (fst cur) (snd cur) (- Z.abs x) (- Z.abs y) /\
   isMouseDown (this w3) = false) /\
  (Z.abs (m2 (mouse (this w3))) = Z.abs (m2 (mouse (this w2))) /\
   Z.abs (m3 (mouse (this w3))) = Z.abs (m3 (mouse (this w2))) /\
   (m2 (mouse (this w3)) <= 0)%Z /\ (m3 (mouse (this w3)) <= 0)%Z).
Proof.
  intros x y w1 w2 w3 cur.
  assert (H1 : mouse (this w1) = mkMouse x y x y /\ isMouseDown (this w1) = true).
  { subst w1. unfold on_mousedown. run_method. split; reflexivity. }
  destruct H1 as [Hm1 Hd1].
  destruct (@drag_pressed moves w1 (e, rect) Hd1) as [Hd2 Hm2].
  { rewrite Hm1. reflexivity. }
  { rewrite Hm1. reflexivity. }
  fold w2 in Hd2, Hm2. rewrite Hm1 in Hm2. simpl in Hm2. fold cur in Hm2.
  assert (Hm3 : mouse (this w3) =
                mkMouse (m0 (mouse (this w2))) (m1 (mouse (this w2)))
                  (- Z.abs (m2 (mouse (this w2))))
                  (- Z.abs (m3 (mouse (this w2)))) /\
                isMouseDown (this w3) = false).
  { subst w3. unfold on_mouseup. run_method. split; reflexivity. }
  destruct Hm3 as [Hm3 Hd3].
  repeat split; try assumption.
  - rewrite Hm3, Hm2. reflexivity.
  - rewrite Hm3. simpl. lia.
  - rewrite Hm3. simpl. lia.
  - rewrite Hm3. simpl. lia.
  - rewrite Hm3. simpl. lia.
Qed.

(** A release applies the encoding to whatever the click fields hold,
    pressed or not. *)
Lemma mouseup_any (w : World) :
  exec on_mouseup w =
  mkWorld (set_mouse (mkMouse (m0 (mouse (this w))) (m1 (mouse (this w)))
                        (- Z.abs (m2 (mouse (this w))))
                        (- Z.abs (m3 (mouse (this w)))))
             (set_isMouseDown false (this w)))
          (host w).
Proof. reflexivity. Qed.

(** C8. Pointer leave.  Leaving the surface, with a press held or not,
    clears the pressed flag and touches nothing else: the four pointer
    values keep their values and signs, and the host is not affected. *)
Theorem pointer_leave_clears_flag_only (w : World) :
  exec on_mouseleave w = mkWorld (set_isMouseDown false (this w)) (host w) /\
  isMouseDown (this (exec on_mouseleave w)) = false /\
  mouse (this (exec on_mouseleave w)) = mouse (this w).
Proof. repeat split. Qed.

(** The two ways of ending a press differ exactly on a held click. *)
Example leave_differs_from_release :
  let w := exec (on_mousedown (mkMouseEvent 10 80) (mkDOMRect 0 0 100))
             (fresh_world (fun _ => 0%Z)) in
  mouse (this (exec on_mouseleave w)) = mkMouse 10 20 10 20 /\
  mouse (this (exec on_mouseup w)) = mkMouse 10 20 (-10) (-20).
Proof. split; reflexivity. Qed.

(** The scenario of the specification: press at (10,20), drag to (15,25),
    release, on a surface 100 pixels high whose box starts at the origin. *)
Example press_drag_release :
  let rect := mkDOMRect 0 0 100 in
  let w1 := exec (on_mousedown (mkMouseEvent 10 80) rect)
              (fresh_world (fun _ => 0%Z)) in
  let w2 := exec (on_mousemove (mkMouseEvent 15 75) rect) w1 in
  let w3 := exec on_mouseup w2 in
  mouse (this w1) = mkMouse 10 20 10 20 /\
  mouse (this w2) = mkMouse 15 25 10 20 /\
  mouse (this w3) = mkMouse 15 25 (-10) (-20).
Proof. repeat split. Qed.

(** ** Event channel *)

Lemma on_all_listeners (regs : list Listener) (w : World) :
  exec (forEach regs on) w =
  mkWorld (set_eventListeners (eventListeners (this w) ++ regs) (this w)) (host w).
Proof.
  revert w. induction regs as [|l ls IH]; intros w.
  - unfold exec. simpl. rewrite app_nil_r. destruct w as [[] ?]; reflexivity.
  - change (l :: ls) with ([l] ++ ls). rewrite forEach_app, IH.
    unfold exec. simpl. rewrite <- app_assoc. reflexivity.
Qed.

Lemma deliver_all (ev : RendererEvent) (ls : list Listener) (w : World) :
  forEach ls (fun listener => call_listener listener ev) w =
  (tt, mkWorld (this w)
         (set_delivered (delivered (host w) ++ map (fun l => (l, ev)) ls) (host w))).
Proof.
  revert w. induction ls as [|l ls IH]; intros w.
  - simpl. rewrite app_nil_r. destruct w as [? []]; reflexivity.
  - simpl. unfold bind, call_listener, effect. rewrite IH. simpl.
    rewrite <- app_assoc. reflexivity.
Qed.

Lemma emit_spec (ev : RendererEvent) (w : World) :
  emit ev w =
  (tt, mkWorld (this w)
         (set_delivered (delivered (host w)
                           ++ map (fun l => (l, ev)) (eventListeners (this w)))
                        (host w))).
Proof. unfold emit, bind, field. apply deliver_all. Qed.

(** C9. Broadcast order.  After any series of registrations through
    [on], a broadcast calls the registered listeners in registration
    order, one call per registration: the new stretch of the delivery log
    is the listener array itself, each entry paired with the event.  In
    particular every listener is called as often as it is registered,
    once when it was registered once. *)
Theorem emit_registration_order
  (w : World) (regs : list Listener) (ev : RendererEvent) :
  let w1 := exec (forEach regs on) w in
  let w2 := exec (emit ev) w1 in
  let calls := skipn (List.length (delivered (host w1))) (delivered (host w2)) in
  eventListeners (this w1) = eventListeners (this w) ++ regs /\
  delivered (host w2) = delivered (host w1) ++ calls /\
  calls = map (fun l => (l, ev)) (eventListeners (this w) ++ regs) /\
  invoked calls = eventListeners (this w) ++ regs /\
  (forall l, count_occ Nat.eq_dec (invoked calls) l
             = count_occ Nat.eq_dec (eventListeners (this w) ++ regs) l) /\
  this w2 = this w1.
Proof.
  intros w1 w2 calls.
  assert (E1 : eventListeners (this w1) = eventListeners (this w) ++ regs).
  { subst w1. rewrite on_all_listeners. reflexivity. }
  assert (E2 : delivered (host w2) =
               delivered (host w1) ++ map (fun l => (l, ev)) (eventListeners (this w1))).
  { subst w2. unfold exec. rewrite emit_spec. reflexivity. }
  assert (E3 : calls = map (fun l => (l, ev)) (eventListeners (this w) ++ regs)).
  { subst calls. rewrite E2, E1.
    rewrite skipn_app, skipn_all, Nat.sub_diag. reflexivity. }
  assert (E4 : invoked calls = eventListeners (this w) ++ regs).
  { rewrite E3. unfold invoked. rewrite map_map. simpl. apply map_id. }
  repeat split.
  - exact E1.
  - rewrite E3, E2, E1. reflexivity.
  - exact E3.
  - exact E4.
  - intros l. rewrite E4. reflexivity.
  - subst w2. unfold exec. rewrite emit_spec. reflexivity.
Qed.

(** On a fresh renderer: three registrations, one broadcast. *)
Example emit_three_listeners :
  let ev := mkRendererEvent compile_success None None in
  let w := exec (on 7 ;; on 3 ;; on 5 ;; emit ev) (fresh_world (fun _ => 0%Z)) in
  delivered (host w) = [(7, ev); (3, ev); (5, ev)].
Proof. reflexivity. Qed.

(** [off] drops the first registration of a listener and keeps the order
    of the others. *)
Example off_keeps_order :
  let ev := mkRendererEvent compile_success None None in
  let w := exec (on 7 ;; on 3 ;; on 7 ;; on 5 ;; off 7 ;; emit ev)
             (fresh_world (fun _ => 0%Z)) in
  invoked (delivered (host w)) = [3; 7; 5].
Proof. reflexivity. Qed.

(** ** Polled state *)

Local Open Scope Q_scope.

(** C10. The polled state carries no frame rate: [getState] answers an
    [fps] of exactly 0 in every world, playing or paused, whatever the
    frame count and the clock. *)
Theorem getState_fps_is_zero (w : World) :
  st_fps (eval getState w) = 0.
Proof.
  unfold getState. run_method. destruct (isPlaying (this w)); reflexivity.
Qed.

Lemma renderFrame_runs (w : World) (p : Handle) :
  gl (this w) = true -> program (this w) = Some p ->
  renderFrame w = (tt, after_frame w p).
Proof.
  intros Hg Hp. unfold renderFrame, bind at 1 2, field at 1 2.
  rewrite Hg, Hp.
  unfold bind, field, assign, ask, effect, ret, performance_now, new_Date, gl_call.
  simpl. unfold bind, field, assign, ask, effect, ret. simpl.
  rewrite emit_spec. simpl. unfold after_frame, frame_commands, frame_snapshot,
    frame_fps, next_now. simpl.
  repeat rewrite <- app_assoc. reflexivity.
Qed.

Lemma renderFrame_skips (w : World) :
  gl (this w) = false \/ program (this w) = None ->
  renderFrame w = (tt, w).
Proof.
  intros H. unfold renderFrame, bind, field.
  destruct (gl (this w)), (program (this w)); try reflexivity.
  destruct H; discriminate.
Qed.

Local Close Scope Q_scope.

(** ** Timeline: what each method does, in closed form *)

Lemma renderFrame_spec (w : World) : renderFrame w = (tt, rendered w).
Proof.
  unfold rendered.
  destruct (gl (this w)) eqn:Hg; [destruct (program (this w)) eqn:Hp|].
  - apply renderFrame_runs; assumption.
  - apply renderFrame_skips. right. exact Hp.
  - rewrite renderFrame_skips; [|left; exact Hg].
    destruct (program (this w)); reflexivity.
Qed.

Lemma render_spec (w : World) :
  render w = (tt, if isPlaying (this w) then scheduled (rendered w) else w).
Proof.
  unfold render, bind at 1, field at 1.
  destruct (isPlaying (this w)); simpl; [|reflexivity].
  unfold bind at 1. rewrite renderFrame_spec. reflexivity.
Qed.

Lemma play_spec (w : World) :
  play w = (tt, if isPlaying (this w) then w
                else scheduled (rendered (play_clock w))).
Proof.
  unfold play, bind at 1, field at 1.
  destruct (isPlaying (this w)) eqn:Hp; simpl; [reflexivity|].
  unfold bind at 1, assign at 1. unfold bind at 1, field at 1. simpl.
  unfold bind at 1.
  assert (E : forall w0 : World,
            isPlaying (this w0) = true ->
            render w0 = (tt, scheduled (rendered w0))).
  { intros w0 H0. rewrite render_spec, H0. reflexivity. }
  destruct (pausedTime (this w) >? 0)%Z eqn:Hpos;
    unfold bind, assign, performance_now, ask, effect, ret; simpl;
    rewrite E by reflexivity; unfold play_clock; simpl; rewrite Hpos;
    reflexivity.
Qed.

Lemma pause_spec (w : World) : pause w = (tt, paused w).
Proof.
  unfold pause, paused, next_now.
  unfold bind, assign, performance_now, ask, effect, ret, field,
    cancelAnimationFrame; simpl.
  destruct (animationId (this w)); reflexivity.
Qed.

Lemma restart_spec (w : World) :
  restart w = (tt, if isPlaying (this w) then restart_clock w
                   else rendered (restart_clock w)).
Proof.
  unfold restart.
  unfold bind, assign, performance_now, ask, effect, ret, field; simpl.
  destruct (isPlaying (this w)); simpl.
  - reflexivity.
  - rewrite renderFrame_spec. reflexivity.
Qed.

Lemma animationFrame_spec (id : nat) (w : World) :
  animationFrame id w =
  (tt, if existsb (Nat.eqb id) (rafPending (host w)) then
         let w0 := mkWorld (this w)
                     (set_rafPending (remove_handle id (rafPending (host w)))
                        (host w)) in
         if isPlaying (this w) then scheduled (rendered w0) else w0
       else w).
Proof.
  unfold animationFrame, bind at 1, ask at 1.
  destruct (existsb (Nat.eqb id) (rafPending (host w))); [|reflexivity].
  unfold bind, effect. rewrite render_spec. reflexivity.
Qed.

(** Fields a frame leaves alone. *)
Lemma rendered_timeline (w : World) :
  isPlaying (this (rendered w)) = isPlaying (this w) /\
  startTime (this (rendered w)) = startTime (this w) /\
  pausedTime (this (rendered w)) = pausedTime (this w) /\
  program (this (rendered w)) = program (this w) /\
  gl (this (rendered w)) = gl (this w) /\
  clock (host (rendered w)) = clock (host w).
Proof.
  unfold rendered.
  destruct (gl (this w)) eqn:Hg; [destruct (program (this w)) eqn:Hp|];
    simpl; rewrite ?Hg, ?Hp; repeat split; reflexivity.
Qed.

Lemma animationFrame_timeline (id : nat) (w : World) :
  let w' := exec (animationFrame id) w in
  isPlaying (this w') = isPlaying (this w) /\
  startTime (this w') = startTime (this w) /\
  pausedTime (this w') = pausedTime (this w) /\
  clock (host w') = clock (host w).
Proof.
  unfold exec. rewrite animationFrame_spec. simpl.
  destruct (existsb (Nat.eqb id) (rafPending (host w))); [|repeat split; reflexivity].
  destruct (isPlaying (this w)) eqn:Hp; simpl.
  - match goal with |- context [rendered ?x] =>
      destruct (rendered_timeline x) as (H1 & H2 & H3 & _ & _ & H4) end.
    rewrite H1, H2, H3, H4. simpl. rewrite Hp. repeat split; reflexivity.
  - rewrite Hp. repeat split; reflexivity.
Qed.

Lemma frames_timeline (ids : list nat) (w : World) :
  let w' := exec (forEach ids animationFrame) w in
  isPlaying (this w') = isPlaying (this w) /\
  startTime (this w') = startTime (this w) /\
  pausedTime (this w') = pausedTime (this w) /\
  clock (host w') = clock (host w).
Proof.
  revert w. induction ids as [|id ids IH]; intros w.
  - repeat split; reflexivity.
  - change (id :: ids) with ([id] ++ ids). cbv zeta. rewrite forEach_app.
    assert (E : exec (forEach [id] animationFrame) w = exec (animationFrame id) w).
    { unfold exec. simpl. unfold bind, ret.
      destruct (animationFrame id w); reflexivity. }
    rewrite E. destruct (IH (exec (animationFrame id) w)) as (H1 & H2 & H3 & H4).
    destruct (animationFrame_timeline id w) as (G1 & G2 & G3 & G4).
    rewrite H1, H2, H3, H4, G1, G2, G3, G4. repeat split; reflexivity.
Qed.

Lemma scheduled_rendered_timeline (w : World) :
  let w' := scheduled (rendered w) in
  isPlaying (this w') = isPlaying (this w) /\
  startTime (this w') = startTime (this w) /\
  pausedTime (this w') = pausedTime (this w) /\
  clock (host w') = clock (host w).
Proof.
  destruct (rendered_timeline w) as (H1 & H2 & H3 & _ & _ & H4).
  simpl. rewrite H1, H2, H3, H4. repeat split; reflexivity.
Qed.

Lemma play_from_paused (w : World) :
  isPlaying (this w) = false ->
  let w' := exec play w in
  isPlaying (this w') = true /\
  startTime (this w') =
    (if (pausedTime (this w) >? 0)%Z then next_now w - pausedTime (this w)
     else next_now w)%Z.
Proof.
  intros Hp. unfold exec. rewrite play_spec, Hp. cbn [snd].
  destruct (scheduled_rendered_timeline (play_clock w)) as (H1 & H2 & _).
  cbv zeta in H1, H2. rewrite H1, H2. split; reflexivity.
Qed.

Lemma getState_time (w : World) :
  st_time (eval getState w) =
  if isPlaying (this w) then seconds (next_now w - startTime (this w))
  else seconds (pausedTime (this w)).
Proof.
  unfold getState. run_method. destruct (isPlaying (this w)); reflexivity.
Qed.

(** C4. Pause/resume continuity.  A paused renderer is played, any number
    of animation frames run, and at the moment the elapsed time is
    [delta] it is paused; after a wait of any length it is resumed with
    [play].  The resumed start time is the resume instant minus [delta],
    so the elapsed time polled after the resume is [delta] plus what the
    clock advanced since the resume reading, and exactly [delta] when
    polled at the resume instant: nothing of the wait leaks in. *)
Theorem resume_continuity (w : World) (frames : list nat) :
  isPlaying (this w) = false ->
  let w1 := exec (forEach frames animationFrame) (exec play w) in
  let delta := (next_now w1 - startTime (this w1))%Z in
  (0 <= delta)%Z ->
  let w2 := exec pause w1 in
  let w3 := exec play w2 in
  isPlaying (this w1) = true /\
  (isPlaying (this w2) = false /\ pausedTime (this w2) = delta) /\
  (isPlaying (this w3) = true /\
   startTime (this w3) = (next_now w2 - delta)%Z) /\
  st_time (eval getState w3) = seconds (delta + (next_now w3 - next_now w2)) /\
  (next_now w3 = next_now w2 -> st_time (eval getState w3) = seconds delta).
Proof.
  intros Hp w1 delta Hd w2 w3.
  assert (P1 : isPlaying (this w1) = true).
  { subst w1. destruct (frames_timeline frames (exec play w)) as (H1 & _).
    cbv zeta in H1. rewrite H1. apply (play_from_paused w Hp). }
  assert (P2 : isPlaying (this w2) = false /\ pausedTime (this w2) = delta).
  { subst w2. unfold exec. rewrite pause_spec. unfold paused. simpl.
    destruct (animationId (this w1)); split; reflexivity. }
  destruct P2 as [P2 P2'].
  assert (P3 : isPlaying (this w3) = true /\
               startTime (this w3) = (next_now w2 - delta)%Z).
  { destruct (play_from_paused w2 P2) as [H1 H2]. fold w3 in H1, H2.
    split; [exact H1|]. rewrite H2, P2'.
    destruct (delta >? 0)%Z eqn:E; [reflexivity|].
    rewrite Z.gtb_ltb in E. apply Z.ltb_ge in E. lia. }
  destruct P3 as [P3 P3'].
  assert (P4 : st_time (eval getState w3)
               = seconds (delta + (next_now w3 - next_now w2))).
  { rewrite getState_time, P3, P3'. f_equal. lia. }
  repeat split; try assumption.
  intros E. rewrite P4, E. f_equal. lia.
Qed.

(** [pause] has no guard: whatever the play state, it stores the clock
    reading minus the start time as the paused baseline. *)
Lemma pause_always_records (w : World) :
  pausedTime (this (exec pause w)) = (next_now w - startTime (this w))%Z /\
  isPlaying (this (exec pause w)) = false.
Proof.
  unfold exec. rewrite pause_spec. unfold paused. simpl.
  destruct (animationId (this w)); split; reflexivity.
Qed.

(** C5.  The code against the claim that [pause] does nothing when already
    paused.  Play at 1000 ms, pause at 1500 ms: paused with a baseline of
    500 ms.  A second [pause] at 5000 ms, in the Paused state, replaces
    the baseline by 4000 ms, and the next [play] at 6000 ms resumes at an
    elapsed time of 4 s instead of 0.5 s. *)
Theorem pause_when_paused_changes_baseline :
  let w0 := fresh_world (readings [1000; 1000; 1500; 5000; 6000; 6000; 6000])%Z in
  let w1 := exec (play ;; pause) w0 in
  let w2 := exec pause w1 in
  let w3 := exec play w2 in
  isPlaying (this w1) = false /\
  pausedTime (this w1) = 500%Z /\
  pausedTime (this w2) = 4000%Z /\
  this w2 <> this w1 /\
  st_time (eval getState w3) = seconds 4000.
Proof.
  repeat split. intros H. discriminate H.
Qed.

(** ** Compilation *)

(** Weakest preconditions for the method monad: the methods are run
    symbolically, one primitive at a time, on a world given by its
    fields. *)

Lemma wp_ret {A} (a : A) Q w : Q a w -> wp (ret a) Q w.
Proof. exact (fun H => H). Qed.

Lemma wp_bind {A B} (c : M A) (f : A -> M B) Q w :
  wp c (fun a w' => wp (f a) Q w') w -> wp (bind c f) Q w.
Proof. unfold wp, bind. destruct (c w) as [a w']. exact (fun H => H). Qed.

Lemma wp_field {A} (f : Renderer -> A) Q r h :
  Q (f r) (mkWorld r h) -> wp (field f) Q (mkWorld r h).
Proof. exact (fun H => H). Qed.

Lemma wp_assign (f : Renderer -> Renderer) Q r h :
  Q tt (mkWorld (f r) h) -> wp (assign f) Q (mkWorld r h).
Proof. exact (fun H => H). Qed.

Lemma wp_ask {A} (f : Host -> A) Q r h :
  Q (f h) (mkWorld r h) -> wp (ask f) Q (mkWorld r h).
Proof. exact (fun H => H). Qed.

Lemma wp_effect (f : Host -> Host) Q r h :
  Q tt (mkWorld r (f h)) -> wp (effect f) Q (mkWorld r h).
Proof. exact (fun H => H). Qed.

Lemma wp_emit (ev : RendererEvent) Q r h :
  Q tt (mkWorld r (set_delivered
                     (delivered h ++ map (fun l => (l, ev)) (eventListeners r)) h)) ->
  wp (emit ev) Q (mkWorld r h).
Proof. unfold wp. rewrite emit_spec. exact (fun H => H). Qed.

Ltac wp_norm :=
  cbn beta iota delta
    [fst snd negb
     canvasWidth canvasHeight gl program vao isPlaying startTime pausedTime
     lastFrameTime frameCount animationId mouse isMouseDown eventListeners
     set_canvas set_program set_isPlaying set_startTime set_pausedTime
     set_lastFrameTime set_frameCount set_animationId set_mouse
     set_isMouseDown set_eventListeners
     clock dates createOk shaderStatus shaderInfoLog programStatus
     programInfoLog clockReads dateReads nextHandle liveShaders livePrograms
     rafNext rafPending glLog consoleLog delivered
     set_clockReads set_dateReads set_nextHandle set_liveShaders
     set_livePrograms set_rafNext set_rafPending set_glLog set_consoleLog
     set_delivered].

Ltac wp_step :=
  lazymatch goal with
  | |- wp (bind _ _) _ _ => apply wp_bind
  | |- wp (ret _) _ _ => apply wp_ret
  | |- wp (field _) _ _ => apply wp_field
  | |- wp (assign _) _ _ => apply wp_assign
  | |- wp (ask _) _ _ => apply wp_ask
  | |- wp (effect _) _ _ => apply wp_effect
  | |- wp (emit _) _ _ => apply wp_emit
  end;
  wp_norm.

Ltac wp_run := repeat wp_step.

Ltac wp_case b := destruct b eqn:?; wp_norm; wp_run.

Lemma wp_intro {A} (c : M A) (Q : A -> World -> Prop) (w : World) :
  wp c Q w -> Q (eval c w) (exec c w).
Proof. exact (fun H => H). Qed.

Ltac draw_free :=
  rewrite ?filter_app; cbn [filter is_draw]; rewrite ?app_nil_r; reflexivity.

Ltac compile_done :=
  unfold compile_post, programs_after, events_after, vertex_ok, fragment_ok,
    link_ok;
  cbn [this host]; wp_norm;
  repeat match goal with H : _ = _ |- _ => rewrite H end;
  cbn [andb];
  repeat split; try reflexivity; try draw_free; try lia.

Lemma compile_spec (src : string) (w : World) :
  compile_post src w (eval (compile src) w) (exec (compile src) w).
Proof.
  apply (@wp_intro _ (compile src) (compile_post src w) w).
  destruct w as [[] []].
  unfold compile, createShader, createProgram, fresh_handle, deleteShader,
    deleteProgram, console, gl_call.
  wp_run.
  match goal with |- context [negb ?b] => wp_case b end; [|compile_done].
  match goal with |- context [createOk0 ?n] => wp_case (createOk0 n) end;
    [|compile_done].
  match goal with |- context [shaderStatus0 ?n] => wp_case (shaderStatus0 n) end;
    [|compile_done].
  match goal with |- context [createOk0 (S ?n)] => wp_case (createOk0 (S n)) end;
    [|compile_done].
  match goal with |- context [shaderStatus0 (S ?n)] =>
    wp_case (shaderStatus0 (S n)) end; [|compile_done].
  match goal with |- context [createOk0 (S (S ?n))] =>
    wp_case (createOk0 (S (S n))) end; [|compile_done].
  match goal with |- context [programStatus0 (S (S ?n))] =>
    wp_case (programStatus0 (S (S n))) end; [|compile_done].
  match goal with |- context [match ?p with Some _ => _ | None => _ end] =>
    wp_case p end; compile_done.
Qed.

(** C2. Compile failure atomicity.  When the driver rejects the fragment
    shader of a call of [compile] (handle [n+1]) or fails to link its
    program (handle [n+2]), the call answers [false] and the [program]
    field is what it was; a program that was allocated before the call
    and is alive stays alive.  So when the world is the outcome of a
    successful compile, the program linked by that compile is still the
    active one after the failing call. *)
Theorem compile_failure_keeps_active_program (w : World) (src : string) :
  let n := nextHandle (host w) in
  shaderStatus (host w) (S n) = false \/ programStatus (host w) (S (S n)) = false ->
  let w' := exec (compile src) w in
  eval (compile src) w = false /\
  program (this w') = program (this w) /\
  (forall p, program (this w) = Some p -> (p < n)%nat ->
             In p (livePrograms (host w)) -> In p (livePrograms (host w'))) /\
  (forall w0 src0,
     w = exec (compile src0) w0 -> eval (compile src0) w0 = true ->
     program (this w') = Some (S (S (nextHandle (host w0)))) /\
     programStatus (host w0) (S (S (nextHandle (host w0)))) = true).
Proof.
  intros n Hfail w'.
  destruct (compile_spec src w) as (Ha & Hp & _ & _ & Hl & _ & _).
  fold w' in Hp, Hl.
  assert (Hf : eval (compile src) w = false).
  { rewrite Ha. unfold fragment_ok, link_ok. fold n.
    destruct Hfail as [H | H]; rewrite H;
      rewrite ?andb_false_r; reflexivity. }
  rewrite Hf in Hp.
  split; [exact Hf|]. split; [exact Hp|]. split; [|intros w0 src0 Hw Hok; split].
  - intros p _ Hlt Hin. rewrite Hl. unfold programs_after. fold n.
    rewrite Ha in Hf. unfold link_ok in Hf. fold n in Hf.
    destruct (vertex_ok w && fragment_ok w)%bool; [|exact Hin].
    destruct (createOk (host w) (S (S n))); [|exact Hin].
    destruct (programStatus (host w) (S (S n))); [discriminate Hf|].
    unfold remove_handle. apply filter_In. split.
    + right. exact Hin.
    + apply negb_true_iff. apply Nat.eqb_neq. lia.
  - rewrite Hp. subst w.
    destruct (compile_spec src0 w0) as (_ & Hp0 & _). rewrite Hok in Hp0.
    exact Hp0.
  - subst w. destruct (compile_spec src0 w0) as (Ha0 & _). rewrite Hok in Ha0.
    unfold link_ok in Ha0. symmetry in Ha0.
    apply andb_true_iff in Ha0. destruct Ha0 as [_ Ha0].
    apply andb_true_iff in Ha0. apply Ha0.
Qed.

(** Any [false] answer of [compile], whatever the failing step, leaves the
    [program] field and every other field of the renderer alone. *)
Lemma compile_false_keeps_renderer (w : World) (src : string) :
  eval (compile src) w = false -> this (exec (compile src) w) = this w.
Proof.
  intros Hf. destruct (compile_spec src w) as (_ & Hp & Hr & _).
  rewrite Hf in Hp. destruct (this (exec (compile src) w)), (this w).
  simpl in *. inversion Hr. subst. reflexivity.
Qed.

(** A rejected fragment shader is reported to every listener, once, as a
    [compile-error] event carrying the translated info log. *)
Lemma compile_error_event (w : World) (src : string) :
  let n := nextHandle (host w) in
  vertex_ok w = true -> createOk (host w) (S n) = true ->
  shaderStatus (host w) (S n) = false ->
  delivered (host (exec (compile src) w)) =
  delivered (host w)
  ++ map (fun l => (l, mkRendererEvent compile_error
                         (Some (parseErrors (orEmpty (shaderInfoLog (host w) (S n)))))
                         None))
       (eventListeners (this w)).
Proof.
  intros n Hv Hc Hs.
  destruct (compile_spec src w) as (_ & _ & _ & _ & _ & _ & He).
  rewrite He. unfold events_after. fold n. rewrite Hv, Hc, Hs. reflexivity.
Qed.

(** One listener, a good shader, then a shader whose first line is wrong:
    the listener hears success, then an error placed on line 7. *)
Example compile_events_end_to_end :
  let w0 := mkWorld (new_WebGLRenderer 640 360 (Some 0%nat)) picky_host in
  let w := exec (on 1 ;;
                 compile "void mainImage(out vec4 c, in vec2 p) { c = vec4(1.0); }" ;;
                 compile "void mainImage(out vec4 c, in vec2 p) { c = x; }") w0 in
  delivered (host w) =
  [ (1%nat, mkRendererEvent compile_success None None);
    (1%nat, mkRendererEvent compile_error
              (Some [ {| line := 7; message := "'x' : undeclared identifier" |} ])
              None) ] /\
  program (this w) = Some 3%nat.
Proof. vm_compute. split; reflexivity. Qed.

(** A [true] answer installs the freshly linked program. *)
Lemma compile_true_installs (w : World) (src : string) :
  eval (compile src) w = true ->
  program (this (exec (compile src) w)) = Some (S (S (nextHandle (host w)))).
Proof.
  intros Ht. destruct (compile_spec src w) as (_ & Hp & _).
  rewrite Ht in Hp. exact Hp.
Qed.

(** ** Restart and the frame counter *)

Lemma draws_after_frame (w : World) (p : Handle) :
  draws (after_frame w p) = S (draws w).
Proof.
  unfold draws, after_frame. cbn [host glLog set_delivered set_glLog].
  rewrite filter_app, length_app. simpl. lia.
Qed.

Lemma rendered_counts (w : World) :
  frameCount (this (rendered w))
    = (frameCount (this w) + (if renders w then 1 else 0))%Z /\
  draws (rendered w) = (draws w + (if renders w then 1 else 0))%nat.
Proof.
  unfold rendered, renders.
  destruct (gl (this w)); [destruct (program (this w))|].
  - rewrite draws_after_frame. split; [reflexivity|lia].
  - split; [lia|lia].
  - destruct (program (this w)); split; lia.
Qed.

Lemma scheduled_counts (w : World) :
  frameCount (this (scheduled w)) = frameCount (this w) /\
  draws (scheduled w) = draws w /\
  isPlaying (this (scheduled w)) = isPlaying (this w).
Proof. repeat split. Qed.

Lemma restart_clock_fields (w : World) :
  let w0 := restart_clock w in
  isPlaying (this w0) = isPlaying (this w) /\
  gl (this w0) = gl (this w) /\
  program (this w0) = program (this w) /\
  frameCount (this w0) = 0%Z /\
  pausedTime (this w0) = 0%Z /\
  startTime (this w0) = next_now w /\
  draws w0 = draws w /\
  glLog (host w0) = glLog (host w) /\
  delivered (host w0) = delivered (host w) /\
  eventListeners (this w0) = eventListeners (this w) /\
  next_now w0 = clock (host w) (S (S (clockReads (host w)))).
Proof. repeat split. Qed.

(** C6, against the claim as stated.  After a successful compile the
    renderer is paused with an active program; [restart] then returns
    with a frame count of 1, not 0.  And on a fresh renderer, paused but
    without a program, [restart] renders no frame at all. *)
Lemma restart_paused_counterexample :
  let w := exec (compile "void mainImage(out vec4 c, in vec2 p) { c = vec4(1.0); }")
             (fresh_world (fun _ => 0%Z)) in
  let v := fresh_world (fun _ => 0%Z) in
  (isPlaying (this w) = false /\
   frameCount (this (exec restart w)) = 1%Z /\
   frameCount (this (exec restart w)) <> 0%Z) /\
  (isPlaying (this v) = false /\ draws (exec restart v) = draws v).
Proof.
  vm_compute. repeat split; discriminate.
Qed.

(** C6, as amended.  [restart] zeroes the paused baseline and the frame
    counter and sets the start time to the clock, in either play state.
    While Playing it renders nothing itself and returns with a frame
    count of 0; the elapsed time polled next is what the clock has
    advanced since.  While Paused the elapsed time polled is zero and
    [renderFrame] is called once: with a context and an active program
    this draws exactly one frame, with [iFrame = 0] and with [iTime] the
    advance of the clock between the first and the third reading of the
    call, tells every listener once, with that time and frame number 1,
    and leaves the frame count at 1; when the clock does not advance
    during the call, [iTime] and the time told are 0.  Without a program
    nothing is drawn and the frame count is 0. *)
Theorem restart_postcondition (w : World) :
  let w' := exec restart w in
  let w0 := restart_clock w in
  let t := seconds (clock (host w) (S (S (clockReads (host w)))) - next_now w) in
  (isPlaying (this w') = isPlaying (this w) /\
   pausedTime (this w') = 0%Z /\
   startTime (this w') = next_now w) /\
  match isPlaying (this w), renders w with
  | true, _ =>
      frameCount (this w') = 0%Z /\ draws w' = draws w /\
      st_time (eval getState w') = seconds (next_now w' - next_now w)
  | false, false =>
      frameCount (this w') = 0%Z /\ draws w' = draws w /\
      st_time (eval getState w') = seconds 0
  | false, true =>
      frameCount (this w') = 1%Z /\ draws w' = S (draws w) /\
      st_time (eval getState w') = seconds 0 /\
      exists p, program (this w) = Some p /\
        glLog (host w') = glLog (host w) ++ frame_commands w0 p /\
        In (Uniform1i p "iFrame" 0) (frame_commands w0 p) /\
        In (Uniform1f p "iTime" t) (frame_commands w0 p) /\
        delivered (host w') =
          delivered (host w)
          ++ map (fun l => (l, mkRendererEvent frame None
                                 (Some (mkRendererState false t 1
                                          (frame_fps w0)))))
               (eventListeners (this w)) /\
        (clock (host w) (S (S (clockReads (host w)))) = next_now w ->
         In (Uniform1f p "iTime" (seconds 0)) (frame_commands w0 p) /\
         delivered (host w') =
           delivered (host w)
           ++ map (fun l => (l, mkRendererEvent frame None
                                  (Some (mkRendererState false (seconds 0) 1
                                           (frame_fps w0)))))
                (eventListeners (this w)))
  end.
Proof.
  intros w' w0 t.
  assert (Hw' : w' = if isPlaying (this w) then w0 else rendered w0).
  { subst w' w0. unfold exec. rewrite restart_spec. reflexivity. }
  destruct (restart_clock_fields w)
    as (F1 & F2 & F3 & F4 & F5 & F6 & F7 & F8 & F9 & F10 & F11).
  fold w0 in F1, F2, F3, F4, F5, F6, F7, F8, F9, F10, F11.
  destruct (rendered_timeline w0) as (R1 & R2 & R3 & _).
  destruct (rendered_counts w0) as (R4 & R5).
  assert (Hr : renders w0 = renders w).
  { unfold renders. rewrite F2, F3. reflexivity. }
  rewrite Hr in R4, R5.
  destruct (isPlaying (this w)) eqn:Hp.
  - rewrite Hw'. repeat split; try assumption.
    rewrite getState_time, F1, F6. reflexivity.
  - assert (Hpaused : isPlaying (this w') = false).
    { rewrite Hw', R1. exact F1. }
    assert (Htime : st_time (eval getState w') = seconds 0).
    { rewrite getState_time, Hpaused, Hw', R3, F5. reflexivity. }
    split.
    { rewrite Hw', R1, R2, R3. repeat split; assumption. }
    destruct (renders w) eqn:Hd.
    + rewrite Hw'. rewrite R4, R5, F4, F7.
      split; [reflexivity|]. split; [lia|]. split; [rewrite <- Hw'; exact Htime|].
      unfold renders in Hd.
      destruct (gl (this w)) eqn:Hg; [|discriminate].
      destruct (program (this w)) as [p|] eqn:Hprog; [|discriminate].
      exists p. split; [reflexivity|].
      assert (Ht : seconds (next_now w0 - startTime (this w0)) = t).
      { rewrite F11, F6. reflexivity. }
      unfold rendered. rewrite F2, F3.
      unfold after_frame. cbn [host glLog delivered set_delivered set_glLog].
      rewrite F8, F9, F10.
      split; [reflexivity|].
      unfold frame_commands, frame_snapshot. rewrite Ht, F4, F1.
      split; [simpl; tauto|]. split; [simpl; tauto|].
      split; [reflexivity|].
      intros Hclock.
      assert (T0 : t = seconds 0).
      { unfold t. rewrite Hclock, Z.sub_diag. reflexivity. }
      rewrite T0. split; [simpl; tauto|reflexivity].
    + rewrite Hw'. rewrite R4, R5, F4, F7.
      split; [reflexivity|]. split; [lia|]. rewrite <- Hw'. exact Htime.
Qed.

(** ** The timeline as a transition system *)

Lemma play_counts (w : World) :
  let w' := exec play w in
  (frameCount (this w') = frameCount (this w) /\ draws w' = draws w) \/
  (frameCount (this w') = (frameCount (this w) + 1)%Z /\
   draws w' = S (draws w) /\ isPlaying (this w') = true).
Proof.
  unfold exec. rewrite play_spec. cbn [snd].
  destruct (isPlaying (this w)) eqn:Hp; [left; split; reflexivity|].
  destruct (scheduled_counts (rendered (play_clock w))) as (S1 & S2 & S3).
  destruct (rendered_counts (play_clock w)) as (R1 & R2).
  destruct (rendered_timeline (play_clock w)) as (T1 & _).
  rewrite S1, S2, S3, R1, R2, T1.
  change (frameCount (this (play_clock w))) with (frameCount (this w)).
  change (draws (play_clock w)) with (draws w).
  destruct (renders (play_clock w)); [right|left]; repeat split; lia.
Qed.

Lemma pause_counts (w : World) :
  frameCount (this (exec pause w)) = frameCount (this w) /\
  draws (exec pause w) = draws w.
Proof.
  unfold exec. rewrite pause_spec. unfold paused. cbn [snd].
  destruct (animationId (this w)); split; reflexivity.
Qed.

Lemma restart_counts (w : World) :
  let w' := exec restart w in
  (frameCount (this w') = 0%Z /\ draws w' = draws w) \/
  (frameCount (this w') = 1%Z /\ draws w' = S (draws w) /\
   isPlaying (this w) = false /\ isPlaying (this w') = false).
Proof.
  unfold exec. rewrite restart_spec. cbn [snd].
  destruct (isPlaying (this w)) eqn:Hp; [left; split; reflexivity|].
  destruct (rendered_counts (restart_clock w)) as (R1 & R2).
  destruct (rendered_timeline (restart_clock w)) as (T1 & _).
  rewrite R1, R2, T1.
  change (frameCount (this (restart_clock w))) with 0%Z.
  change (draws (restart_clock w)) with (draws w).
  change (isPlaying (this (restart_clock w))) with (isPlaying (this w)).
  destruct (renders (restart_clock w)); [right|left]; repeat split;
    try lia; assumption.
Qed.

Lemma animationFrame_counts (id : nat) (w : World) :
  let w' := exec (animationFrame id) w in
  (frameCount (this w') = frameCount (this w) /\ draws w' = draws w) \/
  (frameCount (this w') = (frameCount (this w) + 1)%Z /\
   draws w' = S (draws w) /\ isPlaying (this w') = true).
Proof.
  unfold exec. rewrite animationFrame_spec. cbn [snd].
  destruct (existsb (Nat.eqb id) (rafPending (host w)));
    [|left; split; reflexivity].
  cbv zeta.
  destruct (isPlaying (this w)) eqn:Hp; [|left; split; reflexivity].
  match goal with |- context [rendered ?x] =>
    destruct (scheduled_counts (rendered x)) as (S1 & S2 & S3);
    destruct (rendered_counts x) as (R1 & R2);
    destruct (rendered_timeline x) as (T1 & _);
    rewrite S1, S2, S3, R1, R2, T1;
    change (frameCount (this x)) with (frameCount (this w));
    change (draws x) with (draws w);
    change (isPlaying (this x)) with (isPlaying (this w));
    destruct (renders x)
  end; [right|left]; repeat split; try lia; assumption.
Qed.

Lemma compile_counts (src : string) (w : World) :
  let w' := exec (compile src ;; ret tt) w in
  frameCount (this w') = frameCount (this w) /\ draws w' = draws w /\
  isPlaying (this w') = isPlaying (this w).
Proof.
  assert (E : exec (compile src ;; ret tt) w = exec (compile src) w).
  { unfold exec, bind, ret. destruct (compile src w); reflexivity. }
  cbv zeta. rewrite E.
  destruct (compile_spec src w) as (_ & _ & Hr & Hd & _).
  unfold draws. rewrite Hd.
  destruct (this (exec (compile src) w)), (this w). simpl in *.
  inversion Hr. subst. repeat split.
Qed.

(** C7, against the claim as stated.  From a fresh renderer, a successful
    compile and then [restart]: the renderer is Paused before and after,
    and the frame count goes from 0 to 1. *)
Lemma frame_count_increases_while_paused :
  let w0 := fresh_world (fun _ => 0%Z) in
  let w := exec (step (OpCompile "void mainImage(out vec4 c, in vec2 p) {}")) w0 in
  let w' := exec (step OpRestart) w in
  isPlaying (this w) = false /\ isPlaying (this w') = false /\
  frameCount (this w) = 0%Z /\ frameCount (this w') = 1%Z /\
  (frameCount (this w) < frameCount (this w'))%Z.
Proof.
  vm_compute. repeat split.
Qed.

(** C7, as amended.  In every world, each step changes the frame counter
    in one of two ways only: [restart] first sets it to zero, and a frame
    rendered during the step adds exactly one (one draw call, one more
    frame).  A frame rendered by [play] or by the frame loop is rendered
    in the Playing state.  The one other source of a frame is [restart]
    called while Paused, which renders a single frame and stays Paused,
    so there the count goes from 0 to 1 while Paused.  [pause] and
    [compile] never render. *)
Theorem frame_count_per_step (w : World) (op : Op) :
  let w' := exec (step op) w in
  let base := match op with OpRestart => 0%Z | _ => frameCount (this w) end in
  (frameCount (this w') = base /\ draws w' = draws w) \/
  (frameCount (this w') = (base + 1)%Z /\ draws w' = S (draws w) /\
   match op with
   | OpPlay | OpFrame _ => isPlaying (this w') = true
   | OpRestart => isPlaying (this w) = false /\ isPlaying (this w') = false
   | OpPause | OpCompile _ => False
   end).
Proof.
  destruct op as [| | |id|src]; cbn [step].
  - apply play_counts.
  - left. apply pause_counts.
  - apply restart_counts.
  - apply animationFrame_counts.
  - left. destruct (compile_counts src w) as (H1 & H2 & _). split; assumption.
Qed.

(** While the renderer stays Paused, only [restart] can change the frame
    counter. *)
Lemma paused_frame_count (w : World) (op : Op) :
  op <> OpRestart ->
  isPlaying (this (exec (step op) w)) = false ->
  frameCount (this (exec (step op) w)) = frameCount (this w).
Proof.
  intros Hop Hp. destruct op as [| | |id|src]; cbn [step] in *.
  - destruct (play_counts w) as [[H _]|(_ & _ & H)]; [exact H|congruence].
  - apply pause_counts.
  - congruence.
  - destruct (animationFrame_counts id w) as [[H _]|(_ & _ & H)];
      [exact H|congruence].
  - apply compile_counts.
Qed.

(** ** Diagnostic translator *)

Local Open Scope string_scope.

Lemma parseInt_from_uint (d : Decimal.uint) :
  forall acc, Js.parseInt_from acc (DecimalString.NilEmpty.string_of_uint d)
              = uint_value acc d.
Proof.
  induction d; intros acc; simpl; try reflexivity; apply IHd.
Qed.

Lemma of_uint_acc_value (d : Decimal.uint) :
  forall acc, Zpos (Pos.of_uint_acc d acc) = uint_value (Zpos acc) d.
Proof.
  induction d; intros acc; cbn [Pos.of_uint_acc uint_value];
    try reflexivity; rewrite IHd; f_equal;
    rewrite ?Pos2Z.inj_add, ?Pos2Z.inj_mul; lia.
Qed.

Lemma of_uint_value (d : Decimal.uint) :
  Z.of_N (Pos.of_uint d) = uint_value 0 d.
Proof.
  induction d; simpl; try reflexivity; try exact IHd;
    rewrite of_uint_acc_value; reflexivity.
Qed.

Lemma parseInt_decimal (n : N) : Js.parseInt (decimal n) = Z.of_N n.
Proof.
  unfold Js.parseInt, decimal. rewrite parseInt_from_uint, <- of_uint_value.
  change (Pos.of_uint (N.to_uint n)) with (N.of_uint (N.to_uint n)).
  rewrite DecimalN.Unsigned.of_to. reflexivity.
Qed.

Lemma digits_of_uint (d : Decimal.uint) :
  all_chars Js.isDigit (DecimalString.NilEmpty.string_of_uint d) = true.
Proof. induction d; simpl; try reflexivity; exact IHd. Qed.

Lemma decimal_digits (n : N) :
  exists a s, decimal n = String a s /\ Js.isDigit a = true /\
              all_chars Js.isDigit s = true.
Proof.
  unfold decimal.
  assert (H := digits_of_uint (N.to_uint n)).
  destruct (DecimalString.NilEmpty.string_of_uint (N.to_uint n)) as [|a s] eqn:E.
  - exfalso. destruct n as [|p]; [discriminate E|].
    unfold N.to_uint in E.
    assert (Hp := DecimalPos.Unsigned.to_uint_nonnil p).
    destruct (Pos.to_uint p); try discriminate E. apply Hp. reflexivity.
  - exists a, s. simpl in H. apply andb_true_iff in H. destruct H.
    repeat split; assumption.
Qed.

Lemma append_empty_r (s : string) : s ++ "" = s.
Proof. induction s as [|a s IH]; simpl; [reflexivity|]. rewrite IH. reflexivity. Qed.

Lemma append_assoc_string (s t u : string) : (s ++ t) ++ u = s ++ (t ++ u).
Proof. induction s as [|a s IH]; simpl; [reflexivity|]. rewrite IH. reflexivity. Qed.

(** The matcher on a subject that starts with a run of the class. *)
Section Greedy.
Variable A : Type.
Variable c : ascii -> bool.

Lemma lit_prefix (p : string) (k : string -> option A) (s : string) :
  Regex.lit p k (p ++ s) = k s.
Proof.
  induction p as [|a p IH]; simpl; [reflexivity|].
  rewrite Ascii.eqb_refl. exact IH.
Qed.

Lemma star_stops (k : string -> option A) (a : ascii) (s : string) :
  c a = false -> Regex.star c k (String a s) = k (String a s).
Proof. intros H. simpl. rewrite H. reflexivity. Qed.

Lemma lit_char (a : ascii) (k : string -> option A) (s : string) :
  Regex.lit (String a "") k (String a s) = k s.
Proof. simpl. rewrite Ascii.eqb_refl. reflexivity. Qed.

Lemma star_cap_stops (k : string -> string -> option A) (acc : string)
  (a : ascii) (s : string) :
  c a = false -> Regex.star_cap c k acc (String a s) = k acc (String a s).
Proof. intros H. simpl. rewrite H. reflexivity. Qed.

Lemma star_greedy (k : string -> option A) (d rest : string) (r : A) :
  all_chars c d = true ->
  Regex.star c k rest = Some r ->
  Regex.star c k (d ++ rest) = Some r.
Proof.
  intros Hd Hk. induction d as [|a d IH]; simpl in *; [exact Hk|].
  apply andb_true_iff in Hd. destruct Hd as [Ha Hd].
  rewrite Ha, (IH Hd). reflexivity.
Qed.

Lemma star_cap_greedy (k : string -> string -> option A) (d : string) :
  forall (acc rest : string) (r : A),
  all_chars c d = true ->
  Regex.star_cap c k (acc ++ d) rest = Some r ->
  Regex.star_cap c k acc (d ++ rest) = Some r.
Proof.
  induction d as [|a d IH]; intros acc rest r Hd Hk; simpl in *.
  - rewrite append_empty_r in Hk. exact Hk.
  - apply andb_true_iff in Hd. destruct Hd as [Ha Hd].
    rewrite Ha. rewrite (IH (acc ++ String a "") rest r Hd); [reflexivity|].
    rewrite append_assoc_string. exact Hk.
Qed.

(** Conversely, whatever the combinators accept has the shape of the
    pattern. *)
Lemma lit_inv (p : string) (k : string -> option A) (s : string) (r : A) :
  Regex.lit p k s = Some r -> exists rest, s = p ++ rest /\ k rest = Some r.
Proof.
  revert s. induction p as [|a p IH]; intros s H; simpl in H.
  - exists s. split; [reflexivity|exact H].
  - destruct s as [|b s]; [discriminate H|].
    destruct (Ascii.eqb a b) eqn:E; [|discriminate H].
    apply Ascii.eqb_eq in E. subst b.
    destruct (IH s H) as (rest & Hs & Hk). exists rest.
    split; [simpl; rewrite Hs; reflexivity|exact Hk].
Qed.

Lemma star_inv (k : string -> option A) (s : string) (r : A) :
  Regex.star c k s = Some r ->
  exists d rest, s = d ++ rest /\ all_chars c d = true /\ k rest = Some r.
Proof.
  induction s as [|a s IH]; intros H; simpl in H.
  - exists "", "". repeat split. exact H.
  - destruct (c a) eqn:Ha.
    + destruct (Regex.star c k s) as [r'|] eqn:E.
      * inversion H. subst r'.
        destruct (IH eq_refl) as (d & rest & Hs & Hd & Hk).
        exists (String a d), rest. simpl. rewrite Ha, Hd, Hs.
        repeat split. exact Hk.
      * exists "", (String a s). repeat split. exact H.
    + exists "", (String a s). repeat split. exact H.
Qed.

Lemma plus_inv (k : string -> option A) (s : string) (r : A) :
  Regex.plus c k s = Some r ->
  exists a d rest, s = String a (d ++ rest) /\ c a = true /\
                   all_chars c d = true /\ k rest = Some r.
Proof.
  unfold Regex.plus. destruct s as [|a s]; [discriminate|].
  destruct (c a) eqn:Ha; [|discriminate]. intros H.
  destruct (star_inv _ _ H) as (d & rest & Hs & Hd & Hk).
  exists a, d, rest. rewrite Hs. repeat split; assumption.
Qed.

Lemma star_cap_inv (k : string -> string -> option A) (s : string) :
  forall (acc : string) (r : A),
  Regex.star_cap c k acc s = Some r ->
  exists d rest, s = d ++ rest /\ all_chars c d = true /\
                 k (acc ++ d) rest = Some r.
Proof.
  induction s as [|a s IH]; intros acc r H; simpl in H.
  - exists "", "". rewrite (append_empty_r acc). repeat split. exact H.
  - destruct (c a) eqn:Ha.
    + destruct (Regex.star_cap c k (acc ++ String a "") s) as [r'|] eqn:E.
      * inversion H. subst r'.
        destruct (IH _ _ E) as (d & rest & Hs & Hd & Hk).
        exists (String a d), rest. simpl. rewrite Ha, Hd, Hs.
        repeat split. rewrite append_assoc_string in Hk. exact Hk.
      * exists "", (String a s). rewrite (append_empty_r acc).
        repeat split. exact H.
    + exists "", (String a s). rewrite (append_empty_r acc).
      repeat split. exact H.
Qed.

Lemma plus_cap_inv (k : string -> string -> option A) (s : string) (r : A) :
  Regex.plus_cap c k s = Some r ->
  exists a d rest, s = String a (d ++ rest) /\ c a = true /\
                   all_chars c d = true /\ k (String a d) rest = Some r.
Proof.
  unfold Regex.plus_cap. destruct s as [|a s]; [discriminate|].
  destruct (c a) eqn:Ha; [|discriminate]. intros H.
  destruct (star_cap_inv _ _ _ H) as (d & rest & Hs & Hd & Hk).
  exists a, d, rest. rewrite Hs. repeat split; assumption.
Qed.

End Greedy.

(** The first capture of a match is a non-empty run of decimal digits, the
    second a non-empty run without line terminators. *)
Lemma exec_at_captures (s g1 g2 : string) :
  Regex.exec_at s = Some (g1, g2) ->
  (exists a d, g1 = String a d /\ all_chars Js.isDigit g1 = true) /\
  (exists b e, g2 = String b e /\ all_chars Js.isDot g2 = true).
Proof.
  unfold Regex.exec_at. intros H.
  apply lit_inv in H. destruct H as (s1 & _ & H).
  apply star_inv in H. destruct H as (_ & s2 & _ & _ & H).
  apply plus_inv in H. destruct H as (_ & _ & s3 & _ & _ & _ & H).
  apply lit_inv in H. destruct H as (s4 & _ & H).
  apply plus_cap_inv in H. destruct H as (a & d & s5 & _ & Ha & Hd & H).
  apply lit_inv in H. destruct H as (s6 & _ & H).
  apply star_inv in H. destruct H as (_ & s7 & _ & _ & H).
  apply plus_cap_inv in H. destruct H as (b & e & s8 & _ & Hb & He & H).
  inversion H. subst g1 g2. split.
  - exists a, d. split; [reflexivity|]. simpl. rewrite Ha, Hd. reflexivity.
  - exists b, e. split; [reflexivity|]. simpl. rewrite Hb, He. reflexivity.
Qed.

Lemma exec_captures (s g1 g2 : string) :
  Regex.exec s = Some (g1, g2) ->
  (exists a d, g1 = String a d /\ all_chars Js.isDigit g1 = true) /\
  (exists b e, g2 = String b e /\ all_chars Js.isDot g2 = true).
Proof.
  induction s as [|c s IH]; cbn [Regex.exec];
    destruct (Regex.exec_at _) as [[h1 h2]|] eqn:E; intros H;
    try discriminate H.
  - inversion H. subst. exact (exec_at_captures _ E).
  - inversion H. subst. exact (exec_at_captures _ E).
  - exact (IH H).
Qed.

Lemma exec_at_diagnostic (id n : N) (msg : string) :
  plain_message msg = true ->
  Regex.exec_at (diagnostic id n msg) = Some (decimal n, msg).
Proof.
  intros Hm. unfold diagnostic, Regex.exec_at.
  change ("ERROR: " ++ decimal id ++ ":" ++ decimal n ++ ": " ++ msg)
    with ("ERROR:" ++ " " ++ decimal id ++ ":" ++ decimal n ++ ": " ++ msg).
  rewrite lit_prefix.
  destruct (decimal_digits id) as (a & ds & Eid & Ha & Hds).
  destruct (decimal_digits n) as (b & es & En & Hb & Hes).
  destruct msg as [|m ms]; [discriminate Hm|].
  simpl in Hm. apply andb_true_iff in Hm. destruct Hm as [Hvis Hdot].
  apply negb_true_iff in Hvis.
  apply andb_true_iff in Hdot. destruct Hdot as [Hm0 Hms].
  apply star_greedy; [reflexivity|].
  rewrite Eid. cbn [append].
  assert (Hsp : forall x, Js.isDigit x = true -> Js.isSpace x = false).
  { intros x. unfold Js.isDigit, Js.isSpace, Js.isWhiteSpace, Js.isLineTerminator.
    destruct x as [[] [] [] [] [] [] [] []]; reflexivity || discriminate. }
  rewrite star_stops by (apply Hsp; exact Ha).
  unfold Regex.plus. rewrite Ha.
  apply star_greedy; [exact Hds|].
  rewrite star_stops by reflexivity.
  rewrite lit_char. rewrite En. cbn [append].
  unfold Regex.plus_cap at 1. rewrite Hb.
  apply star_cap_greedy; [exact Hes|].
  rewrite star_cap_stops by reflexivity.
  rewrite lit_char.
  apply (star_greedy Js.isSpace _ " "); [reflexivity|].
  rewrite star_stops by exact Hvis.
  unfold Regex.plus_cap. rewrite Hm0.
  rewrite <- (append_empty_r ms) at 1.
  apply star_cap_greedy; [exact Hms|]. reflexivity.
Qed.

Lemma all_chars_app (c : ascii -> bool) (s t : string) :
  all_chars c (s ++ t) = (all_chars c s && all_chars c t)%bool.
Proof.
  induction s as [|a s IH]; simpl; [reflexivity|].
  rewrite IH, andb_assoc. reflexivity.
Qed.

Lemma all_chars_weaken (c c' : ascii -> bool) (s : string) :
  (forall a, c a = true -> c' a = true) ->
  all_chars c s = true -> all_chars c' s = true.
Proof.
  intros Hc. induction s as [|a s IH]; simpl; [reflexivity|].
  intros H. apply andb_true_iff in H. destruct H as [Ha Hs].
  rewrite (Hc a Ha), (IH Hs). reflexivity.
Qed.

Lemma split_lines_one (s : string) :
  all_chars notLF s = true -> Js.split_lines s = [s].
Proof.
  induction s as [|a s IH]; simpl; [reflexivity|].
  intros H. apply andb_true_iff in H. destruct H as [Ha Hs].
  unfold notLF in Ha. apply negb_true_iff in Ha. rewrite Ha, (IH Hs).
  reflexivity.
Qed.

Lemma split_lines_cons (l rest : string) :
  all_chars notLF l = true ->
  Js.split_lines (l ++ String Js.LF rest) = l :: Js.split_lines rest.
Proof.
  induction l as [|a l IH]; simpl; [reflexivity|].
  intros H. apply andb_true_iff in H. destruct H as [Ha Hl].
  unfold notLF in Ha. apply negb_true_iff in Ha. rewrite Ha, (IH Hl).
  reflexivity.
Qed.

(** In a log of several lines, each line is translated on its own, in
    order. *)
Lemma parseErrors_cons (l rest : string) :
  all_chars notLF l = true ->
  parseErrors (l ++ String Js.LF rest)
  = (parseErrorLine l ++ parseErrors rest)%list.
Proof.
  intros H. unfold parseErrors. rewrite (split_lines_cons _ _ H). reflexivity.
Qed.

Lemma digit_notLF (a : ascii) : Js.isDigit a = true -> notLF a = true.
Proof.
  destruct a as [[] [] [] [] [] [] [] []]; reflexivity || discriminate.
Qed.

Lemma dot_notLF (a : ascii) : Js.isDot a = true -> notLF a = true.
Proof.
  unfold Js.isDot, Js.isLineTerminator, notLF. intros H.
  apply negb_true_iff in H. apply orb_false_iff in H. destruct H as [H _].
  rewrite H. reflexivity.
Qed.

Lemma decimal_notLF (n : N) : all_chars notLF (decimal n) = true.
Proof.
  apply (all_chars_weaken Js.isDigit); [exact digit_notLF|].
  apply digits_of_uint.
Qed.

Lemma diagnostic_notLF (id n : N) (msg : string) :
  plain_message msg = true -> all_chars notLF (diagnostic id n msg) = true.
Proof.
  intros Hm. unfold diagnostic.
  rewrite !all_chars_app, !decimal_notLF.
  destruct msg as [|m ms]; [discriminate Hm|].
  unfold plain_message in Hm. apply andb_true_iff in Hm. destruct Hm as [_ Hm].
  rewrite (all_chars_weaken Js.isDot notLF _ dot_notLF Hm). reflexivity.
Qed.

Lemma exec_leftmost (s : string) (r : string * string) :
  Regex.exec_at s = Some r -> Regex.exec s = Some r.
Proof.
  intros H. destruct s; cbn [Regex.exec]; rewrite H; reflexivity.
Qed.

(** What the translator makes of one well-formed diagnostic line: the
    reported line number minus the literal 16, at least 1. *)
Lemma parseErrorLine_diagnostic (id n : N) (msg : string) :
  plain_message msg = true ->
  parseErrorLine (diagnostic id n msg) =
  [ {| line := Z.max 1 (Z.of_N n - WRAPPER_OFFSET); message := Js.trim msg |} ].
Proof.
  intros Hm. unfold parseErrorLine.
  assert (E : Regex.exec (diagnostic id n msg) = Some (decimal n, msg)).
  { apply exec_leftmost. exact (exec_at_diagnostic id n msg Hm). }
  rewrite E, parseInt_decimal. reflexivity.
Qed.

Lemma parseErrors_diagnostic (id n : N) (msg : string) :
  plain_message msg = true ->
  parseErrors (diagnostic id n msg) =
  [ {| line := Z.max 1 (Z.of_N n - WRAPPER_OFFSET); message := Js.trim msg |} ].
Proof.
  intros Hm. unfold parseErrors.
  rewrite (split_lines_one _ (diagnostic_notLF id n msg Hm)). simpl.
  rewrite (parseErrorLine_diagnostic id n msg Hm). reflexivity.
Qed.

(** Every record the translator produces has a line of at least 1. *)
Lemma parseErrors_clamped (errorLog : string) (e : CompilationError) :
  In e (parseErrors errorLog) -> (1 <= line e)%Z.
Proof.
  unfold parseErrors. intros H. apply in_flat_map in H.
  destruct H as (l & _ & H). unfold parseErrorLine in H.
  destruct (Regex.exec l) as [[g1 g2]|]; [|contradiction].
  destruct H as [H|[]]. subst e. simpl. lia.
Qed.

(** Where the user code lands in the assembled source. *)
Lemma count_LF_app (s t : string) :
  Js.count_LF (s ++ t) = (Js.count_LF s + Js.count_LF t)%nat.
Proof.
  induction s as [|a s IH]; simpl; [reflexivity|]. rewrite IH. lia.
Qed.

Lemma substring_prefix_app (s t : string) (i : nat) :
  substring 0 (String.length s + i) (s ++ t) = s ++ substring 0 i t.
Proof.
  induction s as [|a s IH]; simpl; [reflexivity|]. rewrite IH. reflexivity.
Qed.

Lemma substring_within (s t : string) :
  forall i, (i <= String.length s)%nat ->
  substring 0 i (s ++ t) = substring 0 i s.
Proof.
  induction s as [|a s IH]; intros i Hi; simpl in *.
  - assert (i = 0%nat) by lia. subst i. destruct t; reflexivity.
  - destruct i as [|i]; [reflexivity|]. rewrite IH by lia. reflexivity.
Qed.

(** The character at offset [i] of the user code lies [header_len] lines
    further down in the assembled fragment source. *)
Lemma user_line_in_assembled_source (userCode : string) (i : nat) :
  (i <= String.length userCode)%nat ->
  line_of_offset (createFragmentShader userCode)
    (String.length fragmentPreamble + i)
  = (header_len + line_of_offset userCode i)%Z.
Proof.
  intros Hi. unfold line_of_offset, createFragmentShader, header_len.
  rewrite substring_prefix_app, count_LF_app, substring_within by exact Hi.
  lia.
Qed.

(** C1.  The code against the claimed line mapping.  The assembler puts
    22 lines before the user code, so the first user line is line 23 of
    the assembled source, but the translator subtracts 16: a diagnostic
    for assembled line 23 = header_len + 1 is reported at user line 7,
    not 1, and one for line 40 = header_len + 18 at line 24, not 18.
    The clamp itself works: line 5 of the wrapper is reported at 1. *)
Theorem parseErrors_offset_mismatch :
  header_len = 22%Z /\
  WRAPPER_OFFSET = 16%Z /\
  line_of_offset (createFragmentShader "void mainImage(){}")
    (String.length fragmentPreamble) = 23%Z /\
  parseErrors "ERROR: 0:23: 'x' : undeclared identifier"
    = [ {| line := 7; message := "'x' : undeclared identifier" |} ] /\
  parseErrors "ERROR: 0:40: 'y' : syntax error"
    = [ {| line := 24; message := "'y' : syntax error" |} ] /\
  parseErrors "ERROR: 0:5: 'z' : redefinition"
    = [ {| line := 1; message := "'z' : redefinition" |} ].
Proof.
  repeat split; vm_compute; reflexivity.
Qed.

(** For every user line [k >= 1], the translated line is [k + 6]. *)
Lemma translated_line_is_six_late (id : N) (k : N) (msg : string) :
  plain_message msg = true -> (1 <= k)%N ->
  parseErrors (diagnostic id (Z.to_N header_len + k) msg) =
  [ {| line := Z.of_N k + 6; message := Js.trim msg |} ].
Proof.
  intros Hm Hk. rewrite (parseErrors_diagnostic _ _ _ Hm).
  f_equal. f_equal. change header_len with 22%Z. unfold WRAPPER_OFFSET. lia.
Qed.

Local Close Scope string_scope.

(** ** Frame snapshots *)

(** The frame rate is measured per frame and handed to the listeners in
    the frame event: every listener receives the snapshot of the frame,
    whose [fps] is the reciprocal of the time since the previous frame,
    or 60 when that time is not positive. *)
Lemma frame_event_carries_fps (w : World) (p : Handle) :
  gl (this w) = true -> program (this w) = Some p ->
  delivered (host (exec renderFrame w)) =
  delivered (host w)
  ++ map (fun l => (l, mkRendererEvent frame None (Some (frame_snapshot w))))
       (eventListeners (this w)) /\
  st_fps (frame_snapshot w) = frame_fps w.
Proof.
  intros Hg Hp. unfold exec. rewrite (renderFrame_runs w Hg Hp).
  split; reflexivity.
Qed.

(** ** Instances *)

Lemma compile_failure_keeps_active_program_witness :
  let w0 := mkWorld (new_WebGLRenderer 640 360 (Some 0%nat)) picky_host in
  let w := exec (compile "void mainImage(out vec4 c, in vec2 p) { c = vec4(1.0); }") w0 in
  let w' := exec (compile "void mainImage(out vec4 c, in vec2 p) { c = x; }") w in
  shaderStatus (host w) (S (nextHandle (host w))) = false /\
  eval (compile "void mainImage(out vec4 c, in vec2 p) { c = x; }") w = false /\
  program (this w') = Some 3%nat.
Proof.
  intros w0 w w'.
  assert (Hfail : shaderStatus (host w) (S (nextHandle (host w))) = false)
    by (vm_compute; reflexivity).
  destruct (@compile_failure_keeps_active_program w
              "void mainImage(out vec4 c, in vec2 p) { c = x; }"
              (or_introl Hfail)) as (H1 & H2 & H3 & H4).
  split; [exact Hfail|]. split; [exact H1|].
  destruct (H4 w0 "void mainImage(out vec4 c, in vec2 p) { c = vec4(1.0); }"%string
              eq_refl) as [H5 _].
  - vm_compute. reflexivity.
  - exact H5.
Defined.

Lemma resume_continuity_witness :
  let w := fresh_world (readings [1000; 1000; 1500; 5000; 5000; 5000])%Z in
  isPlaying (this w) = false /\
  st_time (eval getState (exec play (exec pause (exec play w)))) = seconds 500.
Proof.
  intros w. split; [reflexivity|].
  assert (Hd : (0 <= next_now (exec (forEach [] animationFrame) (exec play w))
                     - startTime (this (exec (forEach [] animationFrame)
                                          (exec play w))))%Z)
    by (vm_compute; discriminate).
  destruct (@resume_continuity w [] eq_refl Hd) as (_ & _ & _ & _ & H).
  apply H. vm_compute. reflexivity.
Defined.

Lemma restart_postcondition_witness :
  let w := exec (compile "void mainImage(out vec4 c, in vec2 p) { c = vec4(1.0); }")
             (fresh_world (fun _ => 0%Z)) in
  clock (host w) (S (S (clockReads (host w)))) = next_now w /\
  frameCount (this (exec restart w)) = 1%Z /\
  draws (exec restart w) = S (draws w) /\
  exists p, In (Uniform1f p "iTime" (seconds 0))
              (frame_commands (restart_clock w) p).
Proof.
  intros w.
  assert (Hc : clock (host w) (S (S (clockReads (host w)))) = next_now w)
    by reflexivity.
  split; [exact Hc|].
  destruct (@restart_postcondition w) as [_ H].
  change (isPlaying (this w)) with false in H.
  change (renders w) with true in H.
  destruct H as (H1 & H2 & _ & p & _ & _ & _ & _ & _ & H3).
  split; [exact H1|]. split; [exact H2|].
  exists p. exact (proj1 (H3 Hc)).
Defined.

(** * Further properties of the renderer *)

(** ** Compilation: resources and reports *)

Ltac compile_host_done :=
  unfold compile_host_post, shaders_after, console_after, vertex_ok,
    fragment_ok, link_ok;
  cbn [this host]; wp_norm;
  repeat match goal with H : _ = _ |- _ => rewrite H end;
  cbn [andb negb];
  repeat split; try reflexivity; try discriminate.

Lemma compile_host_spec (src : string) (w : World) :
  compile_host_post w (eval (compile src) w) (exec (compile src) w).
Proof.
  apply (@wp_intro _ (compile src) (compile_host_post w) w).
  destruct w as [[] []].
  unfold compile, createShader, createProgram, fresh_handle, deleteShader,
    deleteProgram, console, gl_call.
  wp_run.
  match goal with |- context [negb ?b] => wp_case b end; [|compile_host_done].
  match goal with |- context [createOk0 ?n] => wp_case (createOk0 n) end;
    [|compile_host_done].
  match goal with |- context [shaderStatus0 ?n] => wp_case (shaderStatus0 n) end;
    [|compile_host_done].
  match goal with |- context [createOk0 (S ?n)] => wp_case (createOk0 (S n)) end;
    [|compile_host_done].
  match goal with |- context [shaderStatus0 (S ?n)] =>
    wp_case (shaderStatus0 (S n)) end; [|compile_host_done].
  match goal with |- context [createOk0 (S (S ?n))] =>
    wp_case (createOk0 (S (S n))) end; [|compile_host_done].
  match goal with |- context [programStatus0 (S (S ?n))] =>
    wp_case (programStatus0 (S (S n))) end; [|compile_host_done].
  match goal with |- context [match ?p with Some _ => _ | None => _ end] =>
    wp_case p end; compile_host_done.
Qed.

(** ** What each action leaves alone *)

Lemma rendered_fields (w : World) :
  isPlaying (this (rendered w)) = isPlaying (this w) /\
  animationId (this (rendered w)) = animationId (this w) /\
  rafPending (host (rendered w)) = rafPending (host w) /\
  rafNext (host (rendered w)) = rafNext (host w) /\
  liveShaders (host (rendered w)) = liveShaders (host w) /\
  livePrograms (host (rendered w)) = livePrograms (host w) /\
  program (this (rendered w)) = program (this w) /\
  nextHandle (host (rendered w)) = nextHandle (host w).
Proof.
  unfold rendered.
  destruct (gl (this w)); [destruct (program (this w)) eqn:Hp|];
    simpl; rewrite ?Hp; repeat split; reflexivity.
Qed.

Lemma rendered_frame (w : World) :
  loop_state (rendered w) = loop_state w /\ objects (rendered w) = objects w.
Proof.
  destruct (rendered_fields w) as (H1 & H2 & H3 & _ & H5 & H6 & H7 & H8).
  unfold loop_state, objects. rewrite H1, H2, H3, H5, H6, H7, H8.
  split; reflexivity.
Qed.

Lemma scheduled_rendered_frame (w : World) :
  objects (scheduled (rendered w)) = objects w /\
  loop_state (scheduled (rendered w)) =
    (isPlaying (this w), Some (rafNext (host w)),
     rafPending (host w) ++ [rafNext (host w)]).
Proof.
  destruct (rendered_fields w) as (H1 & H2 & H3 & H4 & H5 & H6 & H7 & H8).
  unfold loop_state, objects, scheduled.
  cbn [this host isPlaying animationId program set_animationId
       rafPending liveShaders livePrograms nextHandle set_rafPending
       set_rafNext].
  rewrite H1, H3, H4, H5, H6, H7, H8. split; reflexivity.
Qed.

Lemma exec_unit_ret {A} (c : M A) (w : World) :
  exec (c ;; ret tt) w = exec c w.
Proof. unfold exec, bind, ret. destruct (c w); reflexivity. Qed.

Lemma play_frame (w : World) :
  objects (exec play w) = objects w /\
  loop_state (exec play w) =
    if isPlaying (this w) then loop_state w
    else (true, Some (rafNext (host w)), rafPending (host w) ++ [rafNext (host w)]).
Proof.
  unfold exec. rewrite play_spec. cbn [snd].
  destruct (isPlaying (this w)); [split; reflexivity|].
  destruct (scheduled_rendered_frame (play_clock w)) as [O L].
  rewrite O, L. split; reflexivity.
Qed.

Lemma pause_frame (w : World) :
  objects (exec pause w) = objects w /\
  loop_state (exec pause w) =
    match animationId (this w) with
    | Some i => (false, None, remove_handle i (rafPending (host w)))
    | None => (false, None, rafPending (host w))
    end.
Proof.
  unfold exec. rewrite pause_spec. unfold paused, loop_state, objects.
  cbn [snd]. destruct (animationId (this w)) eqn:E; simpl; rewrite ?E;
    split; reflexivity.
Qed.

Lemma restart_frame (w : World) :
  objects (exec restart w) = objects w /\
  loop_state (exec restart w) = loop_state w.
Proof.
  unfold exec. rewrite restart_spec. cbn [snd].
  destruct (isPlaying (this w)) eqn:Hp.
  - unfold loop_state, objects. simpl. rewrite Hp. split; reflexivity.
  - destruct (rendered_frame (restart_clock w)) as [L O]. rewrite L, O.
    unfold loop_state, objects. simpl. rewrite Hp. split; reflexivity.
Qed.

Lemma animationFrame_frame (id : nat) (w : World) :
  objects (exec (animationFrame id) w) = objects w /\
  loop_state (exec (animationFrame id) w) =
    if existsb (Nat.eqb id) (rafPending (host w)) then
      if isPlaying (this w)
      then (true, Some (rafNext (host w)),
            remove_handle id (rafPending (host w)) ++ [rafNext (host w)])
      else (false, animationId (this w), remove_handle id (rafPending (host w)))
    else loop_state w.
Proof.
  unfold exec. rewrite animationFrame_spec. cbn [snd].
  destruct (existsb (Nat.eqb id) (rafPending (host w))); [|split; reflexivity].
  cbv zeta. destruct (isPlaying (this w)) eqn:Hp.
  - match goal with |- context [rendered ?x] =>
      destruct (scheduled_rendered_frame x) as [O L]
    end.
    rewrite O, L. simpl. rewrite Hp. split; reflexivity.
  - unfold loop_state, objects. simpl. rewrite Hp. split; reflexivity.
Qed.

Lemma compile_frame (src : string) (w : World) :
  loop_state (exec (compile src) w) = loop_state w.
Proof.
  destruct (compile_spec src w) as (_ & _ & Hr & _).
  destruct (compile_host_spec src w) as (_ & _ & Hp & _).
  unfold loop_state. rewrite Hp.
  destruct (this (exec (compile src) w)), (this w). simpl in *.
  inversion Hr. reflexivity.
Qed.

Lemma dispose_spec (w : World) :
  exec dispose w =
  match gl (this w), program (this w) with
  | true, Some p =>
      mkWorld (this (paused w))
        (set_livePrograms (remove_handle p (livePrograms (host (paused w))))
           (set_glLog (glLog (host (paused w)) ++ [DeleteProgram p])
              (host (paused w))))
  | _, _ => paused w
  end.
Proof.
  unfold exec, dispose. unfold bind at 1. rewrite pause_spec.
  unfold bind, field, deleteProgram, gl_call, effect, ret.
  assert (G : gl (this (paused w)) = gl (this w))
    by (unfold paused; destruct (animationId (this w)); reflexivity).
  assert (P : program (this (paused w)) = program (this w))
    by (unfold paused; destruct (animationId (this w)); reflexivity).
  rewrite G, P.
  destruct (gl (this w)); [destruct (program (this w))|]; reflexivity.
Qed.

Lemma dispose_frame (w : World) :
  loop_state (exec dispose w) = loop_state (exec pause w) /\
  liveShaders (host (exec dispose w)) = liveShaders (host w) /\
  program (this (exec dispose w)) = program (this w) /\
  nextHandle (host (exec dispose w)) = nextHandle (host w) /\
  livePrograms (host (exec dispose w)) =
    match gl (this w), program (this w) with
    | true, Some p => remove_handle p (livePrograms (host w))
    | _, _ => livePrograms (host w)
    end.
Proof.
  rewrite dispose_spec. unfold exec at 1. rewrite pause_spec. cbn [snd].
  assert (O : objects (paused w) = objects w).
  { destruct (pause_frame w) as [O _]. unfold exec in O.
    rewrite pause_spec in O. exact O. }
  unfold objects in O. injection O as O1 O2 O3 O4.
  destruct (gl (this w)); [destruct (program (this w)) eqn:Hp|];
    unfold loop_state; cbn [this host]; wp_norm;
    rewrite ?O1, ?O2, ?O3, ?O4; repeat split; reflexivity.
Qed.

(** The actions that neither touch GL objects nor the frame loop. *)
Lemma plain_action_frame (a : Action) (w : World) :
  match a with
  | AResize _ _ | AGetState | AOn _ | AOff _
  | AMouseDown _ _ | AMouseMove _ _ | AMouseUp | AMouseLeave =>
      loop_state (exec (act a) w) = loop_state w /\
      objects (exec (act a) w) = objects w
  | _ => True
  end.
Proof.
  destruct a; try exact I; cbn [act]; rewrite ?exec_unit_ret.
  - unfold exec, resize, bind, assign, field, gl_call, effect, ret. simpl.
    destruct (gl (this w)); split; reflexivity.
  - unfold exec, getState, bind, field, performance_now, ask, effect, ret.
    simpl. destruct (isPlaying (this w)); split; reflexivity.
  - split; reflexivity.
  - split; reflexivity.
  - split; reflexivity.
  - unfold exec, on_mousemove, bind, field, assign, ret. simpl.
    destruct (isMouseDown (this w)); split; reflexivity.
  - split; reflexivity.
  - split; reflexivity.
Qed.

(** ** The frame loop *)

Lemma exec_forEach_cons {A} (x : A) (l : list A) (body : A -> M unit) (w : World) :
  exec (forEach (x :: l) body) w = exec (forEach l body) (exec (body x) w).
Proof.
  unfold exec. simpl. unfold bind. destruct (body x w); reflexivity.
Qed.

Lemma remove_handle_self (i : nat) : remove_handle i [i] = [].
Proof. unfold remove_handle. simpl. rewrite Nat.eqb_refl. reflexivity. Qed.

Lemma remove_handle_fresh (n : nat) (l : list nat) :
  (forall h, In h l -> h <> n) -> remove_handle n l = l.
Proof.
  induction l as [|x l IH]; intros H; simpl; [reflexivity|].
  destruct (Nat.eqb_spec x n) as [E|E].
  - exfalso. apply (H x); [left; reflexivity|exact E].
  - simpl. rewrite IH; [reflexivity|]. intros h Hh. apply H. right. exact Hh.
Qed.

Lemma loop_ok_state (w w' : World) :
  loop_state w' = loop_state w -> loop_ok w -> loop_ok w'.
Proof.
  unfold loop_state, loop_ok. intros E. injection E as E1 E2 E3.
  rewrite E1, E2, E3. exact (fun H => H).
Qed.

Lemma loop_ok_of_state (w : World) (b : bool) (a : option nat) (l : list nat) :
  loop_state w = (b, a, l) ->
  (if b then exists id, a = Some id /\ l = [id] else l = []) ->
  loop_ok w.
Proof.
  unfold loop_state, loop_ok. intros E. injection E as E1 E2 E3.
  rewrite E1, E2, E3. exact (fun H => H).
Qed.

Lemma loop_ok_pause (w : World) : loop_ok w -> loop_ok (exec pause w).
Proof.
  intros H. destruct (pause_frame w) as [_ L]. unfold loop_ok in H.
  destruct (isPlaying (this w)).
  - destruct H as (id & Ha & Hp). rewrite Ha, Hp, remove_handle_self in L.
    exact (@loop_ok_of_state _ _ _ _ L eq_refl).
  - rewrite H in L. destruct (animationId (this w));
      exact (@loop_ok_of_state _ _ _ _ L eq_refl).
Qed.

Lemma loop_ok_plain (a : Action) (w : World) :
  match a with
  | AResize _ _ | AGetState | AOn _ | AOff _
  | AMouseDown _ _ | AMouseMove _ _ | AMouseUp | AMouseLeave =>
      loop_ok w -> loop_ok (exec (act a) w)
  | _ => True
  end.
Proof.
  assert (P := plain_action_frame a w).
  destruct a; try exact I; intros H;
    exact (@loop_ok_state w _ (proj1 P) H).
Qed.

Lemma loop_ok_act (a : Action) (w : World) :
  loop_ok w -> loop_ok (exec (act a) w).
Proof.
  intros H.
  destruct a as [ | | | |src|wd ht| |l|l|id|e rect|e rect| | ].
  - (* play *)
    cbn [act]. destruct (play_frame w) as [_ L]. unfold loop_ok in H.
    destruct (isPlaying (this w)) eqn:Hp.
    + apply (@loop_ok_state w _ L). unfold loop_ok. rewrite Hp. exact H.
    + rewrite H in L. apply (@loop_ok_of_state _ _ _ _ L).
      exists (rafNext (host w)). split; reflexivity.
  - cbn [act]. apply loop_ok_pause. exact H.
  - cbn [act]. apply (@loop_ok_state w); [apply restart_frame|exact H].
  - (* dispose *)
    cbn [act]. destruct (dispose_frame w) as [L _].
    apply (@loop_ok_state (exec pause w) _ L). apply loop_ok_pause. exact H.
  - cbn [act]. rewrite exec_unit_ret.
    apply (@loop_ok_state w); [apply compile_frame|exact H].
  - exact (loop_ok_plain (AResize wd ht) w H).
  - exact (loop_ok_plain AGetState w H).
  - exact (loop_ok_plain (AOn l) w H).
  - exact (loop_ok_plain (AOff l) w H).
  - (* animation frame *)
    cbn [act]. destruct (animationFrame_frame id w) as [_ L].
    unfold loop_ok in H.
    destruct (existsb (Nat.eqb id) (rafPending (host w))) eqn:Hin.
    + destruct (isPlaying (this w)) eqn:Hp.
      * destruct H as (id0 & Ha & Hq). rewrite Hq in Hin, L.
        simpl in Hin. rewrite orb_false_r in Hin.
        apply Nat.eqb_eq in Hin. subst id0.
        rewrite remove_handle_self in L. apply (@loop_ok_of_state _ _ _ _ L).
        exists (rafNext (host w)). split; reflexivity.
      * rewrite H in Hin. discriminate Hin.
    + apply (@loop_ok_state w _ L). unfold loop_ok.
      destruct (isPlaying (this w)); exact H.
  - exact (loop_ok_plain (AMouseDown e rect) w H).
  - exact (loop_ok_plain (AMouseMove e rect) w H).
  - exact (loop_ok_plain AMouseUp w H).
  - exact (loop_ok_plain AMouseLeave w H).
Qed.

(** X1. The frame loop stays in order whatever is done to the renderer:
    from a world where it is, after any sequence of method calls,
    pointer events and animation-frame callbacks (stale ones included),
    exactly one frame is requested while Playing and none while Paused;
    so never more than one callback is pending, and [play] called twice
    does not start a second loop. *)
Theorem loop_invariant (w : World) (actions : list Action) :
  loop_ok w ->
  loop_ok (exec (run_actions actions) w) /\
  (List.length (rafPending (host (exec (run_actions actions) w))) <= 1)%nat.
Proof.
  intros H.
  assert (G : loop_ok (exec (run_actions actions) w)).
  { revert w H. induction actions as [|a l IH]; intros w H.
    - exact H.
    - unfold run_actions in *. rewrite exec_forEach_cons.
      apply IH. apply loop_ok_act. exact H. }
  split; [exact G|]. unfold loop_ok in G.
  destruct (isPlaying (this (exec (run_actions actions) w))).
  - destruct G as (id & _ & G). rewrite G. simpl. lia.
  - rewrite G. simpl. lia.
Qed.

Lemma loop_invariant_witness :
  let w0 := fresh_world (fun k => Z.of_nat k) in
  let w := exec (run_actions [ACompile "void mainImage(out vec4 c, in vec2 p) {}";
                              APlay; APlay; AFrame 1; AFrame 1; ARestart;
                              APause; APause; AFrame 2; APlay; ADispose]) w0 in
  loop_ok w0 /\
  loop_ok w /\ (List.length (rafPending (host w)) <= 1)%nat.
Proof.
  intros w0 w.
  assert (H0 : loop_ok w0) by (vm_compute; reflexivity).
  split; [exact H0|].
  exact (@loop_invariant w0
           [ACompile "void mainImage(out vec4 c, in vec2 p) {}";
            APlay; APlay; AFrame 1; AFrame 1; ARestart;
            APause; APause; AFrame 2; APlay; ADispose] H0).
Defined.

(** X2. [pause] stops the loop for good: in a world where the loop is in
    order, after [pause] no animation-frame callback, whatever its id,
    does anything at all; the world stays exactly as [pause] left it
    until [play] is called. *)
Theorem pause_stops_frames (w : World) (ids : list nat) :
  loop_ok w ->
  exec (forEach ids animationFrame) (exec pause w) = exec pause w.
Proof.
  intros H. apply loop_ok_pause in H.
  induction ids as [|id ids IH]; [reflexivity|].
  rewrite exec_forEach_cons.
  assert (E : exec (animationFrame id) (exec pause w) = exec pause w).
  { unfold exec at 1. rewrite animationFrame_spec. cbn [snd].
    unfold loop_ok in H.
    assert (Hp : isPlaying (this (exec pause w)) = false)
      by apply pause_always_records.
    rewrite Hp in H. rewrite H. reflexivity. }
  rewrite E. exact IH.
Qed.

Lemma pause_stops_frames_witness :
  let w := exec (act APlay) (fresh_world (fun k => Z.of_nat k)) in
  loop_ok w /\
  exec (forEach [1; 2; 1] animationFrame) (exec pause w) = exec pause w.
Proof.
  intros w.
  assert (H0 : loop_ok (fresh_world (fun k => Z.of_nat k)))
    by (vm_compute; reflexivity).
  assert (H : loop_ok w) by exact (@loop_ok_act APlay _ H0).
  split; [exact H|]. exact (@pause_stops_frames w [1; 2; 1] H).
Defined.

(** ** GL objects *)

Lemma resources_ok_objects (w w' : World) :
  objects w' = objects w -> resources_ok w -> resources_ok w'.
Proof.
  unfold objects, resources_ok. intros E. injection E as E1 E2 E3 E4.
  rewrite E1, E2, E3, E4. exact (fun H => H).
Qed.

Lemma resources_ok_plain (a : Action) (w : World) :
  match a with
  | AResize _ _ | AGetState | AOn _ | AOff _
  | AMouseDown _ _ | AMouseMove _ _ | AMouseUp | AMouseLeave =>
      resources_ok w -> resources_ok (exec (act a) w)
  | _ => True
  end.
Proof.
  assert (P := plain_action_frame a w).
  destruct a; try exact I; intros H;
    exact (@resources_ok_objects w _ (proj2 P) H).
Qed.

Lemma remove_handle_cons_self (n : nat) (l : list nat) :
  remove_handle n (n :: l) = remove_handle n l.
Proof. unfold remove_handle. simpl. rewrite Nat.eqb_refl. reflexivity. Qed.

Lemma remove_handle_cons_other (n x : nat) (l : list nat) :
  x <> n -> remove_handle n (x :: l) = x :: remove_handle n l.
Proof.
  intros H. unfold remove_handle. simpl.
  destruct (Nat.eqb_spec x n); [contradiction|reflexivity].
Qed.

(** No path through [compile] leaves a shader object behind: when the
    handles in use are older than the next handle, the live shaders after
    the call are the live shaders before it. *)
Lemma compile_keeps_shaders (src : string) (w : World) :
  (forall h, In h (liveShaders (host w)) -> (h < nextHandle (host w))%nat) ->
  liveShaders (host (exec (compile src) w)) = liveShaders (host w).
Proof.
  intros Hold. destruct (compile_host_spec src w) as (Hs & _).
  rewrite Hs. unfold shaders_after.
  set (n := nextHandle (host w)) in *.
  assert (F1 : remove_handle n (liveShaders (host w)) = liveShaders (host w)).
  { apply remove_handle_fresh. intros h Hh. specialize (Hold h Hh). lia. }
  assert (F2 : remove_handle (S n) (liveShaders (host w)) = liveShaders (host w)).
  { apply remove_handle_fresh. intros h Hh. specialize (Hold h Hh). lia. }
  destruct (gl (this w) && createOk (host w) n)%bool; [|reflexivity].
  destruct (shaderStatus (host w) n && createOk (host w) (S n))%bool.
  - rewrite remove_handle_cons_other by lia.
    rewrite (remove_handle_cons_self n), F1.
    rewrite (remove_handle_cons_self (S n)), F2. reflexivity.
  - rewrite remove_handle_cons_self, F1. reflexivity.
Qed.

Lemma resources_ok_compile (src : string) (w : World) :
  resources_ok w -> resources_ok (exec (compile src) w).
Proof.
  intros (Hs & Hp & Hn).
  destruct (compile_spec src w) as (Ha & Hprog & _ & _ & Hlive & Hle & _).
  destruct (compile_host_spec src w) as (_ & _ & _ & _ & _ & _ & Hnext).
  set (n := nextHandle (host w)) in *.
  set (w' := exec (compile src) w) in *.
  split; [|split].
  - unfold w'. rewrite compile_keeps_shaders; [exact Hs|].
    rewrite Hs. intros h [].
  - rewrite Hlive, Hprog. unfold programs_after. fold n.
    rewrite Ha. unfold link_ok. fold n.
    destruct (vertex_ok w && fragment_ok w)%bool; cbn [andb].
    + destruct (createOk (host w) (S (S n))); cbn [andb].
      * destruct (programStatus (host w) (S (S n))); cbn [andb].
        -- right. exists (S (S n)). split; [reflexivity|].
           destruct Hp as [Hp | (p & Hq & Hp)].
           ++ rewrite Hp. destruct (program (this w)) as [q|] eqn:Eq.
              ** rewrite remove_handle_cons_other; [reflexivity|].
                 specialize (Hn q eq_refl). lia.
              ** reflexivity.
           ++ rewrite Hq, Hp. specialize (Hn p Hq).
              rewrite remove_handle_cons_other by lia.
              rewrite remove_handle_self. reflexivity.
        -- rewrite remove_handle_cons_self.
           destruct Hp as [Hp | (p & Hq & Hp)].
           ++ left. rewrite Hp. reflexivity.
           ++ right. exists p. split; [exact Hq|]. rewrite Hp.
              specialize (Hn p Hq).
              rewrite remove_handle_cons_other by lia. reflexivity.
      * exact Hp.
    + exact Hp.
  - intros p. rewrite Hprog.
    destruct (eval (compile src) w) eqn:Ev.
    + intros E. injection E as E. subst p. fold w'.
      rewrite (Hnext eq_refl). lia.
    + intros E. specialize (Hn p E). lia.
Qed.

Lemma resources_ok_act (a : Action) (w : World) :
  resources_ok w -> resources_ok (exec (act a) w).
Proof.
  intros H.
  destruct a as [ | | | |src|wd ht| |l|l|id|e rect|e rect| | ].
  - cbn [act]. apply (@resources_ok_objects w); [apply play_frame|exact H].
  - cbn [act]. apply (@resources_ok_objects w); [apply pause_frame|exact H].
  - cbn [act]. apply (@resources_ok_objects w); [apply restart_frame|exact H].
  - (* dispose *)
    cbn [act]. destruct (dispose_frame w) as (_ & D1 & D2 & D3 & D4).
    destruct H as (Hs & Hp & Hn). unfold resources_ok.
    rewrite D1, D2, D3, D4. split; [exact Hs|]. split; [|exact Hn].
    destruct (gl (this w)); [|exact Hp].
    destruct (program (this w)) as [q|] eqn:Eq; [|exact Hp].
    left. destruct Hp as [Hp | (p & Hq & Hp)].
    + rewrite Hp. reflexivity.
    + injection Hq as Hq. subst q. rewrite Hp. apply remove_handle_self.
  - cbn [act]. rewrite exec_unit_ret. apply resources_ok_compile. exact H.
  - exact (resources_ok_plain (AResize wd ht) w H).
  - exact (resources_ok_plain AGetState w H).
  - exact (resources_ok_plain (AOn l) w H).
  - exact (resources_ok_plain (AOff l) w H).
  - cbn [act]. apply (@resources_ok_objects w);
      [apply animationFrame_frame|exact H].
  - exact (resources_ok_plain (AMouseDown e rect) w H).
  - exact (resources_ok_plain (AMouseMove e rect) w H).
  - exact (resources_ok_plain AMouseUp w H).
  - exact (resources_ok_plain AMouseLeave w H).
Qed.

(** X3. GL objects never pile up.  From a world where no shader object is
    alive and the only live program, if any, is the active one, every
    sequence of actions leads to such a world again: each [compile]
    deletes both shader objects on every path, a failed link deletes the
    program it created, and a successful one deletes the program it
    replaces. *)
Theorem resources_invariant (w : World) (actions : list Action) :
  resources_ok w ->
  resources_ok (exec (run_actions actions) w) /\
  liveShaders (host (exec (run_actions actions) w)) = [] /\
  (List.length (livePrograms (host (exec (run_actions actions) w))) <= 1)%nat.
Proof.
  intros H.
  assert (G : resources_ok (exec (run_actions actions) w)).
  { revert w H. induction actions as [|a l IH]; intros w H.
    - exact H.
    - unfold run_actions in *. rewrite exec_forEach_cons.
      apply IH. apply resources_ok_act. exact H. }
  split; [exact G|]. destruct G as (Gs & Gp & _). split; [exact Gs|].
  destruct Gp as [Gp | (p & _ & Gp)]; rewrite Gp; simpl; lia.
Qed.

Lemma resources_invariant_witness :
  let w0 := mkWorld (new_WebGLRenderer 640 360 (Some 0%nat)) picky_host in
  let w := exec (run_actions
                   [ACompile "void mainImage(out vec4 c, in vec2 p) { c = vec4(1.0); }";
                    APlay;
                    ACompile "void mainImage(out vec4 c, in vec2 p) { c = x; }";
                    ACompile "void mainImage(out vec4 c, in vec2 p) { c = vec4(0.5); }";
                    ADispose]) w0 in
  resources_ok w0 /\
  resources_ok w /\ liveShaders (host w) = [] /\
  (List.length (livePrograms (host w)) <= 1)%nat.
Proof.
  intros w0 w.
  assert (H0 : resources_ok w0).
  { vm_compute. split; [reflexivity|]. split; [left; reflexivity|].
    intros p E. discriminate E. }
  split; [exact H0|].
  exact (@resources_invariant w0
           [ACompile "void mainImage(out vec4 c, in vec2 p) { c = vec4(1.0); }";
            APlay;
            ACompile "void mainImage(out vec4 c, in vec2 p) { c = x; }";
            ACompile "void mainImage(out vec4 c, in vec2 p) { c = vec4(0.5); }";
            ADispose] H0).
Defined.

(** ** What a compile tells, and what it leaves alone *)

(** X4. A link failure is silent for the listeners.  When both shaders
    compile and the program is created but does not link, [compile]
    answers [false], delivers no event at all (no [compile-error]
    either) and only writes the program info log to the console. *)
Theorem link_failure_is_silent (w : World) (src : string) :
  let n := nextHandle (host w) in
  vertex_ok w = true -> fragment_ok w = true ->
  createOk (host w) (S (S n)) = true ->
  programStatus (host w) (S (S n)) = false ->
  let w' := exec (compile src) w in
  eval (compile src) w = false /\
  delivered (host w') = delivered (host w) /\
  consoleLog (host w') =
    consoleLog (host w)
    ++ [console_error "Link error:"
          (Some (orEmpty (programInfoLog (host w) (S (S n)))))].
Proof.
  intros n Hv Hf Hc Hl w'.
  destruct (compile_spec src w) as (Ha & _ & _ & _ & _ & _ & He).
  destruct (compile_host_spec src w) as (_ & Hcon & _).
  fold w' in He, Hcon.
  split; [|split].
  - rewrite Ha, Hv, Hf. unfold link_ok. fold n. rewrite Hc, Hl. reflexivity.
  - rewrite He. unfold events_after, link_ok. fold n.
    unfold fragment_ok in Hf. fold n in Hf.
    apply andb_true_iff in Hf. destruct Hf as [Hf1 Hf2].
    rewrite Hv, Hf1, Hf2, Hc, Hl. reflexivity.
  - rewrite Hcon. unfold console_after. fold n.
    unfold vertex_ok in Hv. fold n in Hv.
    apply andb_true_iff in Hv. destruct Hv as [Hv Hv3].
    rewrite Hv, Hv3, Hf, Hc, Hl. reflexivity.
Qed.

Lemma link_failure_is_silent_witness :
  let w := exec (on 1) (mkWorld (new_WebGLRenderer 640 360 (Some 0%nat))
                          unlinkable_host) in
  vertex_ok w = true /\
  eval (compile "void mainImage(out vec4 c, in vec2 p) {}") w = false /\
  delivered (host (exec (compile "void mainImage(out vec4 c, in vec2 p) {}") w))
  = delivered (host w).
Proof.
  intros w.
  assert (Hv : vertex_ok w = true) by (vm_compute; reflexivity).
  assert (Hf : fragment_ok w = true) by (vm_compute; reflexivity).
  assert (Hc : createOk (host w) (S (S (nextHandle (host w)))) = true)
    by (vm_compute; reflexivity).
  assert (Hl : programStatus (host w) (S (S (nextHandle (host w)))) = false)
    by (vm_compute; reflexivity).
  destruct (@link_failure_is_silent w
              "void mainImage(out vec4 c, in vec2 p) {}" Hv Hf Hc Hl)
    as (H1 & H2 & _).
  split; [exact Hv|]. split; [exact H1|exact H2].
Defined.

(** X5. Every other way [compile] can fail before the fragment shader is
    compiled is silent too: without a context, when a shader object
    cannot be created, or when the fixed vertex shader is rejected, no
    listener is told anything. *)
Theorem early_failure_is_silent (w : World) (src : string) :
  let n := nextHandle (host w) in
  (vertex_ok w && createOk (host w) (S n))%bool = false ->
  eval (compile src) w = false /\
  delivered (host (exec (compile src) w)) = delivered (host w).
Proof.
  intros n H.
  destruct (compile_spec src w) as (Ha & _ & _ & _ & _ & _ & He).
  split.
  - rewrite Ha. unfold fragment_ok. fold n.
    destruct (vertex_ok w); [|reflexivity].
    simpl in H. rewrite H. reflexivity.
  - rewrite He. unfold events_after. fold n. rewrite H. reflexivity.
Qed.

Lemma early_failure_is_silent_witness :
  let w := exec (on 1)
             (mkWorld (set_program None
                         (mkRenderer 640 360 false None None false 0 0 0 0 None
                            (mkMouse 0 0 0 0) false []))
                      (quiet_host (fun _ => 0%Z))) in
  eval (compile "void mainImage(out vec4 c, in vec2 p) {}") w = false /\
  delivered (host (exec (compile "void mainImage(out vec4 c, in vec2 p) {}") w))
  = delivered (host w).
Proof.
  intros w.
  assert (H : (vertex_ok w && createOk (host w) (S (nextHandle (host w))))%bool
              = false) by (vm_compute; reflexivity).
  exact (@early_failure_is_silent w
           "void mainImage(out vec4 c, in vec2 p) {}" H).
Defined.

(** X6. Compiling never disturbs what is playing: whatever the outcome,
    [compile] changes no field of the renderer but [program] (play
    state, start time, paused baseline, frame counter, pointer and
    listeners stay), reads neither clock, and leaves the pending
    animation frame as it is. *)
Theorem compile_only_sets_program (w : World) (src : string) :
  let w' := exec (compile src) w in
  this w' = set_program (program (this w')) (this w) /\
  loop_state w' = loop_state w /\
  clockReads (host w') = clockReads (host w) /\
  dateReads (host w') = dateReads (host w) /\
  draws w' = draws w.
Proof.
  intros w'.
  destruct (compile_spec src w) as (_ & _ & Hr & Hd & _).
  destruct (compile_host_spec src w) as (_ & _ & _ & _ & Hc & Hdr & _).
  fold w' in Hr, Hd, Hc, Hdr.
  split; [|split; [apply compile_frame|split; [exact Hc|split; [exact Hdr|]]]].
  - destruct (this w'), (this w). simpl in *. inversion Hr. reflexivity.
  - unfold draws. rewrite Hd. reflexivity.
Qed.

Lemma compile_error_event_witness :
  let w := exec (on 1 ;;
                 compile "void mainImage(out vec4 c, in vec2 p) { c = vec4(1.0); }")
             (mkWorld (new_WebGLRenderer 640 360 (Some 0%nat)) picky_host) in
  vertex_ok w = true /\
  delivered (host (exec (compile "void mainImage(out vec4 c, in vec2 p) { c = x; }") w))
  = delivered (host w)
    ++ [(1%nat, mkRendererEvent compile_error
                  (Some [ {| line := 7; message := "'x' : undeclared identifier" |} ])
                  None)].
Proof.
  intros w.
  assert (Hv : vertex_ok w = true) by (vm_compute; reflexivity).
  assert (Hc : createOk (host w) (S (nextHandle (host w))) = true)
    by (vm_compute; reflexivity).
  assert (Hs : shaderStatus (host w) (S (nextHandle (host w))) = false)
    by (vm_compute; reflexivity).
  split; [exact Hv|].
  rewrite (@compile_error_event w
             "void mainImage(out vec4 c, in vec2 p) { c = x; }" Hv Hc Hs).
  vm_compute. reflexivity.
Defined.

(** ** Counting frames over whole runs *)

Lemma draws_append_other (w : World) (c : GLCall) :
  is_draw c = false ->
  List.length (filter is_draw (glLog (host w) ++ [c])) = draws w.
Proof.
  intros H. unfold draws. rewrite filter_app. simpl. rewrite H.
  rewrite app_nil_r. reflexivity.
Qed.

Lemma dispose_counts (w : World) :
  frameCount (this (exec dispose w)) = frameCount (this w) /\
  draws (exec dispose w) = draws w.
Proof.
  rewrite dispose_spec.
  assert (F : frameCount (this (paused w)) = frameCount (this w) /\
              glLog (host (paused w)) = glLog (host w)).
  { unfold paused. destruct (animationId (this w)); split; reflexivity. }
  destruct F as [F1 F2].
  destruct (gl (this w)); [destruct (program (this w))|];
    unfold draws; cbn [this host]; wp_norm; rewrite ?F1, ?F2;
    rewrite ?filter_app; simpl; rewrite ?app_nil_r; split; reflexivity.
Qed.

Lemma plain_action_counts (a : Action) (w : World) :
  match a with
  | AResize _ _ | AGetState | AOn _ | AOff _
  | AMouseDown _ _ | AMouseMove _ _ | AMouseUp | AMouseLeave =>
      frameCount (this (exec (act a) w)) = frameCount (this w) /\
      draws (exec (act a) w) = draws w
  | _ => True
  end.
Proof.
  destruct a; try exact I; cbn [act]; rewrite ?exec_unit_ret.
  - unfold exec, resize, bind, assign, field, gl_call, effect, ret. simpl.
    destruct (gl (this w)); split; try reflexivity.
    apply (draws_append_other w). reflexivity.
  - unfold exec, getState, bind, field, performance_now, ask, effect, ret.
    simpl. destruct (isPlaying (this w)); split; reflexivity.
  - split; reflexivity.
  - split; reflexivity.
  - split; reflexivity.
  - unfold exec, on_mousemove, bind, field, assign, ret. simpl.
    destruct (isMouseDown (this w)); split; reflexivity.
  - split; reflexivity.
  - split; reflexivity.
Qed.

Lemma act_counts (a : Action) (w : World) :
  is_restart a = false ->
  (draws w <= draws (exec (act a) w))%nat /\
  frameCount (this (exec (act a) w))
  = (frameCount (this w) + Z.of_nat (draws (exec (act a) w) - draws w))%Z.
Proof.
  intros Hr.
  assert (K : forall w' : World,
            (frameCount (this w') = frameCount (this w) /\ draws w' = draws w) \/
            (frameCount (this w') = (frameCount (this w) + 1)%Z /\
             draws w' = S (draws w)) ->
            (draws w <= draws w')%nat /\
            frameCount (this w')
            = (frameCount (this w) + Z.of_nat (draws w' - draws w))%Z).
  { intros w' [[H1 H2]|[H1 H2]]; rewrite H1, H2; split; lia. }
  destruct a as [ | | | |src|wd ht| |l|l|id|e rect|e rect| | ];
    try discriminate Hr.
  - cbn [act]. apply K. destruct (play_counts w) as [H|(H1 & H2 & _)];
      [left; exact H|right; split; assumption].
  - cbn [act]. apply K. left. apply pause_counts.
  - cbn [act]. apply K. left. apply dispose_counts.
  - cbn [act]. apply K. left.
    destruct (compile_counts src w) as (H1 & H2 & _). split; assumption.
  - apply K. left. exact (plain_action_counts (AResize wd ht) w).
  - apply K. left. exact (plain_action_counts AGetState w).
  - apply K. left. exact (plain_action_counts (AOn l) w).
  - apply K. left. exact (plain_action_counts (AOff l) w).
  - cbn [act]. apply K.
    destruct (animationFrame_counts id w) as [H|(H1 & H2 & _)];
      [left; exact H|right; split; assumption].
  - apply K. left. exact (plain_action_counts (AMouseDown e rect) w).
  - apply K. left. exact (plain_action_counts (AMouseMove e rect) w).
  - apply K. left. exact (plain_action_counts AMouseUp w).
  - apply K. left. exact (plain_action_counts AMouseLeave w).
Qed.

Lemma run_counts (actions : list Action) :
  forall w : World,
  forallb (fun a => negb (is_restart a)) actions = true ->
  (draws w <= draws (exec (run_actions actions) w))%nat /\
  frameCount (this (exec (run_actions actions) w))
  = (frameCount (this w)
     + Z.of_nat (draws (exec (run_actions actions) w) - draws w))%Z.
Proof.
  induction actions as [|a l IH]; intros w H.
  - unfold run_actions, exec. simpl. rewrite Nat.sub_diag. split; lia.
  - simpl in H. apply andb_true_iff in H. destruct H as [Ha Hl].
    apply negb_true_iff in Ha.
    unfold run_actions in *. rewrite exec_forEach_cons.
    destruct (act_counts a w Ha) as [A1 A2].
    destruct (IH (exec (act a) w) Hl) as [B1 B2].
    split; [lia|]. rewrite B2, A2. lia.
Qed.

(** X7. The frame counter counts drawn frames.  Along any run without
    [restart] the counter grows by exactly the number of draw calls
    issued; and after a [restart] followed by any such run it equals the
    number of frames drawn since that [restart] was called (its own
    synchronous frame included).  It never decreases except by
    [restart]. *)
Theorem frame_count_is_frames_drawn (w : World) (actions : list Action) :
  forallb (fun a => negb (is_restart a)) actions = true ->
  let w1 := exec (run_actions actions) w in
  let w2 := exec (run_actions (ARestart :: actions)) w in
  (frameCount (this w1) = frameCount (this w) + Z.of_nat (draws w1 - draws w))%Z /\
  (frameCount (this w) <= frameCount (this w1))%Z /\
  frameCount (this w2) = Z.of_nat (draws w2 - draws w).
Proof.
  intros H w1 w2.
  destruct (run_counts actions w H) as [A1 A2]. fold w1 in A1, A2.
  split; [exact A2|]. split; [lia|].
  unfold w2, run_actions. rewrite exec_forEach_cons. cbn [act].
  destruct (run_counts actions (exec restart w) H) as [B1 B2].
  unfold run_actions in B1, B2. rewrite B2.
  destruct (restart_counts w) as [[R1 R2]|(R1 & R2 & _)];
    rewrite R1; rewrite R2 in *; lia.
Qed.

Lemma frame_count_is_frames_drawn_witness :
  let w := exec (compile "void mainImage(out vec4 c, in vec2 p) {}")
             (fresh_world (fun k => Z.of_nat (16 * k))) in
  let actions := [APlay; AFrame 1; AFrame 2; ACompile "void mainImage() {}";
                  AFrame 3; APause; AFrame 4; AGetState] in
  frameCount (this (exec (run_actions (ARestart :: actions)) w))
  = Z.of_nat (draws (exec (run_actions (ARestart :: actions)) w) - draws w).
Proof.
  intros w actions.
  exact (proj2 (proj2 (@frame_count_is_frames_drawn w actions eq_refl))).
Defined.

(** ** The uniforms of a frame *)

Local Open Scope Q_scope.

Lemma frame_fps_positive (w : World) : 0 < frame_fps w.
Proof.
  unfold frame_fps, Qpositive.
  destruct (Qle_bool (seconds (next_now w - lastFrameTime (this w))) 0) eqn:E;
    simpl.
  - reflexivity.
  - assert (H : 0 < seconds (next_now w - lastFrameTime (this w))).
    { apply Qnot_le_lt. intros H. apply Qle_bool_iff in H.
      rewrite H in E. discriminate E. }
    unfold Qdiv. apply Qmult_lt_0_compat; [reflexivity|].
    apply Qinv_lt_0_compat. exact H.
Qed.

(** X8. The frame rate of a frame is always positive: the reciprocal of a
    positive time since the previous frame, and 60 when that time is
    zero or negative.  So neither [iFrameRate] nor the [fps] of the frame
    event is ever zero, negative or a division by zero. *)
Theorem frame_rate_is_positive (w : World) (p : Handle) :
  gl (this w) = true -> program (this w) = Some p ->
  let w' := exec renderFrame w in
  let f := frame_fps w in
  0 < f /\
  In (Uniform1f p "iFrameRate" f) (glLog (host w')) /\
  (forall l, In l (eventListeners (this w)) ->
     exists s, In (l, mkRendererEvent frame None (Some s)) (delivered (host w')) /\
               st_fps s = f) /\
  ((next_now w <= lastFrameTime (this w))%Z -> f = 60).
Proof.
  intros Hg Hp w' f. subst w'. unfold exec.
  rewrite (renderFrame_runs w Hg Hp). cbn [snd].
  split; [apply frame_fps_positive|]. split; [|split].
  - unfold after_frame. cbn [host glLog set_delivered set_glLog].
    apply in_or_app. right. unfold frame_commands. simpl. tauto.
  - intros l Hl. exists (frame_snapshot w). split; [|reflexivity].
    unfold after_frame. cbn [host delivered set_delivered].
    apply in_or_app. right.
    apply (in_map (fun l0 => (l0, mkRendererEvent frame None
                                    (Some (frame_snapshot w))))). exact Hl.
  - intros Hle. unfold f, frame_fps, Qpositive.
    assert (E : Qle_bool (seconds (next_now w - lastFrameTime (this w))) 0 = true).
    { apply Qle_bool_iff. unfold seconds, Qle. simpl. lia. }
    rewrite E. reflexivity.
Qed.

Lemma frame_rate_is_positive_witness :
  let w := exec (on 4%nat ;; compile "void mainImage(out vec4 c, in vec2 p) {}")
             (fresh_world (fun k => 16 * Z.of_nat k)%Z) in
  gl (this w) = true /\ 0 < frame_fps w.
Proof.
  intros w.
  assert (Hg : gl (this w) = true) by (vm_compute; reflexivity).
  assert (Hp : program (this w) = Some 3%nat) by (vm_compute; reflexivity).
  split; [exact Hg|].
  exact (proj1 (@frame_rate_is_positive w 3%nat Hg Hp)).
Defined.

Lemma seconds_minus (a b : Z) : seconds a - seconds b == seconds (a - b).
Proof.
  unfold seconds, Qdiv, Z.sub. rewrite inject_Z_plus, inject_Z_opp. ring.
Qed.

(** X9. Time and time delta agree from frame to frame: for two frames
    rendered one after the other, the [iTimeDelta] of the second is the
    difference between its [iTime] and the [iTime] of the first, and its
    [iFrame] is one more. *)
Theorem consecutive_frames_agree (w : World) (p : Handle) :
  gl (this w) = true -> program (this w) = Some p ->
  let w1 := exec renderFrame w in
  let w2 := exec renderFrame w1 in
  let t1 := seconds (next_now w - startTime (this w)) in
  let t2 := seconds (next_now w1 - startTime (this w)) in
  let d2 := seconds (next_now w1 - next_now w) in
  In (Uniform1f p "iTime" t1) (glLog (host w1)) /\
  In (Uniform1f p "iTime" t2) (glLog (host w2)) /\
  In (Uniform1f p "iTimeDelta" d2) (glLog (host w2)) /\
  In (Uniform1i p "iFrame" (frameCount (this w) + 1)) (glLog (host w2)) /\
  t2 - t1 == d2.
Proof.
  intros Hg Hp w1 w2 t1 t2 d2.
  assert (E1 : w1 = after_frame w p).
  { unfold w1, exec. rewrite (renderFrame_runs w Hg Hp). reflexivity. }
  assert (E2 : w2 = after_frame w1 p).
  { unfold w2, exec. rewrite (@renderFrame_runs w1 p); [reflexivity| |];
      rewrite E1; [exact Hg|exact Hp]. }
  assert (S1 : startTime (this w1) = startTime (this w)) by (rewrite E1; reflexivity).
  assert (L1 : lastFrameTime (this w1) = next_now w) by (rewrite E1; reflexivity).
  assert (F1 : frameCount (this w1) = (frameCount (this w) + 1)%Z)
    by (rewrite E1; reflexivity).
  split; [|split; [|split; [|split]]].
  - rewrite E1. unfold after_frame. cbn [host glLog set_delivered set_glLog].
    apply in_or_app. right. unfold frame_commands. simpl. tauto.
  - rewrite E2. unfold after_frame. cbn [host glLog set_delivered set_glLog].
    apply in_or_app. right. unfold frame_commands. rewrite S1. simpl. tauto.
  - rewrite E2. unfold after_frame. cbn [host glLog set_delivered set_glLog].
    apply in_or_app. right. unfold frame_commands. rewrite L1. simpl. tauto.
  - rewrite E2. unfold after_frame. cbn [host glLog set_delivered set_glLog].
    apply in_or_app. right. unfold frame_commands. rewrite F1. simpl. tauto.
  - unfold t2, t1, d2. rewrite seconds_minus.
    replace (next_now w1 - startTime (this w) - (next_now w - startTime (this w)))%Z
      with (next_now w1 - next_now w)%Z by lia.
    reflexivity.
Qed.

Lemma consecutive_frames_agree_witness :
  let w := exec (compile "void mainImage(out vec4 c, in vec2 p) {}")
             (fresh_world (fun k => 16 * Z.of_nat k)%Z) in
  gl (this w) = true /\
  seconds (next_now (exec renderFrame w) - startTime (this w))
  - seconds (next_now w - startTime (this w))
  == seconds (next_now (exec renderFrame w) - next_now w).
Proof.
  intros w.
  assert (Hg : gl (this w) = true) by (vm_compute; reflexivity).
  assert (Hp : program (this w) = Some 3%nat) by (vm_compute; reflexivity).
  split; [exact Hg|].
  exact (proj2 (proj2 (proj2 (proj2
           (@consecutive_frames_agree w 3%nat Hg Hp))))).
Defined.

(** X10. The fourth component of [iDate] is a time of day: for the hours,
    minutes, seconds and milliseconds a [Date] can answer, the value a
    frame pushes is at least 0 and below 86400. *)
Theorem date_seconds_in_day (w : World) (p : Handle) :
  let date := dates (host w) (dateReads (host w)) in
  gl (this w) = true -> program (this w) = Some p ->
  valid_time date ->
  In (Uniform4f p "iDate" (inject_Z (getFullYear date))
        (inject_Z (getMonth date)) (inject_Z (getDate date)) (dateSeconds date))
     (glLog (host (exec renderFrame w))) /\
  0 <= dateSeconds date /\ dateSeconds date < 86400.
Proof.
  intros date Hg Hp (Hh & Hm & Hs & Hms).
  split.
  { unfold exec. rewrite (renderFrame_runs w Hg Hp).
    cbn [snd]. unfold after_frame. cbn [host]. wp_norm.
    apply in_or_app. right. unfold frame_commands. fold date. simpl. tauto. }
  unfold dateSeconds.
  set (a := (getHours date * 3600 + getMinutes date * 60 + getSeconds date)%Z).
  set (b := getMilliseconds date).
  assert (Ha : (0 <= a <= 86399)%Z) by (unfold a; lia).
  assert (Hb : (0 <= b <= 999)%Z) by (unfold b; lia).
  assert (E : inject_Z a + inject_Z b / 1000 == inject_Z (1000 * a + b) / 1000).
  { rewrite inject_Z_plus, inject_Z_mult. field. }
  rewrite E. unfold Qle, Qlt, Qdiv, Qmult, Qinv, inject_Z.
  cbn [Qnum Qden Pos.mul]. split; lia.
Qed.

Lemma date_seconds_in_day_witness :
  let w := exec (compile "void mainImage(out vec4 c, in vec2 p) {}")
             (fresh_world (fun _ => 0%Z)) in
  valid_time (dates (host w) (dateReads (host w))) /\
  dateSeconds (dates (host w) (dateReads (host w))) < 86400.
Proof.
  intros w.
  assert (Hg : gl (this w) = true) by (vm_compute; reflexivity).
  assert (Hp : program (this w) = Some 3%nat) by (vm_compute; reflexivity).
  assert (H : valid_time (dates (host w) (dateReads (host w))))
    by (vm_compute; repeat split; discriminate).
  split; [exact H|].
  exact (proj2 (proj2 (@date_seconds_in_day w 3%nat Hg Hp H))).
Defined.

Local Close Scope Q_scope.

(** ** Polling, disposing, resizing *)

Lemma getState_paused (w : World) :
  isPlaying (this w) = false -> exec getState w = w.
Proof.
  intros H. unfold exec, getState, bind, field, ret. rewrite H. reflexivity.
Qed.

(** X11. While Paused the polled time stands still.  After [pause], any
    number of [getState] polls leave the world exactly as [pause] left
    it (the clock is not even read) and each answers the elapsed time
    that [pause] recorded, however far the clock has moved on. *)
Theorem paused_polls_are_frozen (w : World) (k : nat) :
  let w1 := exec pause w in
  let wk := exec (run_actions (repeat AGetState k)) w1 in
  wk = w1 /\
  st_time (eval getState wk) = seconds (next_now w - startTime (this w)) /\
  st_isPlaying (eval getState wk) = false.
Proof.
  intros w1 wk.
  destruct (pause_always_records w) as [Hp Hq]. fold w1 in Hp, Hq.
  assert (E : wk = w1).
  { unfold wk. induction k as [|k IH]; [reflexivity|].
    simpl repeat. unfold run_actions in *. rewrite exec_forEach_cons.
    cbn [act]. rewrite exec_unit_ret, (getState_paused w1 Hq). exact IH. }
  split; [exact E|]. rewrite E, getState_time, Hq, Hp.
  split; [reflexivity|].
  unfold eval, getState, bind, field, ret. rewrite Hq. reflexivity.
Qed.

Lemma restart_paused_uses_program (v : World) (p : Handle) :
  isPlaying (this v) = false -> gl (this v) = true ->
  program (this v) = Some p ->
  In (UseProgram p) (glLog (host (exec restart v))).
Proof.
  intros Hplay Hgl Hp.
  assert (E : exec restart v = after_frame (restart_clock v) p).
  { unfold exec. rewrite restart_spec, Hplay. cbn [snd]. unfold rendered.
    assert (G : gl (this (restart_clock v)) = true) by exact Hgl.
    assert (P : program (this (restart_clock v)) = Some p) by exact Hp.
    rewrite G, P. reflexivity. }
  rewrite E. unfold after_frame. cbn [host]. wp_norm.
  apply in_or_app. right. left. reflexivity.
Qed.

Lemma dispose_live (w : World) (p : Handle) :
  gl (this w) = true -> program (this w) = Some p ->
  gl (this (exec dispose w)) = true /\
  isPlaying (this (exec dispose w)) = false /\
  In (DeleteProgram p) (glLog (host (exec dispose w))).
Proof.
  intros Hg Hp. rewrite dispose_spec, Hg, Hp. cbn [this host].
  split; [|split].
  - unfold paused. destruct (animationId (this w)); exact Hg.
  - unfold paused. destruct (animationId (this w)); reflexivity.
  - wp_norm. apply in_or_app. right. left. reflexivity.
Qed.

(** X12. [dispose] stops the loop and deletes the active program, but
    keeps the handle: afterwards the renderer is Paused, the program is
    no longer alive, and the [program] field still names it, so that a
    later [restart] draws with the deleted program. *)
Theorem dispose_keeps_the_handle (w : World) (p : Handle) :
  gl (this w) = true -> program (this w) = Some p ->
  let w' := exec dispose w in
  isPlaying (this w') = false /\
  ~ In p (livePrograms (host w')) /\
  program (this w') = Some p /\
  In (DeleteProgram p) (glLog (host w')) /\
  In (UseProgram p) (glLog (host (exec restart w'))).
Proof.
  intros Hg Hp w'.
  destruct (dispose_frame w) as (_ & _ & D2 & _ & D4). fold w' in D2, D4.
  rewrite Hg, Hp in D4. rewrite Hp in D2.
  destruct (dispose_live w Hg Hp) as (Hgl & Hplay & Hdel).
  fold w' in Hgl, Hplay, Hdel. clearbody w'.
  split; [exact Hplay|]. split; [|split; [exact D2|split; [exact Hdel|]]].
  - rewrite D4. unfold remove_handle. intros Hin.
    apply filter_In in Hin. destruct Hin as [_ Hin].
    rewrite Nat.eqb_refl in Hin. discriminate Hin.
  - exact (restart_paused_uses_program w' Hplay Hgl D2).
Qed.

Lemma dispose_keeps_the_handle_witness :
  let w := exec (compile "void mainImage(out vec4 c, in vec2 p) {}")
             (fresh_world (fun _ => 0%Z)) in
  gl (this w) = true /\
  program (this (exec dispose w)) = Some 3%nat /\
  ~ In 3%nat (livePrograms (host (exec dispose w))).
Proof.
  intros w.
  assert (Hg : gl (this w) = true) by (vm_compute; reflexivity).
  assert (Hp : program (this w) = Some 3%nat) by (vm_compute; reflexivity).
  destruct (@dispose_keeps_the_handle w 3%nat Hg Hp) as (_ & H2 & H3 & _).
  split; [exact Hg|]. split; [exact H3|exact H2].
Defined.

Local Open Scope Q_scope.

Lemma truncate_nonneg (x : Q) :
  0 <= x ->
  (0 <= truncate x)%Z /\ inject_Z (truncate x) <= x /\
  x < inject_Z (truncate x) + 1.
Proof.
  destruct x as [a b]. unfold truncate, Qle, Qlt, Qplus, inject_Z.
  cbn [Qnum Qden]. intros H.
  assert (Ha : (0 <= a)%Z) by lia.
  rewrite (Z.quot_div_nonneg a (Zpos b) Ha (Pos2Z.is_pos b)).
  assert (Nz : (Zpos b <> 0)%Z) by discriminate.
  pose proof (Z.div_mod a (Zpos b) Nz) as E.
  pose proof (Z.mod_pos_bound a (Zpos b) (Pos2Z.is_pos b)) as B.
  pose proof (Z.div_pos a (Zpos b) Ha (Pos2Z.is_pos b)) as P.
  set (q := (a / Zpos b)%Z) in *. set (r := (a mod Zpos b)%Z) in *.
  split; [exact P|]. split; [lia|]. rewrite Pos.mul_1_r. lia.
Qed.

Lemma sizes_in_range (d : Z) (x : Q) :
  0 <= x -> x < 2147483648 ->
  canvasSize d x = truncate x /\ toInt32 x = truncate x.
Proof.
  intros H0 H1. destruct (truncate_nonneg H0) as (P & L & _).
  assert (U : (truncate x < 2147483648)%Z).
  { apply Z.lt_nge. intros C.
    assert (K : inject_Z 2147483648 <= inject_Z (truncate x))
      by (rewrite <- Zle_Qle; exact C).
    apply (Qlt_irrefl x). apply (Qlt_le_trans _ 2147483648); [exact H1|].
    apply (Qle_trans _ (inject_Z (truncate x))); [exact K|exact L]. }
  assert (M : toUint32 x = truncate x).
  { unfold toUint32. apply Z.mod_small. lia. }
  unfold canvasSize, toInt32. rewrite M.
  destruct (Z.leb_spec (truncate x) 2147483647); [|lia].
  destruct (Z.ltb_spec (truncate x) 2147483648); [|lia].
  split; reflexivity.
Qed.

Lemma sizes_negative (d : Z) (x : Q) :
  -2147483648 <= x -> x <= -1 -> canvasSize d x = d.
Proof.
  destruct x as [a b]. unfold canvasSize, toUint32, truncate, Qle.
  cbn [Qnum Qden]. intros H0 H1.
  assert (Ha : (0 <= - a)%Z) by lia.
  assert (E : (a ÷ Zpos b = - (- a / Zpos b))%Z).
  { rewrite <- (Z.quot_div_nonneg (- a) (Zpos b) Ha (Pos2Z.is_pos b)).
    rewrite Z.quot_opp_l by discriminate. lia. }
  rewrite E.
  assert (Nz : (Zpos b <> 0)%Z) by discriminate.
  pose proof (Z.div_mod (- a) (Zpos b) Nz) as D.
  pose proof (Z.mod_pos_bound (- a) (Zpos b) (Pos2Z.is_pos b)) as B.
  set (q := (- a / Zpos b)%Z) in *. set (r := (- a mod Zpos b)%Z) in *.
  assert (Q1 : (1 <= q)%Z) by nia.
  assert (Q2 : (q <= 2147483648)%Z) by nia.
  assert (M : ((- q) mod 4294967296 = 4294967296 - q)%Z).
  { symmetry. apply (Z.mod_unique _ _ (-1)%Z); lia. }
  rewrite M. destruct (Z.leb_spec (4294967296 - q) 2147483647); [lia|].
  reflexivity.
Qed.

Lemma canvasSize_range (d : Z) (x : Q) :
  (0 <= d <= 2147483647)%Z -> (0 <= canvasSize d x <= 2147483647)%Z.
Proof.
  intros Hd. unfold canvasSize.
  pose proof (Z.mod_pos_bound (truncate x) 4294967296 eq_refl) as B.
  fold (toUint32 x) in B.
  destruct (Z.leb_spec (toUint32 x) 2147483647); lia.
Qed.

(** X13. The size given to [resize] reaches the shader as the canvas
    keeps it.  [resize] stores both sizes converted as the canvas
    converts them, hands them to the GL viewport, touches nothing else of
    the renderer, and the frame rendered next pushes [iResolution] with
    the stored sizes, which always lie between 0 and 2147483647.  For a
    size from 0 up to, but not including, 2147483648 the stored size
    is the size rounded down to a whole number, so whole sizes are
    pushed as given and fractional ones lose their fraction, and the
    viewport gets the same number; a size from -2147483648 to -1 is
    replaced by the default, 300 for the width and 150 for the
    height. *)
Theorem resize_sets_resolution (w : World) (p : Handle) (width height : Q) :
  gl (this w) = true -> program (this w) = Some p ->
  let w1 := exec (resize width height) w in
  let w2 := exec renderFrame w1 in
  let cw := canvasSize 300 width in
  let ch := canvasSize 150 height in
  this w1 = set_canvas cw ch (this w) /\
  glLog (host w1)
  = (glLog (host w) ++ [Viewport 0 0 (toInt32 width) (toInt32 height)])%list /\
  In (Uniform3f p "iResolution" (inject_Z cw) (inject_Z ch) 1)
     (glLog (host w2)) /\
  ((0 <= cw <= 2147483647)%Z /\ (0 <= ch <= 2147483647)%Z) /\
  (0 <= width -> width < 2147483648 ->
   inject_Z cw <= width /\ width < inject_Z cw + 1 /\ toInt32 width = cw) /\
  (0 <= height -> height < 2147483648 ->
   inject_Z ch <= height /\ height < inject_Z ch + 1 /\ toInt32 height = ch) /\
  (-2147483648 <= width -> width <= -1 -> cw = 300%Z) /\
  (-2147483648 <= height -> height <= -1 -> ch = 150%Z).
Proof.
  intros Hg Hp w1 w2 cw ch.
  assert (E1 : w1 = mkWorld (set_canvas cw ch (this w))
                      (set_glLog
                         (glLog (host w)
                          ++ [Viewport 0 0 (toInt32 width) (toInt32 height)])
                         (host w))).
  { unfold w1, exec, resize, bind, assign, field, gl_call, effect, ret.
    simpl. rewrite Hg. reflexivity. }
  split; [rewrite E1; reflexivity|]. split; [rewrite E1; reflexivity|].
  split.
  { unfold w2, exec. rewrite (@renderFrame_runs w1 p).
    - cbn [snd]. unfold after_frame. cbn [host]. wp_norm.
      apply in_or_app. right. unfold frame_commands. rewrite E1. simpl. tauto.
    - rewrite E1. exact Hg.
    - rewrite E1. exact Hp. }
  clearbody w1 w2. clear E1.
  split; [split; apply canvasSize_range; lia|].
  split; [|split; [|split]].
  - intros H0 H1. destruct (sizes_in_range 300 H0 H1) as [C T].
    destruct (truncate_nonneg H0) as (_ & L & U).
    unfold cw. rewrite C, T. repeat split; assumption.
  - intros H0 H1. destruct (sizes_in_range 150 H0 H1) as [C T].
    destruct (truncate_nonneg H0) as (_ & L & U).
    unfold ch. rewrite C, T. repeat split; assumption.
  - intros H0 H1. exact (sizes_negative 300 H0 H1).
  - intros H0 H1. exact (sizes_negative 150 H0 H1).
Qed.

Lemma resize_sets_resolution_witness :
  let w := exec (compile "void mainImage(out vec4 c, in vec2 p) {}")
             (fresh_world (fun _ => 0%Z)) in
  gl (this w) = true /\
  In (Uniform3f 3%nat "iResolution" (inject_Z (canvasSize 300 1000))
        (inject_Z (canvasSize 150 (1125 # 2))) 1)
     (glLog (host (exec renderFrame (exec (resize 1000 (1125 # 2)) w)))) /\
  canvasSize 300 1000 = 1000%Z /\ canvasSize 150 (1125 # 2) = 562%Z /\
  inject_Z (canvasSize 150 (1125 # 2)) <= 1125 # 2.
Proof.
  intros w.
  assert (Hg : gl (this w) = true) by (vm_compute; reflexivity).
  assert (Hp : program (this w) = Some 3%nat) by (vm_compute; reflexivity).
  assert (H0 : 0 <= 1125 # 2) by (vm_compute; discriminate).
  assert (H1 : 1125 # 2 < 2147483648) by (vm_compute; reflexivity).
  destruct (@resize_sets_resolution w 3%nat 1000 (1125 # 2) Hg Hp)
    as (_ & _ & H3 & _ & _ & H6 & _).
  split; [exact Hg|]. split; [exact H3|].
  split; [vm_compute; reflexivity|]. split; [vm_compute; reflexivity|].
  exact (proj1 (H6 H0 H1)).
Defined.

Local Close Scope Q_scope.

(** ** Unregistering and hovering *)

Lemma count_remove_first_same (l : Listener) (ls : list Listener) :
  count_occ Nat.eq_dec (remove_first l ls) l
  = Nat.pred (count_occ Nat.eq_dec ls l).
Proof.
  induction ls as [|y ys IH]; [reflexivity|].
  cbn [remove_first]. destruct (Nat.eqb_spec y l) as [E|E].
  - subst y. rewrite count_occ_cons_eq by reflexivity. reflexivity.
  - rewrite !count_occ_cons_neq by exact E. exact IH.
Qed.

Lemma filter_remove_first (l : Listener) (ls : list Listener) :
  filter (fun x => negb (Nat.eqb x l)) (remove_first l ls)
  = filter (fun x => negb (Nat.eqb x l)) ls.
Proof.
  induction ls as [|y ys IH]; [reflexivity|].
  cbn [remove_first]. destruct (Nat.eqb y l) eqn:E.
  - simpl. rewrite E. reflexivity.
  - simpl. rewrite E. simpl. rewrite IH. reflexivity.
Qed.

Lemma remove_first_absent (l : Listener) (ls : list Listener) :
  ~ In l ls -> remove_first l ls = ls.
Proof.
  induction ls as [|y ys IH]; intros H; [reflexivity|].
  cbn [remove_first]. destruct (Nat.eqb_spec y l) as [E|E].
  - exfalso. apply H. left. exact E.
  - rewrite IH; [reflexivity|]. intros Hin. apply H. right. exact Hin.
Qed.

(** X14. [off] undoes one registration.  It removes the oldest
    registration of the listener and no other: the listener is called
    one time less by the next broadcast, every other listener is called
    as before and in the same order, and unregistering a listener that is
    not registered changes nothing. *)
Theorem off_removes_one_registration (w : World) (l : Listener)
  (ev : RendererEvent) :
  let w1 := exec (off l) w in
  let w2 := exec (emit ev) w1 in
  let before := eventListeners (this w) in
  let after := eventListeners (this w1) in
  delivered (host w2) = delivered (host w) ++ map (fun x => (x, ev)) after /\
  count_occ Nat.eq_dec after l = Nat.pred (count_occ Nat.eq_dec before l) /\
  filter (fun x => negb (Nat.eqb x l)) after
  = filter (fun x => negb (Nat.eqb x l)) before /\
  (count_occ Nat.eq_dec before l = 0%nat -> w1 = w).
Proof.
  intros w1 w2 before after.
  assert (E : after = remove_first l before) by reflexivity.
  split; [|split; [|split]].
  - unfold w2, exec. rewrite emit_spec. reflexivity.
  - rewrite E. apply count_remove_first_same.
  - rewrite E. apply filter_remove_first.
  - intros H. apply count_occ_not_In in H.
    unfold w1, exec, off, assign. cbn [snd].
    fold before. rewrite (remove_first_absent _ _ H).
    destruct w as [[] ?]. reflexivity.
Qed.

Lemma off_removes_one_registration_witness :
  let w := exec (on 1%nat) (exec (on 2%nat) (exec (on 1%nat)
             (fresh_world (fun _ => 0%Z)))) in
  count_occ Nat.eq_dec (eventListeners (this w)) 3%nat = 0%nat /\
  exec (off 3%nat) w = w.
Proof.
  intros w.
  assert (H : count_occ Nat.eq_dec (eventListeners (this w)) 3%nat = 0%nat)
    by (vm_compute; reflexivity).
  split; [exact H|].
  exact (proj2 (proj2 (proj2
    (@off_removes_one_registration w 3%nat
       (mkRendererEvent compile_success None None)))) H).
Defined.

(** X15. Hovering does not move the pointer uniform: once the press has
    ended, by release or by leaving the canvas, no series of mouse moves
    changes anything; the four values of [iMouse] stay as they were. *)
Theorem hover_is_ignored (w : World) (moves : list (MouseEvent * DOMRect)) :
  exec (drag moves) (exec on_mouseup w) = exec on_mouseup w /\
  exec (drag moves) (exec on_mouseleave w) = exec on_mouseleave w.
Proof.
  assert (K : forall v : World, isMouseDown (this v) = false ->
                                exec (drag moves) v = v).
  { intros v Hv. induction moves as [|m ms IH]; [reflexivity|].
    unfold drag in *. rewrite exec_forEach_cons.
    rewrite (mousemove_released v (fst m) (snd m) Hv). exact IH. }
  split; apply K; reflexivity.
Qed.

(** ** Info logs of several lines *)

Local Open Scope string_scope.

Lemma lit_no_prefix (A : Type) (p : string) (k : string -> option A) :
  forall s, String.prefix p s = false -> Regex.lit p k s = None.
Proof.
  induction p as [|a p IH]; intros s H.
  - destruct s; discriminate H.
  - destruct s as [|b s]; [reflexivity|]. simpl in H |- *.
    destruct (ascii_dec a b) as [E|E].
    + subst b. rewrite Ascii.eqb_refl. exact (IH s H).
    + apply Ascii.eqb_neq in E. rewrite E. reflexivity.
Qed.

Lemma exec_no_mention (s : string) :
  mentions "ERROR:" s = false -> Regex.exec s = None.
Proof.
  induction s as [|a s IH]; intros H.
  - reflexivity.
  - cbn [mentions] in H. apply orb_false_iff in H. destruct H as [Hp Hs].
    cbn [Regex.exec]. unfold Regex.exec_at.
    rewrite (lit_no_prefix _ _ _ Hp). exact (IH Hs).
Qed.

Lemma exec_at_diagnostic_tail (id n : N) (msg : string) (t : ascii)
  (tail : string) :
  plain_message msg = true -> Js.isDot t = false ->
  Regex.exec_at (diagnostic id n msg ++ String t tail) = Some (decimal n, msg).
Proof.
  intros Hm Ht. unfold diagnostic. rewrite !append_assoc_string.
  unfold Regex.exec_at.
  change ("ERROR: " ++ decimal id ++ ":" ++ decimal n ++ ": " ++ msg
          ++ String t tail)
    with ("ERROR:" ++ " " ++ decimal id ++ ":" ++ decimal n ++ ": " ++ msg
          ++ String t tail).
  rewrite lit_prefix.
  destruct (decimal_digits id) as (a & ds & Eid & Ha & Hds).
  destruct (decimal_digits n) as (b & es & En & Hb & Hes).
  destruct msg as [|m ms]; [discriminate Hm|].
  simpl in Hm. apply andb_true_iff in Hm. destruct Hm as [Hvis Hdot].
  apply negb_true_iff in Hvis.
  apply andb_true_iff in Hdot. destruct Hdot as [Hm0 Hms].
  apply star_greedy; [reflexivity|].
  rewrite Eid. cbn [append].
  assert (Hsp : forall x, Js.isDigit x = true -> Js.isSpace x = false).
  { intros x. unfold Js.isDigit, Js.isSpace, Js.isWhiteSpace, Js.isLineTerminator.
    destruct x as [[] [] [] [] [] [] [] []]; reflexivity || discriminate. }
  rewrite star_stops by (apply Hsp; exact Ha).
  unfold Regex.plus. rewrite Ha.
  apply star_greedy; [exact Hds|].
  rewrite star_stops by reflexivity.
  rewrite lit_char. rewrite En. cbn [append].
  unfold Regex.plus_cap at 1. rewrite Hb.
  apply star_cap_greedy; [exact Hes|].
  rewrite star_cap_stops by reflexivity.
  rewrite lit_char.
  apply (star_greedy Js.isSpace _ " "); [reflexivity|].
  rewrite star_stops by exact Hvis.
  unfold Regex.plus_cap. rewrite Hm0.
  apply star_cap_greedy; [exact Hms|].
  rewrite star_cap_stops by exact Ht. reflexivity.
Qed.

Lemma parseErrorLine_line (l : LogLine) :
  line_ok l = true -> parseErrorLine (line_text l) = line_records l.
Proof.
  destruct l as [id n msg cr|text]; cbn [line_ok line_text line_records].
  - intros Hm. destruct cr.
    + unfold parseErrorLine.
      rewrite (exec_leftmost _
                 (exec_at_diagnostic_tail id n msg Js.CR "" Hm eq_refl)).
      rewrite parseInt_decimal. reflexivity.
    + rewrite append_empty_r. exact (parseErrorLine_diagnostic id n msg Hm).
  - intros H. apply andb_true_iff in H. destruct H as [_ H].
    apply negb_true_iff in H. unfold parseErrorLine.
    rewrite (exec_no_mention _ H). reflexivity.
Qed.

Lemma line_text_notLF (l : LogLine) :
  line_ok l = true -> all_chars notLF (line_text l) = true.
Proof.
  destruct l as [id n msg cr|text]; cbn [line_ok line_text].
  - intros Hm. rewrite all_chars_app, (diagnostic_notLF id n msg Hm).
    destruct cr; reflexivity.
  - intros H. apply andb_true_iff in H. exact (proj1 H).
Qed.

(** X16. An info log is translated line by line.  For a log whose lines
    are diagnostics [ERROR: id:n: msg], ended by a line feed or by a
    carriage return and a line feed, and lines that do not contain
    [ERROR:], the translator gives one record per diagnostic, in the
    order of the log: line [max 1 (n - 16)] with the message without the
    carriage return; the other lines give nothing. *)
Theorem parseErrors_log (ls : list LogLine) :
  forallb line_ok ls = true ->
  parseErrors (join_lines (map line_text ls)) = flat_map line_records ls.
Proof.
  induction ls as [|l rest IH]; intros H.
  - reflexivity.
  - cbn [forallb] in H. apply andb_true_iff in H. destruct H as [Hl Hrest].
    cbn [map join_lines flat_map].
    rewrite <- (parseErrorLine_line l Hl).
    destruct rest as [|r rs].
    + cbn [map flat_map]. unfold parseErrors.
      rewrite (split_lines_one _ (line_text_notLF l Hl)). reflexivity.
    + change (map line_text (r :: rs)) with (line_text r :: map line_text rs).
      cbv iota.
      rewrite (parseErrors_cons _ _ (line_text_notLF l Hl)).
      f_equal. exact (IH Hrest).
Qed.

Lemma parseErrors_log_witness :
  parseErrors
    (join_lines
       (map line_text
          [ Other "0 warnings";
            Diagnostic 0 30 "'x' : undeclared identifier" true;
            Diagnostic 0 12 "syntax error" false ]))
  = [ {| line := 14; message := "'x' : undeclared identifier" |};
      {| line := 1; message := "syntax error" |} ].
Proof.
  exact (parseErrors_log
           [ Other "0 warnings";
             Diagnostic 0 30 "'x' : undeclared identifier" true;
             Diagnostic 0 12 "syntax error" false ] eq_refl).
Defined.

(** ** What every translated record looks like *)

Lemma trimStart_all (c : ascii -> bool) (s : string) :
  all_chars c s = true -> all_chars c (Js.trimStart s) = true.
Proof.
  induction s as [|a s IH]; intros H; [reflexivity|].
  cbn [Js.trimStart]. destruct (Js.isSpace a); [|exact H].
  simpl in H. apply andb_true_iff in H. exact (IH (proj2 H)).
Qed.

Lemma trimEnd_all (c : ascii -> bool) (s : string) :
  all_chars c s = true -> all_chars c (Js.trimEnd s) = true.
Proof.
  induction s as [|a s IH]; intros H; [reflexivity|].
  simpl in H. apply andb_true_iff in H. destruct H as [Ha Hs].
  specialize (IH Hs). cbn [Js.trimEnd].
  destruct (Js.trimEnd s) as [|b t].
  - destruct (Js.isSpace a); [reflexivity|]. simpl. rewrite Ha. reflexivity.
  - cbn [all_chars]. rewrite Ha. exact IH.
Qed.

Lemma trimEnd_idem (s : string) : Js.trimEnd (Js.trimEnd s) = Js.trimEnd s.
Proof.
  induction s as [|a s IH]; [reflexivity|].
  cbn [Js.trimEnd]. destruct (Js.trimEnd s) as [|b t] eqn:E.
  - destruct (Js.isSpace a) eqn:Ha; [reflexivity|].
    cbn [Js.trimEnd]. rewrite Ha. reflexivity.
  - cbn [Js.trimEnd]. cbn [Js.trimEnd] in IH. rewrite IH. reflexivity.
Qed.

Lemma trimStart_visible (a : ascii) (s : string) :
  Js.isSpace a = false -> Js.trimStart (String a s) = String a s.
Proof. intros H. cbn [Js.trimStart]. rewrite H. reflexivity. Qed.

Lemma trimStart_head (s : string) :
  Js.trimStart s = "" \/
  exists a t, Js.trimStart s = String a t /\ Js.isSpace a = false.
Proof.
  induction s as [|a s IH]; [left; reflexivity|].
  cbn [Js.trimStart]. destruct (Js.isSpace a) eqn:Ha; [exact IH|].
  right. exists a, s. split; [reflexivity|exact Ha].
Qed.

Lemma trimEnd_head (a : ascii) (s : string) :
  Js.isSpace a = false -> exists t, Js.trimEnd (String a s) = String a t.
Proof.
  intros Ha. cbn [Js.trimEnd]. destruct (Js.trimEnd s) as [|b t].
  - rewrite Ha. exists "". reflexivity.
  - exists (String b t). reflexivity.
Qed.

Lemma trim_idem (s : string) : Js.trim (Js.trim s) = Js.trim s.
Proof.
  unfold Js.trim. destruct (trimStart_head s) as [E|(a & t & E & Ha)].
  - rewrite E. reflexivity.
  - rewrite E. destruct (@trimEnd_head a t Ha) as (u & Eu).
    rewrite Eu, (@trimStart_visible a u Ha), <- Eu. apply trimEnd_idem.
Qed.

Lemma split_lines_length (s : string) :
  List.length (Js.split_lines s) = S (Js.count_LF s).
Proof.
  induction s as [|a s IH]; [reflexivity|].
  cbn [Js.split_lines Js.count_LF]. destruct (Ascii.eqb a Js.LF).
  - cbn [List.length]. rewrite IH. reflexivity.
  - destruct (Js.split_lines s) as [|l ls]; [discriminate IH|].
    cbn [List.length] in *. exact IH.
Qed.

Lemma parseErrorLine_record (l : string) :
  (List.length (parseErrorLine l) <= 1)%nat /\
  Forall (fun e => (1 <= line e)%Z /\ trimmed (message e) /\
                   all_chars Js.isDot (message e) = true)
         (parseErrorLine l).
Proof.
  unfold parseErrorLine. destruct (Regex.exec l) as [[g1 g2]|] eqn:E.
  - split; [apply Nat.le_refl|]. constructor; [|constructor].
    cbn [line message]. split; [lia|]. split; [apply trim_idem|].
    destruct (exec_captures _ E) as (_ & _ & _ & _ & Hdot).
    unfold Js.trim. apply trimEnd_all, trimStart_all. exact Hdot.
  - split; [apply Nat.le_0_l|constructor].
Qed.

(** X17. What every translated record looks like, whatever the info log:
    its line is at least 1, its message has no white space at either end
    and no line terminator inside, and there is at most one record per
    line of the log. *)
Theorem parseErrors_records (errorLog : string) :
  (List.length (parseErrors errorLog) <= S (Js.count_LF errorLog))%nat /\
  Forall (fun e => (1 <= line e)%Z /\ trimmed (message e) /\
                   all_chars Js.isDot (message e) = true)
         (parseErrors errorLog).
Proof.
  unfold parseErrors. rewrite <- split_lines_length.
  induction (Js.split_lines errorLog) as [|l ls [IH1 IH2]].
  - split; [apply Nat.le_refl|constructor].
  - cbn [flat_map List.length].
    destruct (parseErrorLine_record l) as [H1 H2]. split.
    + rewrite length_app. lia.
    + apply Forall_app. split; assumption.
Qed.

(** ** Where the user code lands *)

Lemma substring_skip (s t : string) (n : nat) :
  substring (String.length s) n (s ++ t) = substring 0 n t.
Proof. induction s as [|a s IH]; [reflexivity|exact IH]. Qed.

Lemma substring_whole (s t : string) :
  substring 0 (String.length s) (s ++ t) = s.
Proof.
  induction s as [|a s IH]; simpl.
  - destruct t; reflexivity.
  - rewrite IH. reflexivity.
Qed.

(** X18. The assembler embeds the user code verbatim, 22 lines down: the
    assembled fragment source holds the user code unchanged right after
    the preamble, and the character at any offset of the user code lies
    22 lines further down in the assembled source than in the user
    code, so user line 1 is assembled line 23. *)
Theorem user_code_is_embedded (userCode : string) (i : nat) :
  (i <= String.length userCode)%nat ->
  substring (String.length fragmentPreamble) (String.length userCode)
    (createFragmentShader userCode) = userCode /\
  line_of_offset (createFragmentShader userCode)
    (String.length fragmentPreamble + i)
  = (22 + line_of_offset userCode i)%Z /\
  line_of_offset (createFragmentShader userCode)
    (String.length fragmentPreamble) = 23%Z.
Proof.
  intros Hi. split; [|split].
  - unfold createFragmentShader. rewrite substring_skip. apply substring_whole.
  - rewrite (user_line_in_assembled_source userCode Hi). reflexivity.
  - rewrite <- (Nat.add_0_r (String.length fragmentPreamble)).
    rewrite (@user_line_in_assembled_source userCode 0 (Nat.le_0_l _)).
    unfold line_of_offset. destruct userCode; reflexivity.
Qed.

Lemma user_code_is_embedded_witness :
  line_of_offset (createFragmentShader "void mainImage(){}")
    (String.length fragmentPreamble + 4)
  = (22 + line_of_offset "void mainImage(){}" 4)%Z.
Proof.
  refine (proj1 (proj2 (@user_code_is_embedded "void mainImage(){}" 4 _))).
  simpl. lia.
Defined.

Local Close Scope string_scope.

(** ** From the pointer to the shader *)

Lemma mousemove_keeps (w : World) (e : MouseEvent) (rect : DOMRect) :
  gl (this (exec (on_mousemove e rect) w)) = gl (this w) /\
  program (this (exec (on_mousemove e rect) w)) = program (this w).
Proof.
  destruct (isMouseDown (this w)) eqn:E.
  - rewrite (mousemove_pressed w e rect E). split; reflexivity.
  - rewrite (mousemove_released w e rect E). split; reflexivity.
Qed.

Lemma drag_keeps (moves : list (MouseEvent * DOMRect)) :
  forall w : World,
  gl (this (exec (drag moves) w)) = gl (this w) /\
  program (this (exec (drag moves) w)) = program (this w).
Proof.
  induction moves as [|m ms IH]; intros w; [split; reflexivity|].
  unfold drag in *. rewrite exec_forEach_cons.
  destruct (IH (exec (on_mousemove (fst m) (snd m)) w)) as [H1 H2].
  destruct (mousemove_keeps w (fst m) (snd m)) as [K1 K2].
  rewrite H1, H2, K1, K2. split; reflexivity.
Qed.

Lemma frame_pushes_mouse (w : World) (p : Handle) :
  gl (this w) = true -> program (this w) = Some p ->
  In (Uniform4f p "iMouse" (inject_Z (m0 (mouse (this w))))
        (inject_Z (m1 (mouse (this w)))) (inject_Z (m2 (mouse (this w))))
        (inject_Z (m3 (mouse (this w)))))
     (glLog (host (exec renderFrame w))).
Proof.
  intros Hg Hp. unfold exec. rewrite (renderFrame_runs w Hg Hp).
  cbn [snd]. unfold after_frame. cbn [host]. wp_norm.
  apply in_or_app. right. unfold frame_commands. simpl. tauto.
Qed.

Lemma pointer_uniforms (w : World) (p : Handle)
  (e : MouseEvent) (rect : DOMRect) (moves : list (MouseEvent * DOMRect)) :
  gl (this w) = true -> program (this w) = Some p ->
  let x := surfaceX e rect in
  let y := surfaceY e rect in
  let cur := last_position (e, rect) moves in
  let held := exec (drag moves) (exec (on_mousedown e rect) w) in
  let released := exec on_mouseup held in
  In (Uniform4f p "iMouse" (inject_Z (fst cur)) (inject_Z (snd cur))
        (inject_Z x) (inject_Z y))
     (glLog (host (exec renderFrame held))) /\
  In (Uniform4f p "iMouse" (inject_Z (fst cur)) (inject_Z (snd cur))
        (inject_Z (- Z.abs x)) (inject_Z (- Z.abs y)))
     (glLog (host (exec renderFrame released))).
Proof.
  intros Hg Hp x y cur held released.
  set (w1 := exec (on_mousedown e rect) w).
  assert (E1 : w1 = mkWorld (set_mouse (mkMouse x y x y)
                               (set_isMouseDown true (this w))) (host w))
    by reflexivity.
  assert (Hd1 : isMouseDown (this w1) = true) by (rewrite E1; reflexivity).
  destruct (@drag_pressed moves w1 (e, rect) Hd1) as [Hd2 Hm2];
    [rewrite E1; reflexivity|rewrite E1; reflexivity|].
  change (exec (drag moves) w1) with held in Hd2, Hm2. fold cur in Hm2.
  destruct (drag_keeps moves w1) as [G2 P2].
  change (exec (drag moves) w1) with held in G2, P2.
  assert (Hg2 : gl (this held) = true) by (rewrite G2, E1; exact Hg).
  assert (Hp2 : program (this held) = Some p) by (rewrite P2, E1; exact Hp).
  assert (Hm2' : mouse (this held) = mkMouse (fst cur) (snd cur) x y)
    by (rewrite Hm2, E1; reflexivity).
  split.
  - pose proof (frame_pushes_mouse held Hg2 Hp2) as H.
    rewrite Hm2' in H. exact H.
  - assert (E3 : released
                 = mkWorld (set_mouse (mkMouse (fst cur) (snd cur)
                                         (- Z.abs x) (- Z.abs y))
                              (set_isMouseDown false (this held)))
                     (host held)).
    { unfold released. rewrite mouseup_any, Hm2'. reflexivity. }
    assert (Hg3 : gl (this released) = true) by (rewrite E3; exact Hg2).
    assert (Hp3 : program (this released) = Some p) by (rewrite E3; exact Hp2).
    pose proof (frame_pushes_mouse released Hg3 Hp3) as H.
    rewrite E3 in H at 1 2 3 4. exact H.
Qed.

Lemma click_sign (x : Z) :
  ((0 < x)%Z -> (0 < x)%Z /\ (- Z.abs x < 0)%Z) /\
  ((x <= 0)%Z -> (- Z.abs x)%Z = x).
Proof. lia. Qed.

(** X19. What the shader sees of a click.  A frame rendered while the
    button is held pushes [iMouse] with the current position in its
    first two components and the click position in the last two; a
    frame rendered after the release pushes the same current position
    and the negated absolute values of the click position.  For a click
    at a surface position right of the left edge the third component is
    therefore positive while the button is held and negative after the
    release; for a click on the left edge or left of it (the handlers
    do not clamp) the component pushed after the release is the one
    pushed while held, so it does not tell the two apart. *)
Theorem pointer_reaches_shader (w : World) (p : Handle)
  (e : MouseEvent) (rect : DOMRect) (moves : list (MouseEvent * DOMRect)) :
  gl (this w) = true -> program (this w) = Some p ->
  let x := surfaceX e rect in
  let y := surfaceY e rect in
  let cur := last_position (e, rect) moves in
  let held := exec (drag moves) (exec (on_mousedown e rect) w) in
  let released := exec on_mouseup held in
  exists zh zr : Z,
    In (Uniform4f p "iMouse" (inject_Z (fst cur)) (inject_Z (snd cur))
          (inject_Z zh) (inject_Z y))
       (glLog (host (exec renderFrame held))) /\
    In (Uniform4f p "iMouse" (inject_Z (fst cur)) (inject_Z (snd cur))
          (inject_Z zr) (inject_Z (- Z.abs y)))
       (glLog (host (exec renderFrame released))) /\
    zh = x /\ zr = (- Z.abs x)%Z /\
    ((0 < x)%Z -> (0 < zh)%Z /\ (zr < 0)%Z) /\
    ((x <= 0)%Z -> zr = zh).
Proof.
  intros Hg Hp x y cur held released.
  destruct (@pointer_uniforms w p e rect moves Hg Hp) as [H1 H2].
  destruct (click_sign x) as [S1 S2].
  exists x, (- Z.abs x)%Z.
  split; [exact H1|]. split; [exact H2|].
  split; [reflexivity|]. split; [reflexivity|].
  split; [exact S1|exact S2].
Qed.

Lemma pointer_reaches_shader_witness :
  let w := exec (compile "void mainImage(out vec4 c, in vec2 p) {}")
             (fresh_world (fun _ => 0%Z)) in
  let e := mkMouseEvent 110 70 in
  let rect := mkDOMRect 10 20 360 in
  let cur := last_position (e, rect) [] in
  gl (this w) = true /\
  exists zh zr : Z,
    In (Uniform4f 3%nat "iMouse" (inject_Z (fst cur)) (inject_Z (snd cur))
          (inject_Z zr) (inject_Z (- Z.abs (surfaceY e rect))))
       (glLog (host (exec renderFrame
                       (exec on_mouseup
                          (exec (drag []) (exec (on_mousedown e rect) w)))))) /\
    (0 < zh)%Z /\ (zr < 0)%Z.
Proof.
  intros w e rect cur.
  assert (Hg : gl (this w) = true) by (vm_compute; reflexivity).
  assert (Hp : program (this w) = Some 3%nat) by (vm_compute; reflexivity).
  assert (Hx : (0 < surfaceX e rect)%Z) by (vm_compute; reflexivity).
  split; [exact Hg|].
  destruct (@pointer_reaches_shader w 3%nat e rect [] Hg Hp)
    as (zh & zr & _ & H2 & _ & _ & H5 & _).
  exists zh, zr. split; [exact H2|]. exact (H5 Hx).
Defined.

(** ** The page: canvas size *)

Local Open Scope Q_scope.

(** X20. The canvas always fits its container at 16:9.  Whatever the
    size of the container, the CSS size [resizeCanvas] gives the canvas
    is no wider and no higher than the container, has width 16/9 of its
    height, and fills the container in one direction; the size handed
    to the renderer has the same proportion. *)
Theorem canvas_fits_container (rectWidth rectHeight devicePixelRatio : Q) :
  let c := Main.resizeCanvas rectWidth rectHeight devicePixelRatio in
  Main.cssWidth c <= rectWidth /\
  Main.cssHeight c <= rectHeight /\
  Main.cssWidth c == Main.cssHeight c * (16 / 9) /\
  (Main.cssWidth c == rectWidth \/ Main.cssHeight c == rectHeight) /\
  Main.pixelWidth c == Main.pixelHeight c * (16 / 9).
Proof.
  intros c. unfold c, Main.resizeCanvas, Main.aspectRatio.
  destruct rectWidth as [a b], rectHeight as [u v],
    devicePixelRatio as [r t].
  destruct (Qle_bool ((a # b) / (16 / 9)) (u # v)) eqn:E;
    cbn [negb fst snd Main.cssWidth Main.cssHeight Main.pixelWidth
         Main.pixelHeight].
  - apply Qle_bool_iff in E. revert E.
    unfold Qle, Qeq, Qdiv, Qmult, Qinv, inject_Z.
    cbn [Qnum Qden Z.mul Pos.mul]. intros E.
    repeat split; try (left); try lia.
  - assert (E' : ~ ((a # b) / (16 / 9) <= u # v)).
    { intros H. apply Qle_bool_iff in H. rewrite H in E. discriminate E. }
    revert E'.
    unfold Qle, Qeq, Qdiv, Qmult, Qinv, inject_Z.
    cbn [Qnum Qden Z.mul Pos.mul]. intros E'.
    repeat split; try (right); try lia.
Qed.

Local Close Scope Q_scope.

(** ** The page: debounced compile *)

Lemma scheduleCompile_spec (p : Main.Page) :
  page_ok p ->
  Main.scheduleCompile p
  = Main.mkPage (Some (Main.timerNext p)) (S (Main.timerNext p))
      [Main.timerNext p] (Main.compiles p).
Proof.
  intros [Hn [Ht|(id & Hc & Ht & Hid)]]; unfold Main.scheduleCompile.
  - destruct (Main.truthy (Main.compileTimeout p)).
    + destruct (Main.compileTimeout p) as [i|];
        unfold Main.clearTimeout, Main.setTimeout;
        cbn [Main.timers Main.timerNext Main.compiles];
        rewrite Ht; reflexivity.
    + unfold Main.setTimeout. rewrite Ht. reflexivity.
  - rewrite Hc. destruct id as [|k]; [lia|].
    cbn [Main.truthy]. unfold Main.clearTimeout, Main.setTimeout.
    cbn [Main.timers Main.timerNext Main.compiles].
    rewrite Ht, remove_handle_self. reflexivity.
Qed.

Lemma page_ok_schedule (p : Main.Page) :
  page_ok p ->
  page_ok (Main.scheduleCompile p) /\
  Main.compiles (Main.scheduleCompile p) = Main.compiles p.
Proof.
  intros Hok. rewrite (scheduleCompile_spec Hok). destruct Hok as [Hn _].
  split; [|reflexivity].
  split; [cbn [Main.timerNext]; lia|]. right.
  exists (Main.timerNext p). cbn [Main.compileTimeout Main.timers Main.timerNext].
  repeat split; lia.
Qed.

Lemma page_ok_drop (p : Main.Page) :
  page_ok p ->
  page_ok (Main.dropTimeout p) /\
  Main.compiles (Main.dropTimeout p) = Main.compiles p.
Proof.
  intros Hok. unfold Main.dropTimeout.
  destruct Hok as [Hn [Ht|(id & Hc & Ht & Hid)]].
  - destruct (Main.truthy (Main.compileTimeout p)).
    + destruct (Main.compileTimeout p) as [i|];
        unfold Main.clearTimeout;
        cbn [Main.timers Main.timerNext Main.compiles Main.compileTimeout];
        rewrite ?Ht; (split; [|reflexivity]);
        (split; [exact Hn|left; reflexivity]).
    + split; [|reflexivity]. split; [exact Hn|left; exact Ht].
  - rewrite Hc. destruct id as [|k]; [lia|]. cbn [Main.truthy].
    unfold Main.clearTimeout.
    cbn [Main.timers Main.timerNext Main.compiles Main.compileTimeout].
    rewrite Ht, remove_handle_self.
    split; [|reflexivity]. split; [exact Hn|left; reflexivity].
Qed.

Lemma drop_timerNext (p : Main.Page) :
  Main.timerNext (Main.dropTimeout p) = Main.timerNext p.
Proof.
  unfold Main.dropTimeout. destruct (Main.truthy (Main.compileTimeout p));
    [|reflexivity].
  destruct (Main.compileTimeout p); reflexivity.
Qed.

Lemma page_ok_compile (p : Main.Page) :
  page_ok p ->
  page_ok (Main.compile p) /\
  Main.compiles (Main.compile p) = S (Main.compiles p).
Proof.
  intros Hok. split; [|reflexivity].
  destruct Hok as [Hn [Ht|(id & Hc & Ht & Hid)]].
  - split; [exact Hn|left; exact Ht].
  - split; [exact Hn|]. right. exists id.
    cbn [Main.compile Main.compileTimeout Main.timers Main.timerNext].
    repeat split; try assumption; lia.
Qed.

Lemma page_ok_handle (e : Main.Event) (p : Main.Page) :
  page_ok p ->
  page_ok (Main.handle e p) /\
  (Main.compiles p <= Main.compiles (Main.handle e p)
   <= Main.compiles p + (if is_edit e then 0 else 1))%nat.
Proof.
  intros Hok. destruct e as [|id'|hasShader hasEditor|];
    cbn [Main.handle is_edit].
  - destruct (page_ok_schedule Hok) as [H1 H2]. split; [exact H1|lia].
  - destruct Hok as [Hn [Ht|(id & Hc & Ht & Hid)]]; unfold Main.timeout.
    + rewrite Ht. cbn [existsb]. split; [|lia].
      split; [exact Hn|left; exact Ht].
    + rewrite Ht. cbn [existsb]. rewrite orb_false_r.
      destruct (Nat.eqb_spec id' id) as [E|E].
      * subst id'. rewrite remove_handle_self.
        split; [|cbn [Main.compile Main.compiles]; lia].
        split; [exact Hn|left; reflexivity].
      * split; [|lia]. split; [exact Hn|].
        right. exists id. repeat split; try assumption; lia.
  - unfold Main.onSelect.
    assert (K1 : page_ok (if (hasShader && hasEditor)%bool
                          then Main.dropTimeout p else p) /\
                 Main.compiles (if (hasShader && hasEditor)%bool
                                then Main.dropTimeout p else p)
                 = Main.compiles p).
    { destruct (hasShader && hasEditor)%bool;
        [exact (page_ok_drop Hok)|split; [exact Hok|reflexivity]]. }
    destruct K1 as [Hok1 C1].
    set (p1 := if (hasShader && hasEditor)%bool
               then Main.dropTimeout p else p) in *.
    assert (K2 : page_ok (if hasEditor then Main.scheduleCompile p1 else p1) /\
                 Main.compiles (if hasEditor then Main.scheduleCompile p1 else p1)
                 = Main.compiles p).
    { destruct hasEditor.
      - destruct (page_ok_schedule Hok1) as [H1 H2].
        split; [exact H1|]. rewrite H2. exact C1.
      - split; [exact Hok1|exact C1]. }
    destruct K2 as [Hok2 C2].
    destruct (page_ok_compile Hok2) as [H3 C3].
    split; [exact H3|]. rewrite C3, C2. lia.
  - destruct (page_ok_compile Hok) as [H3 C3].
    split; [exact H3|]. rewrite C3. lia.
Qed.

(** X21. At most one compile is ever waiting.  From a page where the
    only pending timeout, if any, is the one [compileTimeout] names,
    every sequence of edits, timeouts (stale ones included), project
    selections (which drop the pending timeout and, through the
    editor's change handler, set a new one) and presses of the compile
    button leads to such a page again, so never more than one timeout
    is pending; an edit never compiles by itself, and every other event
    compiles at most once.  A selection made with an editor present
    always leaves one timeout pending, the one its [setValue] caused. *)
Theorem one_compile_pending (p : Main.Page) (events : list Main.Event) :
  page_ok p ->
  let p' := Main.run_events events p in
  page_ok p' /\
  (List.length (Main.timers p') <= 1)%nat /\
  (Main.compiles p <= Main.compiles p'
   <= Main.compiles p
      + List.length (filter (fun e => negb (is_edit e)) events))%nat /\
  (forall hasShader : bool,
     Main.timers (Main.onSelect hasShader true p') = [Main.timerNext p']).
Proof.
  intros Hok p'.
  assert (K : page_ok p' /\
              (Main.compiles p <= Main.compiles p'
               <= Main.compiles p
                  + List.length (filter (fun e => negb (is_edit e)) events))%nat).
  { unfold p'. clear p'. revert p Hok.
    induction events as [|e es IH]; intros p Hok.
    - cbn. split; [exact Hok|lia].
    - destruct (page_ok_handle e Hok) as [Hok1 Hc1].
      destruct (IH _ Hok1) as [Hok2 Hc2].
      unfold Main.run_events in *. cbn [fold_left filter].
      split; [exact Hok2|].
      destruct (is_edit e); cbn [negb List.length]; lia. }
  destruct K as [Hok' Hc]. split; [exact Hok'|].
  split; [|split; [exact Hc|]].
  - destruct Hok' as [_ [Ht|(id & _ & Ht & _)]]; rewrite Ht; cbn; lia.
  - intros hasShader. unfold Main.onSelect. cbn [Main.compile Main.timers].
    assert (K1 : page_ok (if (hasShader && true)%bool
                          then Main.dropTimeout p' else p') /\
                 Main.timerNext (if (hasShader && true)%bool
                                 then Main.dropTimeout p' else p')
                 = Main.timerNext p').
    { destruct (hasShader && true)%bool.
      - split; [exact (proj1 (page_ok_drop Hok'))|apply drop_timerNext].
      - split; [exact Hok'|reflexivity]. }
    destruct K1 as [Hok1 T1].
    rewrite (scheduleCompile_spec Hok1). cbn [Main.timers].
    rewrite T1. reflexivity.
Qed.

Lemma one_compile_pending_witness :
  let p' := Main.run_events
              [Main.Edit; Main.Edit; Main.Timeout 1; Main.Edit;
               Main.Select true true; Main.Timeout 4] Main.initial in
  page_ok Main.initial /\ (List.length (Main.timers p') <= 1)%nat.
Proof.
  intros p'.
  assert (H : page_ok Main.initial).
  { split; [cbn; lia|left; reflexivity]. }
  split; [exact H|].
  exact (proj1 (proj2
    (@one_compile_pending Main.initial
       [Main.Edit; Main.Edit; Main.Timeout 1; Main.Edit;
        Main.Select true true; Main.Timeout 4] H))).
Defined.

Lemma edits_spec (n : nat) :
  forall p : Main.Page, page_ok p ->
  Main.run_events (repeat Main.Edit (S n)) p
  = Main.mkPage (Some (Main.timerNext p + n)%nat) (S (Main.timerNext p + n))
      [(Main.timerNext p + n)%nat] (Main.compiles p).
Proof.
  induction n as [|n IH]; intros p Hok.
  - cbn [repeat Main.run_events fold_left Main.handle].
    rewrite (scheduleCompile_spec Hok), Nat.add_0_r. reflexivity.
  - change (repeat Main.Edit (S (S n)))
      with (Main.Edit :: repeat Main.Edit (S n)).
    change (Main.run_events (Main.Edit :: repeat Main.Edit (S n)) p)
      with (Main.run_events (repeat Main.Edit (S n)) (Main.scheduleCompile p)).
    destruct (@page_ok_handle Main.Edit p Hok) as [Hok1 _].
    cbn [Main.handle] in Hok1. rewrite (IH _ Hok1).
    rewrite (scheduleCompile_spec Hok).
    cbn [Main.timerNext Main.compiles].
    replace (S (Main.timerNext p) + n)%nat with (Main.timerNext p + S n)%nat
      by lia.
    reflexivity.
Qed.

(** X22. A burst of edits compiles once.  After one or more edits in a
    row, exactly one timeout is pending, the one set by the last edit,
    and nothing has been compiled; when that timeout runs, [compile] is
    called once and nothing is left pending; the timeouts of the earlier
    edits never run [compile]. *)
Theorem burst_of_edits_compiles_once (p : Main.Page) (n : nat) (stale : nat) :
  page_ok p ->
  let id := (Main.timerNext p + n)%nat in
  let p' := Main.run_events (repeat Main.Edit (S n)) p in
  Main.timers p' = [id] /\
  Main.compileTimeout p' = Some id /\
  Main.compiles p' = Main.compiles p /\
  Main.timers (Main.timeout id p') = [] /\
  Main.compiles (Main.timeout id p') = S (Main.compiles p) /\
  (stale <> id -> Main.timeout stale p' = p').
Proof.
  intros Hok id p'. unfold p'. rewrite (edits_spec n Hok). fold id.
  cbn [Main.timers Main.compileTimeout Main.compiles].
  repeat split.
  - unfold Main.timeout. cbn [Main.timers existsb].
    rewrite Nat.eqb_refl. cbn [orb Main.compile Main.timers].
    apply remove_handle_self.
  - unfold Main.timeout. cbn [Main.timers existsb].
    rewrite Nat.eqb_refl. reflexivity.
  - intros Hs. unfold Main.timeout. cbn [Main.timers existsb].
    apply Nat.eqb_neq in Hs. rewrite Hs. reflexivity.
Qed.

Lemma burst_of_edits_compiles_once_witness :
  let p' := Main.run_events (repeat Main.Edit 5) Main.initial in
  page_ok Main.initial /\
  Main.timers p' = [5%nat] /\
  Main.timeout 2 p' = p'.
Proof.
  intros p'.
  assert (H : page_ok Main.initial).
  { split; [cbn; lia|left; reflexivity]. }
  destruct (@burst_of_edits_compiles_once Main.initial 4 2 H)
    as (H1 & _ & _ & _ & _ & H6).
  split; [exact H|]. split; [exact H1|].
  apply H6. cbn. lia.
Defined.

(** ** The shader store *)

Local Open Scope string_scope.

Lemma get_delete_same (i : string) (l : list ShaderManager.ShaderProject) :
  ShaderManager.get i (ShaderManager.delete i l) = None.
Proof.
  induction l as [|x l IH]; [reflexivity|].
  unfold ShaderManager.get, ShaderManager.delete in *. cbn [filter].
  destruct (String.eqb (ShaderManager.id x) i) eqn:E; cbn [negb]; [exact IH|].
  cbn [find]. rewrite E. exact IH.
Qed.

Lemma get_delete_other (i j : string) (l : list ShaderManager.ShaderProject) :
  j <> i ->
  ShaderManager.get j (ShaderManager.delete i l) = ShaderManager.get j l.
Proof.
  intros Hj. induction l as [|x l IH]; [reflexivity|].
  unfold ShaderManager.get, ShaderManager.delete in *. cbn [filter find].
  destruct (String.eqb (ShaderManager.id x) i) eqn:E; cbn [negb].
  - apply String.eqb_eq in E.
    destruct (String.eqb_spec (ShaderManager.id x) j) as [F|F];
      [congruence|exact IH].
  - cbn [find]. destruct (String.eqb (ShaderManager.id x) j); [reflexivity|].
    exact IH.
Qed.

Lemma get_app_one (i : string) (l : list ShaderManager.ShaderProject)
  (s : ShaderManager.ShaderProject) :
  ShaderManager.get i (l ++ [s])
  = match ShaderManager.get i l with
    | Some x => Some x
    | None => if String.eqb (ShaderManager.id s) i then Some s else None
    end.
Proof.
  induction l as [|x l IH]; [reflexivity|].
  unfold ShaderManager.get in *. cbn [app find].
  destruct (String.eqb (ShaderManager.id x) i); [reflexivity|exact IH].
Qed.

Lemma get_put_same (s : ShaderManager.ShaderProject)
  (l : list ShaderManager.ShaderProject) :
  ShaderManager.get (ShaderManager.id s) (ShaderManager.put s l) = Some s.
Proof.
  unfold ShaderManager.put. rewrite get_app_one, get_delete_same.
  rewrite String.eqb_refl. reflexivity.
Qed.

Lemma get_put_other (j : string) (s : ShaderManager.ShaderProject)
  (l : list ShaderManager.ShaderProject) :
  j <> ShaderManager.id s ->
  ShaderManager.get j (ShaderManager.put s l) = ShaderManager.get j l.
Proof.
  intros Hj. unfold ShaderManager.put.
  rewrite get_app_one, (get_delete_other l Hj).
  destruct (ShaderManager.get j l); [reflexivity|].
  destruct (String.eqb_spec (ShaderManager.id s) j) as [E|E];
    [congruence|reflexivity].
Qed.


(** X23. A created shader is stored as returned.  [createShader] returns
    a project with the given name, equal creation and update times and
    one file [main.glsl]; the file holds the given code, or the default
    shader when the code is missing or empty; [getShader] for its id
    answers the same project, and the answer for every other id is as
    before. *)
Theorem created_shader_is_stored (d : ShaderManager.Db) (nm : string)
  (c : option string) (j : string) :
  let s := fst (ShaderManager.createShader nm c d) in
  let d' := snd (ShaderManager.createShader nm c d) in
  ShaderManager.getShader (ShaderManager.id s) d' = Some s /\
  ShaderManager.name s = nm /\
  ShaderManager.createdAt s = ShaderManager.updatedAt s /\
  ShaderManager.files s
  = [ShaderManager.mkShaderFile "main.glsl" (ShaderManager.getShaderMainCode s)] /\
  ShaderManager.getShaderMainCode s
  = match c with
    | Some (String a t) => String a t
    | _ => DEFAULT_SHADER
    end /\
  (j <> ShaderManager.id s ->
   ShaderManager.getShader j d' = ShaderManager.getShader j d).
Proof.
  intros s d'. unfold s, d', ShaderManager.createShader,
    ShaderManager.generateId, ShaderManager.Date_now,
    ShaderManager.getShader, ShaderManager.set_shaders.
  cbn [fst snd ShaderManager.shaders ShaderManager.now ShaderManager.nowReads
       ShaderManager.random ShaderManager.randomReads].
  split; [apply get_put_same|].
  split; [reflexivity|]. split; [reflexivity|].
  split; [reflexivity|]. split.
  - destruct c as [[|a t]|]; reflexivity.
  - intros Hj. apply get_put_other. exact Hj.
Qed.

Lemma created_shader_is_stored_witness :
  let s := fst (ShaderManager.createShader "Untitled" (Some "") empty_db) in
  let d' := snd (ShaderManager.createShader "Untitled" (Some "") empty_db) in
  ShaderManager.getShader "shader_0" d' = None.
Proof.
  intros s d'.
  refine (eq_trans
    (proj2 (proj2 (proj2 (proj2 (proj2
       (@created_shader_is_stored empty_db "Untitled" (Some "") "shader_0")))))
       _) _).
  - vm_compute. intros H. discriminate H.
  - reflexivity.
Defined.






(** X25. A deleted shader cannot be updated.  After [deleteShader],
    [getShader] for the id answers nothing and the answer for every
    other id is as before; an [updateShader] for the id is rejected
    with the message naming it, reads no clock and leaves the store as
    [deleteShader] left it. *)
Theorem deleted_shader_is_gone (d : ShaderManager.Db) (i j : string)
  (u : ShaderManager.Updates) :
  let d' := ShaderManager.deleteShader i d in
  ShaderManager.getShader i d' = None /\
  ShaderManager.updateShader i u d'
  = (ShaderManager.rejected ("Shader with id " ++ i ++ " not found"), d') /\
  (j <> i -> ShaderManager.getShader j d' = ShaderManager.getShader j d).
Proof.
  intros d'.
  assert (H : ShaderManager.getShader i d' = None).
  { unfold d', ShaderManager.getShader, ShaderManager.deleteShader,
      ShaderManager.set_shaders. cbn [ShaderManager.shaders].
    apply get_delete_same. }
  split; [exact H|]. split.
  - unfold ShaderManager.updateShader. unfold ShaderManager.getShader in H.
    rewrite H. reflexivity.
  - intros Hj. unfold d', ShaderManager.getShader, ShaderManager.deleteShader,
      ShaderManager.set_shaders. cbn [ShaderManager.shaders].
    apply get_delete_other. exact Hj.
Qed.

Local Close Scope string_scope.

(** ** What the listeners are told *)

(** X26. The event of a compile matches its outcome.  One call of
    [compile] sends at most one event, to every listener in
    registration order; when it answers [true] the event is
    [compile-success]; when it answers [false] the event is a
    [compile-error] carrying a list of diagnostics, or there is no event
    at all.  So success is never announced for a failed compile, nor an
    error for a successful one. *)
Theorem compile_event_matches_outcome (w : World) (src : string) :
  let ok := eval (compile src) w in
  let w' := exec (compile src) w in
  exists ev : option RendererEvent,
    delivered (host w')
    = (delivered (host w)
       ++ match ev with
          | Some e => map (fun l => (l, e)) (eventListeners (this w))
          | None => []
          end)%list /\
    (ok = true -> ev = Some (mkRendererEvent compile_success None None)) /\
    (ok = false ->
     ev = None \/
     exists errs, ev = Some (mkRendererEvent compile_error (Some errs) None)).
Proof.
  intros ok w'.
  destruct (compile_spec src w) as (Ha & _ & _ & _ & _ & _ & Hd).
  fold ok in Ha. fold w' in Hd. rewrite Hd, Ha. clear Hd Ha.
  unfold events_after, fragment_ok.
  destruct (vertex_ok w); cbn [andb].
  - destruct (createOk (host w) (S (nextHandle (host w)))); cbn [andb].
    + destruct (shaderStatus (host w) (S (nextHandle (host w)))); cbn [andb].
      * destruct (link_ok w).
        -- exists (Some (mkRendererEvent compile_success None None)).
           split; [reflexivity|]. split; [reflexivity|discriminate].
        -- exists None. rewrite app_nil_r.
           split; [reflexivity|]. split; [discriminate|left; reflexivity].
      * eexists (Some _). split; [reflexivity|].
        split; [discriminate|]. intros _. right. eexists. reflexivity.
    + exists None. rewrite app_nil_r.
      split; [reflexivity|]. split; [discriminate|left; reflexivity].
  - exists None. rewrite app_nil_r.
    split; [reflexivity|]. split; [discriminate|left; reflexivity].
Qed.

Local Open Scope Q_scope.

(** X27. The frame event agrees with the uniforms of its frame.  For a
    rendered frame, every listener receives one [frame] event, in
    registration order, whose state carries the [iTime] and the
    [iFrameRate] pushed for that frame and the play state; its frame
    number is the frame counter after the frame, one more than the
    [iFrame] the shader saw. *)
Theorem frame_event_matches_uniforms (w : World) (p : Handle) :
  gl (this w) = true -> program (this w) = Some p ->
  let w' := exec renderFrame w in
  exists time fps : Q,
    In (Uniform1f p "iTime" time) (glLog (host w')) /\
    In (Uniform1f p "iFrameRate" fps) (glLog (host w')) /\
    In (Uniform1i p "iFrame" (frameCount (this w))) (glLog (host w')) /\
    frameCount (this w') = (frameCount (this w) + 1)%Z /\
    delivered (host w')
    = (delivered (host w)
       ++ map (fun l =>
                 (l, mkRendererEvent frame None
                       (Some (mkRendererState (isPlaying (this w)) time
                                (frameCount (this w')) fps))))
            (eventListeners (this w)))%list.
Proof.
  intros Hg Hp w'.
  assert (E : w' = after_frame w p).
  { unfold w', exec. rewrite (renderFrame_runs w Hg Hp). reflexivity. }
  exists (seconds (next_now w - startTime (this w))), (frame_fps w).
  rewrite E. unfold after_frame. cbn [host this]. wp_norm.
  repeat split;
    try (apply in_or_app; right; unfold frame_commands; simpl; tauto).
Qed.

Lemma frame_event_matches_uniforms_witness :
  let w := exec (compile "void mainImage(out vec4 c, in vec2 p) {}")
             (fresh_world (fun _ => 0%Z)) in
  gl (this w) = true /\
  exists time fps : Q,
    In (Uniform1f 3%nat "iTime" time) (glLog (host (exec renderFrame w))) /\
    In (Uniform1f 3%nat "iFrameRate" fps) (glLog (host (exec renderFrame w))).
Proof.
  intros w.
  assert (Hg : gl (this w) = true) by (vm_compute; reflexivity).
  assert (Hp : program (this w) = Some 3%nat) by (vm_compute; reflexivity).
  split; [exact Hg|].
  destruct (@frame_event_matches_uniforms w 3%nat Hg Hp)
    as (time & fps & H1 & H2 & _).
  exists time, fps. split; [exact H1|exact H2].
Defined.

Local Close Scope Q_scope.
